(** * Steel plant dashboard: loader and filter engine of [dashboard.py]

    A shallow embedding of the data-normalisation code of [dashboard.py]
    (column resolution, coordinate parsing, capacity aggregation, the
    sidebar and its filters) with the properties its specification states.

    Modelling conventions.
    - A Python [str] is a [string] whose characters are the code points
      0..255; the character classes of [re] and of [str] methods are the
      Unicode ones restricted to that range.  Texts with other characters
      (among them the decimal digits of other scripts, which [\d] and
      [float] accept) are outside the model.
    - A number is an IEEE 754 binary64 value, a [spec_float] with
      precision 53 and maximal exponent 1024; the missing value of pandas
      is the float NaN.  Sums are float64 additions, in the order numpy
      performs them.
    - A spreadsheet cell is a text or a float64; dates, booleans and
      integers that binary64 does not hold exactly are not modelled.
    - What depends on the version or on the internals of the libraries
      is gathered in the record [pandas]: the text of a number, the number
      read in a text, whether [astype(str)] keeps a missing value missing
      (pandas 3) or prints it as ["nan"] (pandas 2), and the sum of a row
      of eight values or more, whose order of additions depends on the
      memory layout numpy is handed.
    - A workbook is given parsed, with text headers; what pandas raises
      on a file it cannot read is not modelled. *)

From Stdlib Require Import String Ascii List Bool Arith ZArith QArith Lia.
From Stdlib Require Import Permutation Qround.
From Stdlib Require Import Floats.SpecFloat.
Import ListNotations.

Close Scope Q_scope.
Local Open Scope string_scope.
Local Open Scope list_scope.
Local Open Scope nat_scope.

(** ** Python text primitives *)

Module PyStr.

(** [str.isspace] on one character, which is also the class [\s] of [re]
    for [str] patterns: TAB..CR, FS..US, space, NEL and NBSP. *)
Definition is_space (c : ascii) : bool :=
  let n := nat_of_ascii c in
  ((9 <=? n) && (n <=? 13)) || ((28 <=? n) && (n <=? 32))
  || (n =? 133) || (n =? 160).

(** The class [\d]: the decimal digits; below code point 256 these are
    ['0'..'9'] only. *)
Definition is_digit (c : ascii) : bool :=
  let n := nat_of_ascii c in (48 <=? n) && (n <=? 57).

(** [str.lower] on one character: ['A'..'Z'] and the Latin-1 capitals. *)
Definition lower_char (c : ascii) : ascii :=
  let n := nat_of_ascii c in
  if ((65 <=? n) && (n <=? 90))
     || ((192 <=? n) && (n <=? 222) && negb (n =? 215))
  then ascii_of_nat (n + 32) else c.

Fixpoint lower (s : string) : string :=
  match s with
  | EmptyString => EmptyString
  | String c s' => String (lower_char c) (lower s')
  end.

(** [s.startswith(p)] *)
Fixpoint startswith (p s : string) : bool :=
  match p, s with
  | EmptyString, _ => true
  | String a p', String b s' => Ascii.eqb a b && startswith p' s'
  | String _ _, EmptyString => false
  end.

(** [k in s]: [k] occurs in [s] as a contiguous substring. *)
Fixpoint contains (k s : string) : bool :=
  startswith k s ||
  match s with
  | EmptyString => false
  | String _ s' => contains k s'
  end.

(** [s.endswith(k)] *)
Fixpoint endswith (k s : string) : bool :=
  String.eqb s k ||
  match s with
  | EmptyString => false
  | String _ s' => endswith k s'
  end.

Fixpoint lstrip (s : string) : string :=
  match s with
  | String c s' => if is_space c then lstrip s' else s
  | EmptyString => EmptyString
  end.

Fixpoint rstrip (s : string) : string :=
  match s with
  | EmptyString => EmptyString
  | String c s' =>
      match rstrip s' with
      | EmptyString => if is_space c then EmptyString else String c EmptyString
      | t => String c t
      end
  end.

(** [s.strip()] *)
Definition strip (s : string) : string := rstrip (lstrip s).

Fixpoint all_chars (p : ascii -> bool) (s : string) : bool :=
  match s with
  | EmptyString => true
  | String c s' => p c && all_chars p s'
  end.

End PyStr.

(** ** binary64 numbers and [float] on decimal literals *)

Module PyFloat.

Definition prec : Z := 53.
Definition emax : Z := 1024.

Definition digit_val (c : ascii) : Z := (Z.of_nat (nat_of_ascii c) - 48)%Z.

Fixpoint digits_val (acc : Z) (s : string) : Z :=
  match s with
  | EmptyString => acc
  | String c s' => digits_val (10 * acc + digit_val c)%Z s'
  end.

Fixpoint pow10 (k : nat) : positive :=
  match k with
  | O => 1%positive
  | S k' => (10 * pow10 k')%positive
  end.

(** The binary64 value nearest to [(-1)^neg * n / 10^k] (ties to even),
    as the correctly rounded quotient of the two integers. *)
Definition of_decimal (neg : bool) (n : Z) (k : nat) : spec_float :=
  match n with
  | Zpos m =>
      SFdiv prec emax (S754_finite neg m 0) (S754_finite false (pow10 k) 0)
  | _ => S754_zero neg
  end.

(** Splits at the first ['.']: the text before it and, when there is one,
    the text after it. *)
Fixpoint split_dot (s : string) : string * option string :=
  match s with
  | EmptyString => (EmptyString, None)
  | String c s' =>
      if Ascii.eqb c "." then (EmptyString, Some s')
      else let (a, b) := split_dot s' in (String c a, b)
  end.

Definition nonempty (s : string) : bool :=
  match s with EmptyString => false | _ => true end.

(** A leading minus sign, if any, and the rest. *)
Definition strip_sign (s : string) : bool * string :=
  match s with
  | String "-" t => (true, t)
  | _ => (false, s)
  end.

(** [float(s)] for [s] an optionally signed decimal literal
    [-?digits(.digits)?].  [None] stands for every other argument: there
    Python raises [ValueError] or reads syntax that is not modelled
    (exponents, [inf], [nan], underscores, surrounding blanks). *)
Definition py_float (s : string) : option spec_float :=
  let (neg, body) := strip_sign s in
  let (ip, fp) := split_dot body in
  let frac := match fp with Some f => f | None => EmptyString end in
  let fp_ok := match fp with Some f => nonempty f | None => true end in
  if nonempty ip && PyStr.all_chars PyStr.is_digit ip
     && fp_ok && PyStr.all_chars PyStr.is_digit frac
  then Some (of_decimal neg (digits_val 0 (ip ++ frac)%string) (String.length frac))
  else None.

Definition is_nan (x : spec_float) : bool :=
  match x with S754_nan => true | _ => false end.

Definition is_finite (x : spec_float) : bool :=
  match x with S754_zero _ | S754_finite _ _ _ => true | _ => false end.


(** [x + y] on binary64 *)
Definition add (x y : spec_float) : spec_float := SFadd prec emax x y.

(** The exact value of a finite number; zero for the other floats. *)
Definition to_Q (x : spec_float) : Q :=
  match x with
  | S754_finite s m e =>
      (inject_Z (if s then Zneg m else Zpos m) * Qpower (2 # 1) e)%Q
  | _ => (0 # 1)%Q
  end.

(** [x <= y] on binary64: the order of the exact values, with the two
    infinities at the ends, and false as soon as one side is NaN. *)
Definition leb (x y : spec_float) : bool :=
  match x, y with
  | S754_nan, _ => false
  | _, S754_nan => false
  | S754_infinity sx, S754_infinity sy => sx || negb sy
  | S754_infinity sx, _ => sx
  | _, S754_infinity sy => negb sy
  | _, _ => Qle_bool (to_Q x) (to_Q y)
  end.

(** Truncation of a rational toward zero. *)
Definition truncate (q : Q) : Z := Z.quot (Qnum q) (Zpos (Qden q)).

End PyFloat.

(** ** The fragment of [re] used by the coordinate pattern *)

Module Re.

(** Pattern syntax.  Repetition is over one character class, as in the
    source; [Group i r] is the [i]-th capturing group, [Opt] the greedy
    [(?:r)?], [Eos] the anchor [$]. *)
Inductive regex : Type :=
| Lit (c : ascii)
| Seq (r1 r2 : regex)
| Opt (r : regex)
| Star (p : ascii -> bool)
| Plus (p : ascii -> bool)
| Group (i : nat) (r : regex)
| Eos.

(** A match object: the text of each group that took part, latest first. *)
Definition captures : Type := list (nat * string).

(** [consumed s s'] is what was read of [s] when [s'] is left. *)
Definition consumed (s s' : string) : string :=
  substring 0 (String.length s - String.length s') s.

(** Greedy [p*] followed by the continuation [k]: the longest run first,
    then shorter ones on failure of [k]. *)
Fixpoint star_exec {R : Type} (p : ascii -> bool) (s : string)
         (k : string -> option R) : option R :=
  match s with
  | String c s' =>
      if p c then
        match star_exec p s' k with
        | Some r => Some r
        | None => k s
        end
      else k s
  | EmptyString => k s
  end.

(** The backtracking matcher: [exec r s m k] matches [r] at the front of
    [s] with groups [m] and hands the rest of the text to [k]. *)
Fixpoint exec (r : regex) (s : string) (m : captures)
         (k : string -> captures -> option captures) : option captures :=
  match r with
  | Lit c =>
      match s with
      | String a s' => if Ascii.eqb a c then k s' m else None
      | EmptyString => None
      end
  | Seq r1 r2 => exec r1 s m (fun s1 m1 => exec r2 s1 m1 k)
  | Opt r1 =>
      match exec r1 s m k with
      | Some res => Some res
      | None => k s m
      end
  | Star p => star_exec p s (fun s' => k s' m)
  | Plus p =>
      match s with
      | String a s' => if p a then star_exec p s' (fun s'' => k s'' m) else None
      | EmptyString => None
      end
  | Group i r1 => exec r1 s m (fun s1 m1 => k s1 ((i, consumed s s1) :: m1))
  | Eos =>
      match s with
      | EmptyString => k s m
      | String a EmptyString => if Ascii.eqb a "010" then k s m else None
      | _ => None
      end
  end.

(** [pattern.match(s)]: the pattern is tried at position 0 only, where a
    leading [^] always holds, and need not reach the end of [s]. *)
Definition re_match (r : regex) (s : string) : option captures :=
  exec r s [] (fun _ m => Some m).

(** [m.group(i)] *)
Fixpoint group (m : captures) (i : nat) : option string :=
  match m with
  | [] => None
  | (j, t) :: m' => if Nat.eqb i j then Some t else group m' i
  end.

(** The language of a pattern, read declaratively: [matches r x rest m m']
    when [r] can read the text [x] in front of [rest], taking the groups
    from [m] to [m']. *)
Inductive matches : regex -> string -> string -> captures -> captures -> Prop :=
| M_lit c rest m :
    matches (Lit c) (String c EmptyString) rest m m
| M_seq r1 r2 x1 x2 rest m m1 m2 :
    matches r1 x1 (x2 ++ rest)%string m m1 ->
    matches r2 x2 rest m1 m2 ->
    matches (Seq r1 r2) (x1 ++ x2)%string rest m m2
| M_opt_some r x rest m m' :
    matches r x rest m m' -> matches (Opt r) x rest m m'
| M_opt_none r rest m :
    matches (Opt r) EmptyString rest m m
| M_star p w rest m :
    PyStr.all_chars p w = true -> matches (Star p) w rest m m
| M_plus p w rest m :
    w <> EmptyString -> PyStr.all_chars p w = true ->
    matches (Plus p) w rest m m
| M_group i r x rest m m' :
    matches r x rest m m' -> matches (Group i r) x rest m ((i, x) :: m')
| M_eos rest m :
    rest = EmptyString \/ rest = String "010" EmptyString ->
    matches Eos EmptyString rest m m.

End Re.

(** ** Exceptions *)

(** A piece of a formatted message: literal text or the [repr] of a list
    of strings interpolated by an f-string. *)
Inductive fragment : Type :=
| Txt (s : string)
| ReprList (l : list string).

(** The exceptions of the script and of the library calls it makes. *)
Inductive exn : Type :=
| FileNotFoundError (msg : list fragment)
| KeyError (msg : list fragment)
| AttributeError
| ValueError
| TypeError
| OverflowError
| StreamlitAPIException.

Definition result (A : Type) : Type := sum exn A.

Definition ret {A : Type} (a : A) : result A := inr a.
Definition raise {A : Type} (e : exn) : result A := inl e.
Definition bind {A B : Type} (x : result A) (f : A -> result B) : result B :=
  match x with
  | inl e => inl e
  | inr a => f a
  end.

Notation "x <- e ;; k" := (bind e (fun x => k))
  (at level 61, e at next level, right associativity).
Notation "' p <- e ;; k" := (bind e (fun p => k))
  (at level 61, p pattern, e at next level, right associativity).

(** ** Tables *)

(** A spreadsheet cell as [pd.read_excel] yields it: text or a number.
    An empty cell is read as the float NaN, the missing value. *)
Inductive cell : Type :=
| Text (s : string)
| Num (x : spec_float).

Abbreviation NaN := (Num S754_nan).

(** A sheet as read: the header row and the body rows, each row holding
    its cells in header order. *)
Record frame : Type := mkFrame {
  f_columns : list string;
  f_rows : list (list cell)
}.

(** A workbook: its sheets in order, by name.  A file system maps a path
    to the workbook stored there, if any. *)
Definition workbook : Type := list (string * frame).
Definition filesystem : Type := string -> option workbook.

(** A row of the loaded table: the cells of the sheet's columns and the
    three derived fields.  The parser appends [None] or a float to the
    coordinate lists; the total is a float64, NaN when missing. *)
Record plant : Type := mkPlant {
  cells : list cell;
  Latitude : option spec_float;
  Longitude : option spec_float;
  TotalCapacity : spec_float
}.

(** The loaded table.  [columns] lists the names of the sheet's columns;
    the derived columns are the fields of [plant]. *)
Record table : Type := mkTable {
  columns : list string;
  plants : list plant
}.

(** The second component of what [load_data] returns. *)
Record meta : Type := mkMeta {
  owner : option string;
  region : option string;
  sheet : string;
  cap_cols : list string
}.

(** What is left to the libraries: [str(x)] of a number, the number
    [pd.to_numeric] reads in a text (NaN when it reads none), whether
    [astype(str)] keeps a missing value missing, and the sum numpy
    returns for a row of eight values or more. *)
Record pandas : Type := mkPandas {
  num_repr : spec_float -> string;
  text_to_num : string -> spec_float;
  keeps_missing : bool;
  wide_sum : list spec_float -> spec_float
}.

Module Dashboard.

Import PyStr PyFloat Re.

(** *** Helpers *)

(** [pick(cols, *keys)] *)
Definition pick (cols : list string) (keys : list string) : option string :=
  let keys := map lower keys in
  find (fun c => existsb (fun k => contains k (lower c)) keys) cols.

(** [-?\d+(?:\.\d+)?] as capturing group [i] *)
Definition number (i : nat) : regex :=
  Group i (Seq (Opt (Lit "-"))
               (Seq (Plus is_digit) (Opt (Seq (Lit ".") (Plus is_digit))))).

(** [^\s*(-?\d+(?:\.\d+)?)\s*,\s*(-?\d+(?:\.\d+)?)\s*$] *)
Definition pat : regex :=
  Seq (Star is_space)
 (Seq (number 1)
 (Seq (Star is_space)
 (Seq (Lit ",")
 (Seq (Star is_space)
 (Seq (number 2)
 (Seq (Star is_space) Eos)))))).

(** [float(m.group(i))]: [TypeError] on a group that did not take part,
    [ValueError] on text that is no number. *)
Definition float_group (m : captures) (i : nat) : result spec_float :=
  match group m i with
  | None => raise TypeError
  | Some t =>
      match py_float t with
      | Some x => ret x
      | None => raise ValueError
      end
  end.

(** The loop of [parse_coordinates] over the values of
    [series.astype(str)], with the two lists it appends to.  A value that
    stayed missing is no text, and [pat.match] raises [TypeError] on it. *)
Fixpoint parse_loop (vs : list (option string))
         (lat lon : list (option spec_float))
  : result (list (option spec_float) * list (option spec_float)) :=
  match vs with
  | [] => ret (lat, lon)
  | None :: _ => raise TypeError
  | Some v :: vs' =>
      match re_match pat v with
      | Some m =>
          x <- float_group m 1 ;;
          y <- float_group m 2 ;;
          parse_loop vs' (lat ++ [Some x]) (lon ++ [Some y])
      | None => parse_loop vs' (lat ++ [None]) (lon ++ [None])
      end
  end.

(** [pd.notna] on a cell and on a float *)
Definition notna (x : spec_float) : bool := negb (is_nan x).

Definition notna_cell (c : cell) : bool :=
  match c with
  | Text _ => true
  | Num x => notna x
  end.

(** *** Column access *)

Fixpoint index_of (c : string) (cols : list string) : option nat :=
  match cols with
  | [] => None
  | c' :: cols' =>
      if String.eqb c' c then Some 0
      else option_map S (index_of c cols')
  end.

(** The cell of column [c] in a row laid out along [cols]. *)
Definition get (cols : list string) (row : list cell) (c : string) : cell :=
  match index_of c cols with
  | Some i => nth i row NaN
  | None => NaN
  end.

(** [df[c]] for a label carried by one column *)
Definition column (cols : list string) (rows : list (list cell)) (c : string)
  : list cell :=
  map (fun row => get cols row c) rows.

Definition mem (c : string) (l : list string) : bool :=
  existsb (String.eqb c) l.

(** No label occurs twice. *)
Fixpoint distinct (l : list string) : bool :=
  match l with
  | [] => true
  | c :: l' => negb (mem c l') && distinct l'
  end.

(** What a loop over [df[c]] goes through: the cells of the column, or,
    when several columns carry the label [c], the labels of the frame
    [df[c]] then is, once per such column. *)
Definition getitem (cols : list string) (rows : list (list cell)) (c : string)
  : list cell :=
  let k := count_occ string_dec cols c in
  if 1 <? k then repeat (Text c) k else column cols rows c.

(** One row after assignments [df[c] = ...] to columns it has: [f c]
    gives the new cell of column [c] from the old one. *)
Definition assign (f : string -> cell -> cell) (cols : list string)
           (row : list cell) : list cell :=
  map (fun c => f c (get cols row c)) cols.

(** [a or b] on two optional column names: [None] and the empty string
    are false. *)
Definition py_or (a b : option string) : option string :=
  match a with
  | Some EmptyString => b
  | Some _ => a
  | None => b
  end.

Definition truthy (a : option string) : bool :=
  match a with
  | Some EmptyString => false
  | Some _ => true
  | None => false
  end.

(** *** Sums of floats *)

(** The missing value replaced by zero, as [nansum] does before adding. *)
Definition fillna (x : spec_float) : spec_float :=
  if is_nan x then S754_zero false else x.

(** Addition from left to right, from the identity [-0.0] numpy starts
    a sum with. *)
Definition seq_sum (l : list spec_float) : spec_float :=
  fold_left add l (S754_zero true).

(** [pd.isna] on an entry of the coordinate lists *)
Definition isna (x : option spec_float) : bool :=
  match x with
  | None => true
  | Some f => is_nan f
  end.

(** [int(x)] on a float: truncation toward zero *)
Definition py_int (x : spec_float) : result Z :=
  match x with
  | S754_nan => raise ValueError
  | S754_infinity _ => raise OverflowError
  | _ => ret (truncate (to_Q x))
  end.

Definition fmin (a b : spec_float) : spec_float := if leb a b then a else b.
Definition fmax (a b : spec_float) : spec_float := if leb a b then b else a.

(** [series.min(skipna=True)] and [series.max(skipna=True)]: NaN when no
    value is present. *)
Definition series_min (l : list spec_float) : spec_float :=
  match filter notna l with
  | [] => S754_nan
  | x :: xs => fold_left fmin xs x
  end.

Definition series_max (l : list spec_float) : spec_float :=
  match filter notna l with
  | [] => S754_nan
  | x :: xs => fold_left fmax xs x
  end.

(** [series.between(lo, hi)] on one entry, both ends included.  The
    bounds are those the slider returns, integers that binary64 holds
    exactly (see [st_slider]), so the comparison is that of the exact
    values; NaN and the infinities are in no range. *)
Definition between (lo hi : Z) (x : spec_float) : bool :=
  is_finite x
  && Qle_bool (inject_Z lo) (to_Q x) && Qle_bool (to_Q x) (inject_Z hi).

(** The truth value of a selection: [None] and the empty list are false. *)
Definition chosen (sel : option (list string)) : bool :=
  match sel with
  | Some (_ :: _) => true
  | _ => false
  end.

Definition selection (sel : option (list string)) : list string :=
  match sel with
  | Some l => l
  | None => []
  end.

Definition col_name (c : option string) : string :=
  match c with
  | Some s => s
  | None => EmptyString
  end.

(** [df["TotalCapacity"].notna().any()] *)
Definition any_capacity (ps : list plant) : bool :=
  existsb (fun p => notna (TotalCapacity p)) ps.

(** [if cap_range and f["TotalCapacity"].notna().any(): ...] *)
Definition filter_capacity (cap_range : option (Z * Z)) (f : table) : table :=
  match cap_range with
  | Some (lo, hi) =>
      if any_capacity (plants f) then
        mkTable (columns f)
                (filter (fun p => between lo hi (TotalCapacity p)) (plants f))
      else f
  | None => f
  end.

(** The bounds of the capacity slider, [int] of the smallest and of the
    largest capacity, or [None] when no row has a capacity and no slider
    is made. *)
Definition slider_bounds (df : table) : result (option (Z * Z)) :=
  if any_capacity (plants df) then
    min_cap <- py_int (series_min (map TotalCapacity (plants df))) ;;
    max_cap <- py_int (series_max (map TotalCapacity (plants df))) ;;
    ret (Some (min_cap, max_cap))
  else ret None.

(** The filter parameters: what the three sidebar widgets returned. *)
Record params : Type := mkParams {
  sel_owners : option (list string);
  sel_regions : option (list string);
  cap_range : option (Z * Z)
}.

Definition path : string := "dataset_globalsteeltracker.xlsx".
Definition sheet_name : string := "Plant data".

Fixpoint read_excel (xls : workbook) (name : string) : frame :=
  match xls with
  | [] => mkFrame [] []
  | (n, f) :: xls' => if String.eqb n name then f else read_excel xls' name
  end.

(** [df.join([lat, lon])]: the rows paired with the two new entries at
    the same position. *)
Fixpoint join (rows : list (list cell)) (lat lon : list (option spec_float))
  : list (list cell * option spec_float * option spec_float) :=
  match rows with
  | [] => []
  | r :: rows' =>
      (r, hd None lat, hd None lon) :: join rows' (tl lat) (tl lon)
  end.

(** [.dropna(subset=["Latitude", "Longitude"])] *)
Definition dropna
  (rows : list (list cell * option spec_float * option spec_float))
  : list (list cell * option spec_float * option spec_float) :=
  filter (fun r => negb (isna (snd (fst r))) && negb (isna (snd r))) rows.

(** [str(c).lower().endswith("capacity (ttpa)")] *)
Definition is_cap_col (c : string) : bool :=
  endswith "capacity (ttpa)" (lower c).

Section Library.

Variable lib : pandas.

(** [str(v)] of a value that is present *)
Definition str (c : cell) : string :=
  match c with
  | Text s => s
  | Num x => num_repr lib x
  end.

(** [series.astype(str)] on one cell: [None] is a value that stayed
    missing. *)
Definition astype_str (c : cell) : option string :=
  if notna_cell c then Some (str c)
  else if keeps_missing lib then None else Some "nan".

(** [pd.to_numeric(..., errors="coerce")] on one cell *)
Definition to_numeric (c : cell) : cell :=
  match c with
  | Text s => Num (text_to_num lib s)
  | Num x => Num x
  end.

(** [parse_coordinates(series)] *)
Definition parse_coordinates (series : list cell)
  : result (list (option spec_float) * list (option spec_float)) :=
  parse_loop (map astype_str series) [] [].

(** *** Capacity aggregation *)

(** The float of a cell of a numeric column. *)
Definition numeric_value (c : cell) : spec_float :=
  match c with
  | Num x => x
  | Text _ => S754_nan
  end.

(** The sum numpy returns for one row of values without NaN: fewer than
    eight are added from left to right, whatever the layout. *)
Definition row_sum (vals : list spec_float) : spec_float :=
  if length vals <? 8 then seq_sum vals else wide_sum lib vals.

(** [sum(min_count=1)] over the values of one row: the missing ones
    count as zero, and fewer than one present value gives the missing
    value. *)
Definition sum_min_count_1 (vals : list spec_float) : spec_float :=
  if existsb notna vals then row_sum (map fillna vals) else S754_nan.

(** [df[c] = pd.to_numeric(df[c], errors="coerce")] for each [c] of
    [caps], on one row. *)
Definition coerce_row (cols caps : list string) (row : list cell)
  : list cell :=
  assign (fun c v => if mem c caps then to_numeric v else v) cols row.

(** [df[cap_cols].sum(axis=1, min_count=1)] on one (coerced) row *)
Definition row_total (cols caps : list string) (row : list cell)
  : spec_float :=
  sum_min_count_1 (map (fun c => numeric_value (get cols row c)) caps).

(** [df["TotalCapacity"] = total] on the cells of one row: a sheet
    column of that name is overwritten. *)
Definition store_total (cols : list string) (row : list cell)
           (total : spec_float) : list cell :=
  assign (fun c v => if String.eqb c "TotalCapacity" then Num total else v)
         cols row.

(** The block that builds [TotalCapacity], on one joined row: with
    capacity columns, these are made numeric and summed; with none, the
    placeholder [pd.NA] is stored. *)
Definition with_total_capacity (cols caps : list string)
  (r : list cell * option spec_float * option spec_float) : plant :=
  match caps with
  | [] =>
      mkPlant (store_total cols (fst (fst r)) S754_nan)
              (snd (fst r)) (snd r) S754_nan
  | _ :: _ =>
      let row := coerce_row cols caps (fst (fst r)) in
      let total := row_total cols caps row in
      mkPlant (store_total cols row total) (snd (fst r)) (snd r) total
  end.

(** *** Loading *)

(** [load_data()] against the files of [fs].  After the three checks of
    the script come those of the library calls: [.str] on the labels of a
    sheet without columns, [pat.match] on a missing value, and [join] on
    labels that would occur twice. *)
Definition load_data (fs : filesystem) : result (table * meta) :=
  match fs path with
  | None =>
      raise (FileNotFoundError
               [Txt " 'dataset_globalsteeltracker.xlsx' not found in this folder."])
  | Some xls =>
      let sheet_names := map fst xls in
      if negb (mem sheet_name sheet_names) then
        raise (KeyError [Txt " Sheet '"; Txt sheet_name;
                         Txt "' not found. Available: "; ReprList sheet_names])
      else
        let raw := read_excel xls sheet_name in
        match f_columns raw with
        | [] => raise AttributeError
        | _ :: _ =>
            let cols := map strip (f_columns raw) in
            match pick cols ["coordinates"] with
            | None =>
                raise (KeyError
                         [Txt " Column 'Coordinates' was not found in the 'Plant data' sheet."])
            | Some coord_col =>
                ' (lat, lon) <-
                  parse_coordinates (getitem cols (f_rows raw) coord_col) ;;
                let all_cols := cols ++ ["Latitude"; "Longitude"] in
                if negb (distinct all_cols) then raise ValueError
                else
                  let kept := dropna (join (f_rows raw) lat lon) in
                  let owner_col := pick all_cols ["owner"] in
                  let region_col :=
                    py_or (pick all_cols ["country/area"])
                          (pick all_cols ["country"; "region"]) in
                  let caps := filter is_cap_col all_cols in
                  ret (mkTable cols (map (with_total_capacity cols caps) kept),
                       mkMeta owner_col region_col sheet_name caps)
            end
        end
  end.

(** *** Filters *)

(** [f[col].astype(str).isin(sel)] on one row: a value that stayed
    missing is in no selection. *)
Definition isin_row (cols : list string) (col : option string)
           (sel : option (list string)) (p : plant) : bool :=
  match astype_str (get cols (cells p) (col_name col)) with
  | Some s => mem s (selection sel)
  | None => false
  end.

(** [if sel and col: f = f[f[col].astype(str).isin(sel)]], the step of
    the owner filter and of the region filter. *)
Definition filter_by (col : option string) (sel : option (list string))
           (f : table) : table :=
  if chosen sel && truthy col then
    mkTable (columns f) (filter (isin_row (columns f) col sel) (plants f))
  else f.

(** The statements under [# Apply filters], in the order of the source. *)
Definition apply_filters (m : meta) (ps : params) (df : table) : table :=
  let f := df in
  let f := filter_by (owner m) (sel_owners ps) f in
  let f := filter_by (region m) (sel_regions ps) f in
  let f := filter_capacity (cap_range ps) f in
  f.

End Library.

End Dashboard.


(** ** The page below the loader: sidebar and map arguments *)

Module Page.

Import PyStr PyFloat Dashboard.

(** [series.unique()]: the first occurrence of each value, in order. *)
Fixpoint unique (l : list string) : list string :=
  match l with
  | [] => []
  | x :: l' => x :: filter (fun y => negb (String.eqb y x)) (unique l')
  end.

Fixpoint insert (x : string) (l : list string) : list string :=
  match l with
  | [] => [x]
  | y :: l' => if String.leb x y then x :: l else y :: insert x l'
  end.

(** [sorted(l)] on strings, which Python orders by code points. *)
Definition sorted (l : list string) : list string := fold_right insert [] l.

(** What the two kinds of sidebar widget return: for [multiselect] given
    the label, the options and the default; for [slider] given the label,
    the bounds and the default value.  The reader of the page decides. *)
Record widgets : Type := mkWidgets {
  multiselect : string -> list string -> list string -> list string;
  slider : string -> Z -> Z -> Z * Z -> Z * Z
}.

(** The widgets left as they are first shown. *)
Definition untouched : widgets :=
  mkWidgets (fun _ _ default => default) (fun _ _ _ value => value).

(** The integers JavaScript holds exactly, the only ones a slider takes. *)
Definition js_safe (z : Z) : bool :=
  (- (2 ^ 53 - 1) <=? z)%Z && (z <=? 2 ^ 53 - 1)%Z.

(** [st.sidebar.slider(label, min_value=..., max_value=..., value=...)]
    on integers: refused unless [min_value < max_value] and both are safe
    integers. *)
Definition st_slider (w : widgets) (label : string) (min_value max_value : Z)
           (value : Z * Z) : result (Z * Z) :=
  if (min_value <? max_value)%Z && js_safe min_value && js_safe max_value
  then ret (slider w label min_value max_value value)
  else raise StreamlitAPIException.

Section Script.

Variable lib : pandas.

(** [sorted(df[col].dropna().astype(str).unique().tolist())] *)
Definition options (df : table) (col : string) : list string :=
  sorted
    (unique
       (map (str lib)
            (filter notna_cell
                    (map (fun p => get (columns df) (cells p) col)
                         (plants df))))).

(** The statements under [# Sidebar filters]. *)
Definition sidebar (w : widgets) (df : table) (m : meta) : result params :=
  let owner_col := owner m in
  let region_col := region m in
  let sel_owners :=
    if truthy owner_col then
      let owners := options df (col_name owner_col) in
      Some (multiselect w "Owner" owners owners)
    else None in
  let sel_regions :=
    if truthy region_col then
      let regions := options df (col_name region_col) in
      Some (multiselect w "Country/Area" regions regions)
    else None in
  bounds <- slider_bounds df ;;
  cap_range <-
    match bounds with
    | Some (min_cap, max_cap) =>
        r <- st_slider w "Capacity Range (ttpa)" min_cap max_cap
                       (min_cap, max_cap) ;;
        ret (Some r)
    | None => ret None
    end ;;
  ret (mkParams sel_owners sel_regions cap_range).

(** The filtered table [f] of the page. *)
Definition view (w : widgets) (df : table) (m : meta) : result table :=
  ps <- sidebar w df m ;;
  ret (apply_filters lib m ps df).

End Script.

(** *** Map arguments *)

(** [f.columns]: the sheet's columns and the three derived ones, the
    total taking the place of a sheet column of its name. *)
Definition all_columns (f : table) : list string :=
  columns f ++ ["Latitude"; "Longitude"]
  ++ (if mem "TotalCapacity" (columns f) then [] else ["TotalCapacity"]).

(** [pick(f.columns, "plant name", "plant name (english)") or owner_col] *)
Definition hover_name (f : table) (m : meta) : option string :=
  py_or (pick (all_columns f) ["plant name"; "plant name (english)"])
        (owner m).

(** [(col or default)] on an optional column name *)
Definition or_default (c : option string) (default : string) : string :=
  if truthy c then col_name c else default.

(** [f["TotalCapacity"] if f["TotalCapacity"].notna().any() else None] *)
Definition size_arg (f : table) : option (list spec_float) :=
  if any_capacity (plants f) then Some (map TotalCapacity (plants f))
  else None.

End Page.

(** ** The vocabulary of the specification *)

Module Spec.

Import PyStr PyFloat Re Dashboard Page.

(** [k] occurs in [s]. *)
Definition substring_of (k s : string) : Prop :=
  exists u v, s = (u ++ k ++ v)%string.


(** The lowercased name [c] contains one of the candidates,
    case-insensitively. *)
Definition key_matches (keys : list string) (c : string) : Prop :=
  exists k, In k keys /\ substring_of (lower k) (lower c).

(** The first character of [s], if any, is outside the class [p]. *)
Definition head_not (p : ascii -> bool) (s : string) : Prop :=
  match s with
  | EmptyString => True
  | String c _ => p c = false
  end.

Definition is_dot (c : ascii) : bool := Ascii.eqb c ".".

(** Whitespace only. *)
Definition blank (w : string) : Prop := all_chars is_space w = true.

(** One decimal digit or more. *)
Definition digits (d : string) : Prop :=
  d <> EmptyString /\ all_chars is_digit d = true.

(** An optionally signed decimal number: digits, optionally followed by
    a point and digits, optionally preceded by a minus sign. *)
Definition decimal (a : string) : Prop :=
  exists sign ip frac,
    a = (sign ++ ip ++ frac)%string
    /\ (sign = EmptyString \/ sign = "-")
    /\ digits ip
    /\ (frac = EmptyString \/ exists fp, frac = String "." fp /\ digits fp).

(** A number without sign: digits, optionally a point and digits. *)
Definition unsigned_decimal (a : string) : Prop :=
  exists ip frac,
    a = (ip ++ frac)%string
    /\ digits ip
    /\ (frac = EmptyString
        \/ exists fp, frac = String "." fp /\ digits fp).

(** The whole of [v] reads [a , b] with optional whitespace around the
    numbers [a] and [b]. *)
Definition coordinate_text (v a b : string) : Prop :=
  exists w1 w2 w3 w4,
    blank w1 /\ blank w2 /\ blank w3 /\ blank w4
    /\ decimal a /\ decimal b
    /\ v = (w1 ++ a ++ w2 ++ "," ++ w3 ++ b ++ w4)%string.

(** What the specification asks of the two entries produced for the
    text [v]: the floats of its two numbers when [v] has the stated shape,
    and two missing values otherwise. *)
Definition parsed_row (v : string) (la lo : option spec_float) : Prop :=
  (exists a b x y,
      coordinate_text v a b
      /\ (forall a' b', coordinate_text v a' b' -> a' = a /\ b' = b)
      /\ py_float a = Some x /\ py_float b = Some y
      /\ la = Some x /\ lo = Some y)
  \/ ((forall a b, ~ coordinate_text v a b) /\ la = None /\ lo = None).

(** The two entries one turn of the loop of [parse_coordinates] appends
    for the text [v], when it raises nothing. *)
Definition row_entries (v : string) : option spec_float * option spec_float :=
  match re_match pat v with
  | Some m =>
      match float_group m 1, float_group m 2 with
      | inr x, inr y => (Some x, Some y)
      | _, _ => (None, None)
      end
  | None => (None, None)
  end.

(** The same for a value of [series.astype(str)]. *)
Definition entries (t : option string)
  : option spec_float * option spec_float :=
  match t with
  | Some v => row_entries v
  | None => (None, None)
  end.

Definition is_text (t : option string) : bool :=
  match t with
  | Some _ => true
  | None => false
  end.


(** Truncation toward zero: [z] is the integer next to [q] on the side
    of zero. *)
Definition toward_zero (q : Q) (z : Z) : Prop :=
  ((0 <= q)%Q -> (inject_Z z <= q)%Q /\ (q < inject_Z (z + 1))%Q)
  /\ ((q <= 0)%Q -> (inject_Z (z - 1) < q)%Q /\ (q <= inject_Z z)%Q).

(** The float [x] is a whole number. *)
Definition whole (x : spec_float) : Prop :=
  is_finite x = true /\ (inject_Z (truncate (to_Q x)) == to_Q x)%Q.

(** The capacities of a table that are present. *)
Definition capacities (f : table) : list spec_float :=
  filter notna (map TotalCapacity (plants f)).

(** The three filter dimensions. *)
Inductive dimension : Type := ByOwner | ByRegion | ByCapacity.

Definition is_capacity (d : dimension) : bool :=
  match d with
  | ByCapacity => true
  | _ => false
  end.

(** The dimensions applied before the capacity one in a given order. *)
Fixpoint before_capacity (order : list dimension) : list dimension :=
  match order with
  | [] => []
  | d :: order' => if is_capacity d then [] else d :: before_capacity order'
  end.

(** The predicate of the capacity range: the range test when a range is
    given and the dimension is [active], true otherwise. *)
Definition passes_capacity (active : bool) (cr : option (Z * Z)) (p : plant)
  : bool :=
  match cr with
  | Some (lo, hi) => if active then between lo hi (TotalCapacity p) else true
  | None => true
  end.

Section Rows.

Variable lib : pandas.

(** The coordinate value of a sheet row, as [astype(str)] gives it. *)
Definition coordinate_of (cols : list string) (coord : string)
           (r : list cell) : option string :=
  astype_str lib (get cols r coord).

(** The coordinate text of the row matches the pattern. *)
Definition has_coordinates (cols : list string) (coord : string)
           (r : list cell) : bool :=
  match coordinate_of cols coord r with
  | Some v =>
      match re_match pat v with
      | Some _ => true
      | None => false
      end
  | None => false
  end.

(** A sheet row with its two parsed entries. *)
Definition joined (cols : list string) (coord : string) (r : list cell)
  : list cell * option spec_float * option spec_float :=
  (r, fst (entries (coordinate_of cols coord r)),
      snd (entries (coordinate_of cols coord r))).



(** One step of the filter engine for each dimension, and the steps
    applied in a given order. *)
Definition step (m : meta) (ps : params) (d : dimension) (f : table) : table :=
  match d with
  | ByOwner => filter_by lib (owner m) (sel_owners ps) f
  | ByRegion => filter_by lib (region m) (sel_regions ps) f
  | ByCapacity => filter_capacity (cap_range ps) f
  end.

Definition run (m : meta) (ps : params) (order : list dimension) (f : table)
  : table :=
  fold_left (fun f d => step m ps d f) order f.

(** The predicate of a selection on a column: the membership test when
    the selection is non-empty and the column resolved, true otherwise. *)
Definition passes_selection (cols : list string) (col : option string)
           (sel : option (list string)) (p : plant) : bool :=
  if chosen sel && truthy col then isin_row lib cols col sel p else true.

Definition passes_selections (m : meta) (ps : params) (df : table) (p : plant)
  : bool :=
  passes_selection (columns df) (owner m) (sel_owners ps) p
  && passes_selection (columns df) (region m) (sel_regions ps) p.

(** The rows of [df] that pass the owner and region selections. *)
Definition selected (m : meta) (ps : params) (df : table) : list plant :=
  filter (passes_selections m ps df) (plants df).

(** The capacity dimension is active on [df] when one of the rows that
    pass the owner and region selections has a capacity. *)
Definition capacity_active (m : meta) (ps : params) (df : table) : bool :=
  any_capacity (selected m ps df).

(** The reference filter: the rows of [df] that satisfy the conjunction
    of the three predicates. *)
Definition reference_filter (m : meta) (ps : params) (df : table)
  : list plant :=
  filter (fun p => passes_selections m ps df p
                   && passes_capacity (capacity_active m ps df) (cap_range ps) p)
         (plants df).

End Rows.

(** The labels of the sheet [load_data] reads, stripped, and its rows. *)
Definition sheet_columns (xls : workbook) : list string :=
  map strip (f_columns (read_excel xls sheet_name)).

Definition sheet_rows (xls : workbook) : list (list cell) :=
  f_rows (read_excel xls sheet_name).

(** Some row has an empty cell in the column [c]. *)
Definition has_empty_cell (cols : list string) (rows : list (list cell))
           (c : string) : Prop :=
  exists r, In r rows /\ get cols r c = NaN.

(** The cell of column [col] in a row of [df]. *)
Definition cell_of (df : table) (col : option string) (p : plant) : cell :=
  get (columns df) (cells p) (col_name col).

(** No row of [df] lacks a value in the column [col], when it resolved. *)
Definition column_complete (df : table) (col : option string) : Prop :=
  truthy col = true ->
  forall p, In p (plants df) -> cell_of df col p <> NaN.

End Spec.


(** ** Sample workbooks *)

Module Examples.

Import PyFloat Dashboard.

(** Stand-ins for the library on the samples: every number prints as
    ["0.0"]; the texts ["50"], ["inf"] and ["-inf"] read as numbers and no
    other text does; wide rows are added from left to right.  The two
    records differ by the treatment of missing values in [astype(str)]. *)
Definition sample_repr (x : spec_float) : string := "0.0".

Definition sample_to_num (s : string) : spec_float :=
  if String.eqb s "50" then S754_finite false 7036874417766400 (-47)
  else if String.eqb s "inf" then S754_infinity false
  else if String.eqb s "-inf" then S754_infinity true
  else S754_nan.

Definition pandas2 : pandas :=
  mkPandas sample_repr sample_to_num false seq_sum.

Definition pandas3 : pandas :=
  mkPandas sample_repr sample_to_num true seq_sum.

(** The file system holding one workbook, with one sheet, at [path]. *)
Definition on_disk (sh : frame) : filesystem :=
  fun p => if String.eqb p path then Some [(sheet_name, sh)] else None.

(** Some binary64 numbers. *)
Definition f_1 : spec_float := S754_finite false 4503599627370496 (-52).
Definition f_2 : spec_float := S754_finite false 4503599627370496 (-51).
Definition f_3 : spec_float := S754_finite false 6755399441055744 (-51).
Definition f_4 : spec_float := S754_finite false 4503599627370496 (-50).
Definition f_5 : spec_float := S754_finite false 5629499534213120 (-50).
Definition f_6 : spec_float := S754_finite false 6755399441055744 (-50).
Definition f_50 : spec_float := S754_finite false 7036874417766400 (-47).
Definition f_100 : spec_float := S754_finite false 7036874417766400 (-46).
Definition f_200 : spec_float := S754_finite false 7036874417766400 (-45).
Definition f_100_5 : spec_float := S754_finite false 7072058789855232 (-46).
Definition f_minus_2_5 : spec_float := S754_finite true 5629499534213120 (-51).
Definition f_0_1 : spec_float := S754_finite false 7205759403792794 (-56).
Definition f_0_2 : spec_float := S754_finite false 7205759403792794 (-55).
Definition f_40_1 : spec_float := S754_finite false 5643573283048653 (-47).
Definition f_minus_83_2 : spec_float := S754_finite true 5854679515581645 (-46).


(** The rows of the example of the specification: a row with two capacity
    cells, one of them not numeric, and a row with bad coordinates. *)
Definition spec_sheet : frame :=
  mkFrame ["Coordinates"; "Owner"; "cap1 capacity (ttpa)"; "cap2 capacity (ttpa)"]
          [[Text "40.1, -83.2"; Text "A"; Num f_100; Text "n/a"];
           [Text "bad"; Text "B"; Text "50"; NaN]].

(** A sheet with one capacity column: a row without a number in it, a row
    with capacity 100 and a row with capacity 100.5. *)
Definition mixed_sheet : frame :=
  mkFrame ["Coordinates"; "Owner"; "Steel capacity (ttpa)"]
          [[Text "1, 2"; Text "A"; Text "n/a"];
           [Text "3, 4"; Text "B"; Num f_100];
           [Text "5, 6"; Text "B"; Num f_100_5]].

(** The same with capacities 100 and 200: the slider runs from 100 to
    200. *)
Definition ranged_sheet : frame :=
  mkFrame ["Coordinates"; "Owner"; "Steel capacity (ttpa)"]
          [[Text "1, 2"; Text "A"; Text "n/a"];
           [Text "3, 4"; Text "B"; Num f_100];
           [Text "5, 6"; Text "B"; Num f_200]].

(** Capacities -2.5, 50 and 100.5: none of the two extremes is whole. *)
Definition signed_sheet : frame :=
  mkFrame ["Coordinates"; "Owner"; "Steel capacity (ttpa)"]
          [[Text "1, 2"; Text "A"; Num f_minus_2_5];
           [Text "3, 4"; Text "B"; Text "50"];
           [Text "5, 6"; Text "B"; Num f_100_5]].

(** Two capacity columns: a row that adds 0.1 and 0.2, a row with one
    number and an empty cell, a row with the two infinities. *)
Definition sum_sheet : frame :=
  mkFrame ["Coordinates"; "BOF capacity (ttpa)"; "EAF capacity (ttpa)"]
          [[Text "1, 2"; Num f_0_1; Num f_0_2];
           [Text "3, 4"; Text "50"; NaN];
           [Text "5, 6"; Text "inf"; Text "-inf"]].

(** Capacities 100 and 200, every row with an owner. *)
Definition whole_sheet : frame :=
  mkFrame ["Coordinates"; "Owner"; "Steel capacity (ttpa)"]
          [[Text "3, 4"; Text "B"; Num f_100];
           [Text "5, 6"; Text "B"; Num f_200]].

(** A capacity cell that reads as infinity. *)
Definition unbounded_sheet : frame :=
  mkFrame ["Coordinates"; "Owner"; "Steel capacity (ttpa)"]
          [[Text "3, 4"; Text "B"; Num f_100];
           [Text "5, 6"; Text "B"; Text "inf"]].

(** A sheet that has a column named as a derived one. *)
Definition clash_sheet : frame :=
  mkFrame ["Coordinates"; "Latitude"]
          [[Text "1, 2"; Num f_1]].

(** Two headers that are equal once stripped. *)
Definition twin_sheet : frame :=
  mkFrame ["Coordinates"; "Coordinates "]
          [[Text "1, 2"; Text "3, 4"]].

(** A sheet without any column. *)
Definition empty_sheet : frame := mkFrame [] [].

(** A row whose coordinate cell is empty. *)
Definition blank_sheet : frame :=
  mkFrame ["Coordinates"; "Owner"]
          [[Text "1, 2"; Text "A"];
           [NaN; Text "B"]].

(** A sheet that already has a column named [TotalCapacity]. *)
Definition total_sheet : frame :=
  mkFrame ["Coordinates"; "TotalCapacity"; "Steel capacity (ttpa)"]
          [[Text "1, 2"; Text "old"; Text "50"]].

(** [n] zeros. *)
Fixpoint zeros (n : nat) : string :=
  match n with
  | O => EmptyString
  | S n' => String "0" (zeros n')
  end.

(** A sheet whose only coordinate has a latitude of 310 digits. *)
Definition far_sheet : frame :=
  mkFrame ["Coordinates"]
          [[Text (String "1" (zeros 309) ++ ", 0")%string]].

(** A sheet whose headers carry whitespace. *)
Definition padded_sheet : frame :=
  mkFrame ["  Coordinates "; "Owner  "]
          [[Text "1, 2"; Text "A"]].

(** The tables these sheets load as. *)
Definition spec_loaded : table * meta :=
  (mkTable
     ["Coordinates"; "Owner"; "cap1 capacity (ttpa)"; "cap2 capacity (ttpa)"]
     [mkPlant [Text "40.1, -83.2"; Text "A"; Num f_100; NaN]
              (Some f_40_1) (Some f_minus_83_2) f_100],
   mkMeta (Some "Owner") None sheet_name
          ["cap1 capacity (ttpa)"; "cap2 capacity (ttpa)"]).

Definition plant_without_capacity : plant :=
  mkPlant [Text "1, 2"; Text "A"; NaN] (Some f_1) (Some f_2) S754_nan.

Definition plant_100 : plant :=
  mkPlant [Text "3, 4"; Text "B"; Num f_100] (Some f_3) (Some f_4) f_100.

Definition plant_100_5 : plant :=
  mkPlant [Text "5, 6"; Text "B"; Num f_100_5] (Some f_5) (Some f_6) f_100_5.

Definition plant_200 : plant :=
  mkPlant [Text "5, 6"; Text "B"; Num f_200] (Some f_5) (Some f_6) f_200.

Definition plant_minus_2_5 : plant :=
  mkPlant [Text "1, 2"; Text "A"; Num f_minus_2_5]
          (Some f_1) (Some f_2) f_minus_2_5.

Definition plant_50 : plant :=
  mkPlant [Text "3, 4"; Text "B"; Num f_50] (Some f_3) (Some f_4) f_50.

Definition mixed_meta : meta :=
  mkMeta (Some "Owner") None sheet_name ["Steel capacity (ttpa)"].

Definition mixed_loaded : table * meta :=
  (mkTable ["Coordinates"; "Owner"; "Steel capacity (ttpa)"]
           [plant_without_capacity; plant_100; plant_100_5],
   mixed_meta).

Definition ranged_loaded : table * meta :=
  (mkTable ["Coordinates"; "Owner"; "Steel capacity (ttpa)"]
           [plant_without_capacity; plant_100; plant_200],
   mixed_meta).

Definition whole_loaded : table * meta :=
  (mkTable ["Coordinates"; "Owner"; "Steel capacity (ttpa)"]
           [plant_100; plant_200],
   mixed_meta).

Definition plant_unbounded : plant :=
  mkPlant [Text "5, 6"; Text "B"; Num (S754_infinity false)]
          (Some f_5) (Some f_6) (S754_infinity false).

Definition unbounded_loaded : table * meta :=
  (mkTable ["Coordinates"; "Owner"; "Steel capacity (ttpa)"]
           [plant_100; plant_unbounded],
   mixed_meta).

Definition signed_loaded : table * meta :=
  (mkTable ["Coordinates"; "Owner"; "Steel capacity (ttpa)"]
           [plant_minus_2_5; plant_50; plant_100_5],
   mixed_meta).





Definition total_loaded : table * meta :=
  (mkTable ["Coordinates"; "TotalCapacity"; "Steel capacity (ttpa)"]
           [mkPlant [Text "1, 2"; Num f_50; Num f_50]
                    (Some f_1) (Some f_2) f_50],
   mkMeta None None sheet_name ["Steel capacity (ttpa)"]).

Definition far_plant : plant :=
  mkPlant [Text (String "1" (zeros 309) ++ ", 0")%string]
          (Some (S754_infinity false)) (Some (S754_zero false)) S754_nan.

Definition owner_meta : meta := mkMeta (Some "Owner") None sheet_name [].

Definition padded_loaded : table * meta :=
  (mkTable ["Coordinates"; "Owner"]
           [mkPlant [Text "1, 2"; Text "A"] (Some f_1) (Some f_2) S754_nan],
   owner_meta).

(** A loaded table where one row has no owner. *)
Definition ownerless_plant : plant :=
  mkPlant [Text "3, 4"; NaN] (Some f_3) (Some f_4) S754_nan.

Definition ownerless_table : table :=
  mkTable ["Coordinates"; "Owner"]
          [mkPlant [Text "1, 2"; Text "A"] (Some f_1) (Some f_2) S754_nan;
           ownerless_plant].

(** The reader who keeps owner A only and leaves the slider alone. *)
Definition owner_A_only : Page.widgets :=
  Page.mkWidgets (fun _ _ _ => ["A"]) (fun _ _ _ value => value).

End Examples.
(** * Properties *)

(** ** Text primitives *)

Section StringFacts.

Import PyStr.

Lemma append_nil_r (s : string) : (s ++ "")%string = s.
Proof. induction s; simpl; congruence. Qed.

Lemma append_assoc (s t u : string) :
  ((s ++ t) ++ u)%string = (s ++ t ++ u)%string.
Proof. induction s; simpl; congruence. Qed.

Lemma append_length (s t : string) :
  String.length (s ++ t) = String.length s + String.length t.
Proof. induction s; simpl; auto. Qed.

Lemma startswith_iff (p s : string) :
  startswith p s = true <-> exists v, s = (p ++ v)%string.
Proof.
  revert s; induction p as [|a p IH]; intros s; simpl.
  - split; [intros _; exists s; reflexivity | reflexivity].
  - destruct s as [|b s].
    + split; [discriminate | intros [v H]; discriminate].
    + rewrite andb_true_iff, Ascii.eqb_eq, IH. split.
      * intros [-> [v ->]]. exists v; reflexivity.
      * intros [v H]. injection H as -> ->. split; [reflexivity | eauto].
Qed.

Lemma contains_iff (k s : string) :
  contains k s = true <-> Spec.substring_of k s.
Proof.
  unfold Spec.substring_of.
  induction s as [|c s IH]; simpl.
  - rewrite orb_false_r, startswith_iff. split.
    + intros [v H]. exists EmptyString, v. exact H.
    + intros [u [v H]]. destruct u; simpl in H.
      * eauto.
      * discriminate.
  - rewrite orb_true_iff, startswith_iff, IH. split.
    + intros [[v H] | [u [v H]]].
      * exists EmptyString, v. exact H.
      * exists (String c u), v. simpl. congruence.
    + intros [u [v H]]. destruct u as [|c' u]; simpl in H.
      * left; eauto.
      * right. injection H as _ H. eauto.
Qed.


Lemma contains_nonempty (k s : string) :
  k <> EmptyString -> contains k s = true -> s <> EmptyString.
Proof.
  intros Hk H ->. apply contains_iff in H. destruct H as [u [v H]].
  destruct u; simpl in H; [destruct k; [auto | discriminate] | discriminate].
Qed.

End StringFacts.

(** ** Column resolution *)

Section Resolver.

Import PyStr Dashboard.

Lemma hit_iff (keys : list string) (c : string) :
  existsb (fun k => contains k (lower c)) (map lower keys) = true
  <-> Spec.key_matches keys c.
Proof.
  unfold Spec.key_matches. rewrite existsb_exists. split.
  - intros [k' [Hin H]]. apply in_map_iff in Hin. destruct Hin as [k [<- Hin]].
    exists k. split; [assumption | now apply contains_iff].
  - intros [k [Hin H]]. exists (lower k). split.
    + now apply in_map.
    + now apply contains_iff.
Qed.

Lemma find_first {A : Type} (f : A -> bool) (l : list A) :
  match find f l with
  | Some x =>
      exists pre post, l = pre ++ x :: post /\ f x = true
                       /\ forall y, In y pre -> f y = false
  | None => forall y, In y l -> f y = false
  end.
Proof.
  induction l as [|a l IH]; simpl.
  - intros y [].
  - destruct (f a) eqn:Ha.
    + exists [], l. repeat split; auto. intros y [].
    + destruct (find f l) as [x|].
      * destruct IH as [pre [post [-> [Hx Hpre]]]].
        exists (a :: pre), post. repeat split; auto.
        intros y [<- | Hy]; auto.
      * intros y [<- | Hy]; auto.
Qed.

Lemma pick_first (cols keys : list string) :
  match pick cols keys with
  | Some c =>
      exists pre post, cols = pre ++ c :: post
        /\ Spec.key_matches keys c
        /\ forall c', In c' pre -> ~ Spec.key_matches keys c'
  | None => forall c, In c cols -> ~ Spec.key_matches keys c
  end.
Proof.
  unfold pick.
  set (hit := fun c => existsb (fun k => contains k (lower c)) (map lower keys)).
  assert (Hhit : forall c, hit c = true <-> Spec.key_matches keys c)
    by (intros c; apply hit_iff).
  pose proof (find_first hit cols) as H.
  destruct (find hit cols) as [c|].
  - destruct H as [pre [post [-> [Hc Hpre]]]]. exists pre, post.
    repeat split; [now apply Hhit |].
    intros c' Hin Hm. apply Hhit in Hm. rewrite (Hpre _ Hin) in Hm.
    discriminate.
  - intros c Hin Hm. apply Hhit in Hm. rewrite (H _ Hin) in Hm.
    discriminate.
Qed.

Lemma lower_nonempty (s : string) : lower s <> EmptyString -> s <> EmptyString.
Proof. intros H ->. apply H. reflexivity. Qed.

Lemma pick_truthy (cols : list string) (k : string) (c : string) :
  lower k <> EmptyString -> pick cols [k] = Some c -> c <> EmptyString.
Proof.
  intros Hk H. unfold pick in H. apply find_some in H. destruct H as [_ H].
  simpl in H. rewrite orb_false_r in H.
  apply lower_nonempty. eapply contains_nonempty; eauto.
Qed.

End Resolver.

(** ** The matcher *)

Section Matcher.

Import PyStr Re Spec.

Lemma consumed_append (x rest : string) : consumed (x ++ rest) rest = x.
Proof.
  unfold consumed. rewrite append_length, Nat.add_sub.
  induction x as [|c x IH]; simpl.
  - destruct rest; reflexivity.
  - f_equal. exact IH.
Qed.

Lemma star_exec_sound {R : Type} (p : ascii -> bool) (s : string)
      (k : string -> option R) (res : R) :
  star_exec p s k = Some res ->
  exists w rest, s = (w ++ rest)%string /\ all_chars p w = true
                 /\ k rest = Some res.
Proof.
  induction s as [|c s IH]; simpl; intros H.
  - exists EmptyString, EmptyString. auto.
  - destruct (p c) eqn:Hc.
    + destruct (star_exec p s k) as [r|] eqn:Hs.
      * injection H as ->. destruct (IH eq_refl) as [w [rest [-> [Hw Hk]]]].
        exists (String c w), rest. simpl. rewrite Hc, Hw. auto.
      * exists EmptyString, (String c s). auto.
    + exists EmptyString, (String c s). auto.
Qed.

(** Whatever the matcher accepts belongs to the language of the pattern. *)
Lemma exec_sound (r : regex) :
  forall s m k res,
    exec r s m k = Some res ->
    exists x rest m',
      s = (x ++ rest)%string /\ matches r x rest m m' /\ k rest m' = Some res.
Proof.
  induction r as [c | r1 IH1 r2 IH2 | r1 IH1 | p | p | i r1 IH1 | ];
    intros s m k res H; simpl in H.
  - destruct s as [|a s]; [discriminate |].
    destruct (Ascii.eqb a c) eqn:Hac; [| discriminate].
    apply Ascii.eqb_eq in Hac. subst a.
    exists (String c EmptyString), s, m. repeat split; auto. constructor.
  - apply IH1 in H. destruct H as [x1 [rest1 [m1 [-> [H1 H]]]]].
    apply IH2 in H. destruct H as [x2 [rest [m2 [-> [H2 H]]]]].
    exists (x1 ++ x2)%string, rest, m2. repeat split; auto.
    + symmetry. apply append_assoc.
    + econstructor; eauto.
  - destruct (exec r1 s m k) as [r|] eqn:Hr.
    + injection H as ->. apply IH1 in Hr.
      destruct Hr as [x [rest [m' [-> [H1 H]]]]].
      exists x, rest, m'. repeat split; auto. now apply M_opt_some.
    + exists EmptyString, s, m. repeat split; auto. apply M_opt_none.
  - apply star_exec_sound in H. destruct H as [w [rest [-> [Hw H]]]].
    exists w, rest, m. repeat split; auto. now constructor.
  - destruct s as [|a s]; [discriminate |].
    destruct (p a) eqn:Ha; [| discriminate].
    apply star_exec_sound in H. destruct H as [w [rest [-> [Hw H]]]].
    exists (String a w), rest, m. repeat split; auto.
    constructor; [discriminate | simpl; now rewrite Ha, Hw].
  - apply IH1 in H. destruct H as [x [rest [m' [-> [H1 H]]]]].
    rewrite consumed_append in H.
    exists x, rest, ((i, x) :: m'). repeat split; auto. now constructor.
  - destruct s as [|a [|b s]].
    + exists EmptyString, EmptyString, m. repeat split; auto.
      constructor. now left.
    + destruct (Ascii.eqb a "010") eqn:Ha; [| discriminate].
      apply Ascii.eqb_eq in Ha. subst a.
      exists EmptyString, (String "010" EmptyString), m. repeat split; auto.
      constructor. now right.
    + discriminate.
Qed.

Lemma star_exec_run {R : Type} (p : ascii -> bool) (w rest : string)
      (k : string -> option R) (res : R) :
  all_chars p w = true -> head_not p rest -> k rest = Some res ->
  star_exec p (w ++ rest) k = Some res.
Proof.
  intros Hw Hrest Hk. induction w as [|c w IH]; simpl in *.
  - destruct rest as [|c rest]; simpl in *; [assumption |].
    now rewrite Hrest.
  - apply andb_true_iff in Hw. destruct Hw as [Hc Hw].
    rewrite Hc, (IH Hw). reflexivity.
Qed.

Lemma exec_star_run (p : ascii -> bool) (w rest : string) m k res :
  all_chars p w = true -> head_not p rest -> k rest m = Some res ->
  exec (Star p) (w ++ rest) m k = Some res.
Proof. intros. simpl. now apply star_exec_run. Qed.

Lemma exec_seq (r1 r2 : regex) s m k :
  exec (Seq r1 r2) s m k = exec r1 s m (fun s1 m1 => exec r2 s1 m1 k).
Proof. reflexivity. Qed.

Lemma exec_group (i : nat) (r : regex) s m k :
  exec (Group i r) s m k
  = exec r s m (fun s1 m1 => k s1 ((i, consumed s s1) :: m1)).
Proof. reflexivity. Qed.

Lemma exec_opt_taken (r : regex) s m k res :
  exec r s m k = Some res -> exec (Opt r) s m k = Some res.
Proof. intros H. simpl. now rewrite H. Qed.

Lemma exec_opt_skipped (r : regex) s m k :
  exec r s m k = None -> exec (Opt r) s m k = k s m.
Proof. intros H. simpl. now rewrite H. Qed.

Lemma exec_lit_hit (c : ascii) s m k :
  exec (Lit c) (String c s) m k = k s m.
Proof. simpl. now rewrite Ascii.eqb_refl. Qed.

Lemma exec_lit_miss (c : ascii) s m k :
  head_not (fun a => Ascii.eqb a c) s -> exec (Lit c) s m k = None.
Proof. destruct s as [|a s]; simpl; intros H; [| rewrite H]; reflexivity. Qed.

Lemma exec_plus_run (p : ascii -> bool) (w rest : string) m k res :
  w <> EmptyString -> all_chars p w = true -> head_not p rest ->
  k rest m = Some res ->
  exec (Plus p) (w ++ rest) m k = Some res.
Proof.
  intros Hne Hw Hrest Hk. destruct w as [|c w]; [congruence |].
  simpl in *. apply andb_true_iff in Hw. destruct Hw as [Hc Hw].
  rewrite Hc. now apply star_exec_run.
Qed.

End Matcher.

(** ** The coordinate pattern *)

Section CoordinatePattern.

Import PyStr Re Spec Dashboard.

Ltac by_cases_on_char c :=
  destruct c as [[] [] [] [] [] [] [] []]; simpl; intros;
  try reflexivity; try discriminate.

Lemma digit_not_space (c : ascii) : is_digit c = true -> is_space c = false.
Proof. by_cases_on_char c. Qed.

Lemma digit_not_minus (c : ascii) : is_digit c = true -> Ascii.eqb c "-" = false.
Proof. by_cases_on_char c. Qed.

Lemma digit_not_dot (c : ascii) : is_digit c = true -> is_dot c = false.
Proof. by_cases_on_char c. Qed.

Lemma space_not_digit (c : ascii) : is_space c = true -> is_digit c = false.
Proof. by_cases_on_char c. Qed.

Lemma space_not_dot (c : ascii) : is_space c = true -> is_dot c = false.
Proof. by_cases_on_char c. Qed.

Lemma head_not_append (p q : ascii -> bool) (w rest : string) :
  (forall c, q c = true -> p c = false) ->
  all_chars q w = true -> head_not p rest -> head_not p (w ++ rest).
Proof.
  intros Hpq Hw Hrest. destruct w as [|c w]; simpl in *; [assumption |].
  apply andb_true_iff in Hw. now apply Hpq.
Qed.

Lemma decimal_head (a rest : string) :
  decimal a -> head_not is_space (a ++ rest).
Proof.
  intros [sign [ip [frac [-> [Hs [[Hne Hip] _]]]]]].
  destruct Hs as [-> | ->]; simpl; [| reflexivity].
  destruct ip as [|c ip]; [congruence |]. simpl in *.
  apply andb_true_iff in Hip. now apply digit_not_space.
Qed.

(** The body of a number group reads a decimal greedily. *)
Lemma exec_number_body (a rest : string) m K res :
  decimal a -> head_not is_digit rest -> head_not is_dot rest ->
  K rest m = Some res ->
  exec (Seq (Opt (Lit "-"))
            (Seq (Plus is_digit) (Opt (Seq (Lit ".") (Plus is_digit)))))
       (a ++ rest) m K = Some res.
Proof.
  intros [sign [ip [frac [-> [Hs [[Hne Hip] Hf]]]]]] Hd Hp HK.
  assert (Hfrac :
    exec (Opt (Seq (Lit ".") (Plus is_digit))) (frac ++ rest) m K = Some res).
  { destruct Hf as [-> | [fp [-> [Hfne Hfp]]]].
    - rewrite exec_opt_skipped; [assumption |].
      rewrite exec_seq. now apply exec_lit_miss.
    - apply exec_opt_taken. rewrite exec_seq.
      change (String "." fp ++ rest)%string with (String "." (fp ++ rest)).
      rewrite exec_lit_hit. now apply exec_plus_run. }
  assert (Hbody :
    exec (Seq (Plus is_digit) (Opt (Seq (Lit ".") (Plus is_digit))))
         (ip ++ frac ++ rest) m K = Some res).
  { rewrite exec_seq. apply exec_plus_run; auto.
    destruct Hf as [-> | [fp [-> _]]]; simpl; auto. }
  rewrite !append_assoc, exec_seq.
  destruct Hs as [-> | ->].
  - rewrite exec_opt_skipped; [exact Hbody |].
    apply exec_lit_miss.
    destruct ip as [|c ip]; [congruence |]. simpl in *.
    apply andb_true_iff in Hip. now apply digit_not_minus.
  - apply exec_opt_taken.
    change ("-" ++ ip ++ frac ++ rest)%string
      with (String "-" (ip ++ frac ++ rest)).
    now rewrite exec_lit_hit.
Qed.

Lemma exec_number_run (i : nat) (a rest : string) m k res :
  decimal a -> head_not is_digit rest -> head_not is_dot rest ->
  k rest ((i, a) :: m) = Some res ->
  exec (number i) (a ++ rest) m k = Some res.
Proof.
  intros Ha Hd Hp Hk. unfold number. rewrite exec_group.
  apply exec_number_body; auto. now rewrite consumed_append.
Qed.

(** Completeness: a text of the stated shape is matched, and the groups
    are its two numbers. *)
Lemma pat_complete (v a b : string) :
  coordinate_text v a b -> re_match pat v = Some [(2, b); (1, a)].
Proof.
  intros [w1 [w2 [w3 [w4 [H1 [H2 [H3 [H4 [Ha [Hb ->]]]]]]]]]].
  unfold re_match, pat.
  rewrite exec_seq. apply exec_star_run; [assumption | now apply decimal_head |].
  rewrite exec_seq. apply exec_number_run; [assumption | | |].
  { apply (head_not_append _ is_space); auto using space_not_digit. reflexivity. }
  { apply (head_not_append _ is_space); auto using space_not_dot. reflexivity. }
  rewrite exec_seq. apply exec_star_run; [assumption | reflexivity |].
  rewrite exec_seq.
  change ("," ++ w3 ++ b ++ w4)%string with (String "," (w3 ++ b ++ w4)).
  rewrite exec_lit_hit.
  rewrite exec_seq. apply exec_star_run; [assumption | now apply decimal_head |].
  rewrite exec_seq.
  rewrite <- (append_nil_r w4).
  apply exec_number_run; [assumption | | |].
  { apply (head_not_append _ is_space); auto using space_not_digit. exact I. }
  { apply (head_not_append _ is_space); auto using space_not_dot. exact I. }
  rewrite exec_seq. apply exec_star_run; [assumption | exact I |].
  reflexivity.
Qed.

Ltac invert_matches :=
  repeat match goal with
  | H : matches (Seq _ _) _ _ _ _ |- _ => inversion H; subst; clear H
  | H : matches (Group _ _) _ _ _ _ |- _ => inversion H; subst; clear H
  | H : matches (Lit _) _ _ _ _ |- _ => inversion H; subst; clear H
  | H : matches (Star _) _ _ _ _ |- _ => inversion H; subst; clear H
  | H : matches (Plus _) _ _ _ _ |- _ => inversion H; subst; clear H
  | H : matches Eos _ _ _ _ |- _ => inversion H; subst; clear H
  end.

Lemma matches_opt_lit_inv (c : ascii) (x rest : string) m m' :
  matches (Opt (Lit c)) x rest m m' ->
  (x = EmptyString \/ x = String c EmptyString) /\ m' = m.
Proof. intros H. inversion H; subst; [invert_matches |]; auto. Qed.

Lemma matches_opt_frac_inv (x rest : string) m m' :
  matches (Opt (Seq (Lit ".") (Plus is_digit))) x rest m m' ->
  (x = EmptyString \/ exists fp, x = String "." fp /\ digits fp) /\ m' = m.
Proof.
  intros H. inversion H; subst; [invert_matches |]; split; auto.
  right. eexists. split; [reflexivity | split; assumption].
Qed.

Lemma matches_number_inv (i : nat) (x rest : string) m m' :
  matches (number i) x rest m m' -> decimal x /\ m' = (i, x) :: m.
Proof.
  unfold number. intros H. invert_matches.
  repeat match goal with
  | H : matches (Opt (Lit _)) _ _ _ _ |- _ =>
      apply matches_opt_lit_inv in H; destruct H as [? ?]; subst
  | H : matches (Opt (Seq _ _)) _ _ _ _ |- _ =>
      apply matches_opt_frac_inv in H; destruct H as [? ?]; subst
  end.
  split; [| reflexivity].
  eexists _, _, _. repeat split; eauto.
Qed.

(** Soundness: a match of the pattern is a text of the stated shape. *)
Lemma pat_sound (v : string) (res : captures) :
  re_match pat v = Some res ->
  exists a b, coordinate_text v a b /\ res = [(2, b); (1, a)].
Proof.
  unfold re_match. intros H. apply exec_sound in H.
  destruct H as [x [rest [m' [-> [H Hres]]]]]. injection Hres as <-.
  unfold pat in H.
  repeat match goal with
  | H : matches (Seq _ _) _ _ _ _ |- _ => inversion H; subst; clear H
  | H : matches (Lit _) _ _ _ _ |- _ => inversion H; subst; clear H
  | H : matches (Star _) _ _ _ _ |- _ => inversion H; subst; clear H
  | H : matches Eos _ _ _ _ |- _ => inversion H; subst; clear H
  | H : matches (number _) _ _ _ _ |- _ =>
      apply matches_number_inv in H; destruct H as [? ?]; subst
  end.
  match goal with
  | Ha : decimal ?a, Hb : decimal ?b |- _ => exists a, b
  end.
  split; [| reflexivity].
  match goal with
  | |- coordinate_text ((?w1 ++ ?a ++ ?w2 ++ _ ++ ?w3 ++ ?b ++ ?w4 ++ _) ++ _)%string _ _ =>
      exists w1, w2, w3, (w4 ++ rest)%string
  end.
  repeat split; auto.
  - unfold blank.
    match goal with
    | H : rest = _ \/ rest = _ |- _ => destruct H as [-> | ->]
    end.
    + now rewrite append_nil_r.
    + match goal with
      | H : all_chars is_space ?w = true |- all_chars is_space (?w ++ _) = true =>
          revert H; clear; induction w as [|c w IH]; simpl; intros H;
          [reflexivity |];
          apply andb_true_iff in H; destruct H as [-> H]; simpl; auto
      end.
  - simpl. rewrite !append_assoc. simpl. rewrite !append_assoc. reflexivity.
Qed.

End CoordinatePattern.

(** ** Conversion to binary64 *)

Section FloatFacts.

Import PyStr PyFloat Spec.

Lemma shr_1_nonneg (mrs : shr_record) :
  (0 <= shr_m mrs)%Z -> (0 <= shr_m (shr_1 mrs))%Z.
Proof.
  destruct mrs as [m r s]. simpl.
  destruct m as [|p|p]; simpl; try lia; destruct p; simpl; lia.
Qed.

Lemma iter_shr_1_nonneg (p : positive) :
  forall mrs, (0 <= shr_m mrs)%Z -> (0 <= shr_m (iter_pos shr_1 p mrs))%Z.
Proof.
  induction p as [p IH | p IH |]; intros mrs H; simpl.
  - apply IH, IH. now apply shr_1_nonneg.
  - now apply IH, IH.
  - now apply shr_1_nonneg.
Qed.

Lemma shr_fexp_nonneg (m e : Z) (l : location) :
  (0 <= m)%Z -> (0 <= shr_m (fst (shr_fexp prec emax m e l)))%Z.
Proof.
  intros H. unfold shr_fexp, shr.
  assert (H0 : (0 <= shr_m (shr_record_of_loc m l))%Z)
    by (destruct l as [|[]]; simpl; assumption).
  destruct (fexp prec emax (Zdigits2 m + e) - e)%Z; simpl; auto.
  now apply iter_shr_1_nonneg.
Qed.

Lemma round_nearest_even_nonneg (m : Z) (l : location) :
  (0 <= m)%Z -> (0 <= round_nearest_even m l)%Z.
Proof.
  intros H. destruct l as [|[]]; simpl; try lia.
  destruct (Z.even m); lia.
Qed.

(** Rounding a non-negative mantissa never produces NaN. *)
Lemma binary_round_aux_not_nan (sx : bool) (mx ex : Z) (lx : location) :
  (0 <= mx)%Z -> is_nan (binary_round_aux prec emax sx mx ex lx) = false.
Proof.
  intros H. unfold binary_round_aux.
  pose proof (shr_fexp_nonneg mx ex lx H) as H1.
  destruct (shr_fexp prec emax mx ex lx) as [mrs' e']. simpl in H1.
  pose proof (shr_fexp_nonneg
                (round_nearest_even (shr_m mrs') (loc_of_shr_record mrs'))
                e' loc_Exact (round_nearest_even_nonneg _ _ H1)) as H2.
  destruct (shr_fexp prec emax _ e' loc_Exact) as [mrs'' e'']. simpl in H2.
  destruct (shr_m mrs'') as [|p|p]; [reflexivity | | lia].
  destruct (e'' <=? emax - prec)%Z; reflexivity.
Qed.

Lemma of_decimal_not_nan (neg : bool) (n : Z) (k : nat) :
  is_nan (of_decimal neg n k) = false.
Proof.
  unfold of_decimal. destruct n as [|m|m]; try reflexivity.
  unfold SFdiv, SFdiv_core_binary.
  set (m' := match (0 - 0 - _)%Z with Z0 => _ | Zpos _ => _ | Zneg _ => _ end).
  assert (Hm' : (0 <= m')%Z).
  { subst m'. destruct (0 - 0 - _)%Z; try lia. apply Z.shiftl_nonneg. lia. }
  pose proof (Z.div_pos m' (Zpos (pow10 k)) Hm' eq_refl) as Hq.
  unfold Z.div in Hq.
  destruct (Z.div_eucl m' (Zpos (pow10 k))) as [q r].
  now apply binary_round_aux_not_nan.
Qed.

Lemma strip_sign_digit (c : ascii) (s : string) :
  is_digit c = true -> strip_sign (String c s) = (false, String c s).
Proof.
  destruct c as [[] [] [] [] [] [] [] []]; simpl; intros;
    try reflexivity; discriminate.
Qed.

Lemma split_dot_digits (ip rest : string) :
  all_chars is_digit ip = true ->
  split_dot (ip ++ rest)
  = ((ip ++ fst (split_dot rest))%string, snd (split_dot rest)).
Proof.
  induction ip as [|c ip IH]; simpl; intros H.
  - now destruct (split_dot rest).
  - apply andb_true_iff in H. destruct H as [Hc H].
    assert (Hd : Ascii.eqb c "." = false).
    { revert Hc. destruct c as [[] [] [] [] [] [] [] []]; simpl; intros;
        try reflexivity; discriminate. }
    rewrite Hd, (IH H). reflexivity.
Qed.

(** [float] reads every decimal, and never as NaN. *)
Lemma py_float_decimal (a : string) :
  decimal a -> exists x, py_float a = Some x /\ is_nan x = false.
Proof.
  intros [sign [ip [frac [-> [Hs [[Hne Hip] Hf]]]]]].
  assert (Hbody : exists x,
    (let (ip', fp) := split_dot (ip ++ frac) in
     let fr := match fp with Some f => f | None => EmptyString end in
     let fp_ok := match fp with Some f => nonempty f | None => true end in
     if nonempty ip' && all_chars is_digit ip' && fp_ok && all_chars is_digit fr
     then Some (of_decimal (match sign with EmptyString => false | _ => true end)
                           (digits_val 0 (ip' ++ fr)%string) (String.length fr))
     else None) = Some x /\ is_nan x = false).
  { rewrite (split_dot_digits ip frac Hip).
    assert (Hn : nonempty ip = true) by (destruct ip; [congruence | reflexivity]).
    destruct Hf as [-> | [fp [-> [Hfne Hfp]]]]; simpl;
      rewrite append_nil_r, Hn, Hip; simpl.
    - eexists. split; [reflexivity | apply of_decimal_not_nan].
    - assert (Hfn : nonempty fp = true)
        by (destruct fp; [congruence | reflexivity]).
      rewrite Hfn, Hfp. simpl.
      eexists. split; [reflexivity | apply of_decimal_not_nan]. }
  unfold py_float.
  destruct Hs as [-> | ->].
  - destruct ip as [|c ip]; [congruence |].
    simpl in Hip. apply andb_true_iff in Hip. destruct Hip as [Hc Hip].
    change ("" ++ String c ip ++ frac)%string with (String c (ip ++ frac)).
    rewrite (strip_sign_digit c _ Hc). exact Hbody.
  - exact Hbody.
Qed.

End FloatFacts.

(** ** The coordinate parser *)

Section Parser.

Import PyStr PyFloat Re Spec Dashboard.

(** One turn of the loop: either the text has the stated shape and both
    conversions succeed, or the pattern does not match. *)
Lemma parse_step (v : string) :
  (exists m a b x y,
      re_match pat v = Some m
      /\ float_group m 1 = inr x /\ float_group m 2 = inr y
      /\ coordinate_text v a b
      /\ (forall a' b', coordinate_text v a' b' -> a' = a /\ b' = b)
      /\ py_float a = Some x /\ py_float b = Some y
      /\ is_nan x = false /\ is_nan y = false)
  \/ (re_match pat v = None /\ forall a b, ~ coordinate_text v a b).
Proof.
  destruct (re_match pat v) as [m|] eqn:Hm.
  - left. destruct (pat_sound v m Hm) as [a [b [Hab ->]]].
    pose proof Hab as [_ [_ [_ [_ [_ [_ [_ [_ [Ha [Hb _]]]]]]]]]].
    destruct (py_float_decimal a Ha) as [x [Hx Hxn]].
    destruct (py_float_decimal b Hb) as [y [Hy Hyn]].
    exists [(2, b); (1, a)], a, b, x, y.
    repeat split; auto.
    + unfold float_group. simpl. now rewrite Hx.
    + unfold float_group. simpl. now rewrite Hy.
    + apply pat_complete in H. congruence.
    + apply pat_complete in H. congruence.
  - right. split; [reflexivity |].
    intros a b Hab. apply pat_complete in Hab. congruence.
Qed.

Lemma row_entries_spec (v : string) :
  parsed_row v (fst (row_entries v)) (snd (row_entries v)).
Proof.
  unfold parsed_row, row_entries.
  destruct (parse_step v)
    as [[m [a [b [x [y [-> [-> [-> [Hab [Hu [Hx [Hy _]]]]]]]]]]]] | [-> Hno]].
  - left. exists a, b, x, y. simpl. auto 10.
  - right. simpl. auto.
Qed.

Lemma row_entries_isna (v : string) :
  isna (fst (row_entries v)) = isna (snd (row_entries v))
  /\ (isna (fst (row_entries v)) = false <-> re_match pat v <> None).
Proof.
  unfold row_entries.
  destruct (parse_step v)
    as [[m [a [b [x [y [-> [-> [-> [_ [_ [_ [_ [Hx Hy]]]]]]]]]]]]] | [-> _]];
    simpl.
  - rewrite Hx, Hy. split; [reflexivity |]. split; congruence.
  - split; [reflexivity |]. split; congruence.
Qed.

(** The loop raises [TypeError] when a value is no text, and nothing
    otherwise; it then appends, in order, the entries of each value. *)
Lemma parse_loop_eq (vs : list (option string)) :
  forall lat lon,
    parse_loop vs lat lon
    = if forallb is_text vs
      then inr (lat ++ map (fun t => fst (entries t)) vs,
                lon ++ map (fun t => snd (entries t)) vs)
      else inl TypeError.
Proof.
  induction vs as [|[v|] vs IH]; intros lat lon; simpl.
  - now rewrite !app_nil_r.
  - unfold row_entries.
    destruct (parse_step v)
      as [[m [a [b [x [y [-> [-> [-> _]]]]]]]] | [-> _]]; simpl;
      rewrite IH; destruct (forallb is_text vs);
      rewrite <- ?app_assoc; reflexivity.
  - reflexivity.
Qed.

End Parser.

Section ParserClaim.

Import PyStr PyFloat Re Spec Dashboard.

Variable lib : pandas.

Lemma notna_cell_false (c : cell) : notna_cell c = false <-> c = NaN.
Proof.
  destruct c as [s | x]; simpl.
  - split; discriminate.
  - unfold notna. destruct x; simpl; split; congruence.
Qed.

Lemma notna_cell_true (c : cell) : notna_cell c = true <-> c <> NaN.
Proof.
  rewrite <- notna_cell_false. destruct (notna_cell c); split; congruence.
Qed.

(** A value stays missing under [astype(str)] exactly when the library
    keeps missing values and the cell is empty. *)
Lemma astype_str_none (c : cell) :
  astype_str lib c = None <-> keeps_missing lib = true /\ c = NaN.
Proof.
  rewrite <- notna_cell_false. unfold astype_str.
  destruct (notna_cell c), (keeps_missing lib); split;
    intros H; try discriminate; try (destruct H; discriminate); auto.
Qed.

Lemma forallb_is_text (series : list cell) :
  forallb is_text (map (astype_str lib) series) = true
  <-> forall c, In c series -> astype_str lib c <> None.
Proof.
  rewrite forallb_forall. split.
  - intros H c Hc He. specialize (H _ (in_map _ _ _ Hc)).
    rewrite He in H. discriminate.
  - intros H t Ht. apply in_map_iff in Ht. destruct Ht as [c [<- Hc]].
    specialize (H c Hc). now destruct (astype_str lib c).
Qed.

Lemma parse_coordinates_raises (series : list cell) :
  (exists c, In c series /\ astype_str lib c = None) ->
  parse_coordinates lib series = inl TypeError.
Proof.
  intros [c [Hc He]]. unfold parse_coordinates. rewrite parse_loop_eq.
  destruct (forallb is_text _) eqn:Hall; [| reflexivity].
  exfalso. exact (proj1 (forallb_is_text series) Hall c Hc He).
Qed.

Lemma parse_coordinates_returns (series : list cell) :
  (forall c, In c series -> astype_str lib c <> None) ->
  parse_coordinates lib series
  = inr (map (fun c => fst (entries (astype_str lib c))) series,
         map (fun c => snd (entries (astype_str lib c))) series).
Proof.
  intros H. apply forallb_is_text in H.
  unfold parse_coordinates. rewrite parse_loop_eq, H, !map_map. reflexivity.
Qed.

(** C2. On a series of texts [parse_coordinates] never raises (a missing
    value that [astype(str)] leaves missing is no text, and makes it raise
    [TypeError]); its two outputs have one entry per input value, in input
    order; the entries for a text are the two binary64 numbers read by
    [float] exactly when the whole text is [number , number] with optional
    whitespace around the numbers, and are both missing for any other
    text. *)
Theorem parse_coordinates_spec (series : list cell) :
  (forall v, astype_str lib (Text v) = Some v)
  /\ (forall c, astype_str lib c = None
                <-> keeps_missing lib = true /\ c = NaN)
  /\ ((exists c, In c series /\ astype_str lib c = None) ->
      parse_coordinates lib series = inl TypeError)
  /\ ((forall c, In c series -> astype_str lib c <> None) ->
      exists lat lon,
        parse_coordinates lib series = inr (lat, lon)
        /\ length lat = length series /\ length lon = length series
        /\ forall i c, nth_error series i = Some c ->
             exists v la lo,
               astype_str lib c = Some v
               /\ nth_error lat i = Some la /\ nth_error lon i = Some lo
               /\ parsed_row v la lo).
Proof.
  split; [reflexivity |].
  split; [exact astype_str_none |].
  split; [exact (parse_coordinates_raises series) |].
  intros Hall. rewrite (parse_coordinates_returns series Hall).
  eexists _, _. split; [reflexivity |].
  rewrite !length_map. repeat split.
  intros i c Hc.
  destruct (astype_str lib c) as [v|] eqn:Hv.
  - exists v, (fst (row_entries v)), (snd (row_entries v)).
    rewrite !nth_error_map, Hc. simpl. rewrite Hv. simpl.
    repeat split. apply row_entries_spec.
  - exfalso. apply nth_error_In in Hc. now apply (Hall c Hc).
Qed.

End ParserClaim.

(** ** The loader *)

Section Loader.

Import PyStr PyFloat Re Spec Dashboard.

Variable lib : pandas.

Lemma mem_iff (c : string) (l : list string) : mem c l = true <-> In c l.
Proof.
  unfold mem. rewrite existsb_exists. split.
  - intros [x [Hx H]]. apply String.eqb_eq in H. now subst.
  - intros H. exists c. split; [assumption | apply String.eqb_refl].
Qed.

Lemma distinct_iff (l : list string) : distinct l = true <-> NoDup l.
Proof.
  induction l as [|c l IH]; simpl.
  - split; [constructor | reflexivity].
  - rewrite andb_true_iff, negb_true_iff, IH. split.
    + intros [Hc Hl]. constructor; [| assumption].
      intros Hin. apply mem_iff in Hin. congruence.
    + intros H. inversion H as [|c' l' Hc Hl]; subst. split; [| assumption].
      destruct (mem c l) eqn:Hm; [| reflexivity].
      apply mem_iff in Hm. contradiction.
Qed.

Lemma NoDup_app_l {A : Type} (l l' : list A) : NoDup (l ++ l') -> NoDup l.
Proof.
  induction l as [|a l IH]; simpl; intros H; [constructor |].
  inversion H as [|a' l'' Ha Hl]; subst. constructor.
  - intros Hin. apply Ha. apply in_or_app. now left.
  - now apply IH.
Qed.

(** A loop over [df[c]] goes through the cells of the column when the
    labels are distinct. *)
Lemma getitem_column (cols : list string) (rows : list (list cell))
      (c : string) :
  NoDup cols -> getitem cols rows c = column cols rows c.
Proof.
  intros H. unfold getitem.
  pose proof (proj1 (NoDup_count_occ string_dec cols) H c) as Hle.
  destruct (1 <? count_occ string_dec cols c) eqn:Hk; [| reflexivity].
  apply Nat.ltb_lt in Hk. lia.
Qed.

Lemma forallb_repeat {A : Type} (f : A -> bool) (a : A) (n : nat) :
  f a = true -> forallb f (repeat a n) = true.
Proof. intros H. induction n; simpl; [reflexivity | now rewrite H]. Qed.

(** The values of [df[c].astype(str)] are all texts unless the library
    keeps missing values, one column only carries the label and one of its
    cells is empty. *)
Lemma unreadable_iff (cols : list string) (rows : list (list cell))
      (c : string) :
  forallb is_text (map (astype_str lib) (getitem cols rows c)) = false
  <-> keeps_missing lib = true
      /\ count_occ string_dec cols c <= 1
      /\ exists r, In r rows /\ get cols r c = NaN.
Proof.
  unfold getitem. destruct (1 <? count_occ string_dec cols c) eqn:Hk.
  - apply Nat.ltb_lt in Hk. rewrite map_repeat, forallb_repeat by reflexivity.
    split; [discriminate | intros [_ [H _]]; lia].
  - apply Nat.ltb_ge in Hk. split.
    + intros H.
      destruct (forallb is_text (map (astype_str lib) (column cols rows c)))
        eqn:Hall; [discriminate |].
      assert (Hex : exists v, In v (column cols rows c)
                              /\ astype_str lib v = None).
      { clear H. induction (column cols rows c) as [|v l IH];
          [discriminate |].
        simpl in Hall. destruct (astype_str lib v) eqn:Hv.
        - destruct (IH Hall) as [v' [Hin Hn]]. exists v'. split; [now right | auto].
        - exists v. split; [now left | auto]. }
      destruct Hex as [v [Hin Hn]]. apply astype_str_none in Hn.
      destruct Hn as [Hkeep ->]. unfold column in Hin.
      apply in_map_iff in Hin. destruct Hin as [r [Hr Hin]]. eauto.
    + intros [Hkeep [_ [r [Hr Hn]]]].
      destruct (forallb is_text (map (astype_str lib) (column cols rows c)))
        eqn:Hall; [| reflexivity].
      exfalso. apply (proj1 (forallb_is_text lib _) Hall (get cols r c)).
      * unfold column. apply in_map_iff. eauto.
      * apply astype_str_none. auto.
Qed.

Lemma entries_isna (t : option string) :
  isna (fst (entries t)) = isna (snd (entries t)).
Proof. destruct t as [v|]; [apply row_entries_isna | reflexivity]. Qed.

Lemma join_entries (cols : list string) (coord : string)
      (rows : list (list cell)) :
  join rows
       (map (fun t => fst (entries t))
            (map (astype_str lib) (column cols rows coord)))
       (map (fun t => snd (entries t))
            (map (astype_str lib) (column cols rows coord)))
  = map (joined lib cols coord) rows.
Proof.
  unfold column. induction rows as [|r rows IH]; simpl; [reflexivity |].
  now rewrite IH.
Qed.

Lemma dropna_joined (cols : list string) (coord : string)
      (rows : list (list cell)) :
  dropna (map (joined lib cols coord) rows)
  = map (joined lib cols coord)
        (filter (has_coordinates lib cols coord) rows).
Proof.
  unfold dropna. induction rows as [|r rows IH]; simpl; [reflexivity |].
  unfold has_coordinates at 1.
  rewrite <- entries_isna.
  destruct (coordinate_of lib cols coord r) as [v|] eqn:Hv; simpl.
  - destruct (row_entries_isna v) as [_ Hiff].
    destruct (re_match pat v) eqn:Hm.
    + assert (Hna : isna (fst (row_entries v)) = false)
        by (apply Hiff; congruence).
      rewrite Hna. simpl. unfold joined at 1. rewrite Hv. simpl.
      rewrite IH. unfold joined at 2. now rewrite Hv.
    + destruct (isna (fst (row_entries v))) eqn:Hna.
      * simpl. exact IH.
      * exfalso. apply Hiff; reflexivity.
  - exact IH.
Qed.

(** What [load_data] computes once the file, the sheet and the coordinate
    column are found. *)
Lemma load_data_found (fs : filesystem) (xls : workbook) (coord : string) :
  fs path = Some xls ->
  mem sheet_name (map fst xls) = true ->
  f_columns (read_excel xls sheet_name) <> [] ->
  pick (map strip (f_columns (read_excel xls sheet_name))) ["coordinates"]
  = Some coord ->
  let raw := read_excel xls sheet_name in
  let cols := map strip (f_columns raw) in
  let all_cols := cols ++ ["Latitude"; "Longitude"] in
  let caps := filter is_cap_col all_cols in
  load_data lib fs
  = if negb (forallb is_text
               (map (astype_str lib) (getitem cols (f_rows raw) coord)))
    then inl TypeError
    else if negb (distinct all_cols) then inl ValueError
    else inr (mkTable cols
                (map (with_total_capacity lib cols caps)
                     (map (joined lib cols coord)
                          (filter (has_coordinates lib cols coord)
                                  (f_rows raw)))),
              mkMeta (pick all_cols ["owner"])
                     (py_or (pick all_cols ["country/area"])
                            (pick all_cols ["country"; "region"]))
                     sheet_name caps).
Proof.
  intros Hfs Hmem Hne Hpick. unfold load_data.
  rewrite Hfs, Hmem. cbn [negb].
  destruct (f_columns (read_excel xls sheet_name)) as [|c0 cs] eqn:Hcols;
    [congruence |].
  rewrite Hpick. unfold parse_coordinates. rewrite parse_loop_eq.
  destruct (forallb is_text _) eqn:Hall; [| reflexivity].
  cbn [negb bind app].
  destruct (distinct _) eqn:Hd; [| reflexivity]. cbn [negb].
  apply distinct_iff, NoDup_app_l in Hd.
  rewrite (getitem_column _ (f_rows (read_excel xls sheet_name)) coord Hd).
  rewrite join_entries, dropna_joined. reflexivity.
Qed.

(** The ways in which [load_data] raises, in the order of the checks,
    and what it returns otherwise. *)
Lemma load_data_cases (fs : filesystem) :
  (fs path = None
   /\ load_data lib fs
      = inl (FileNotFoundError
               [Txt " 'dataset_globalsteeltracker.xlsx' not found in this folder."]))
  \/ (exists xls,
        fs path = Some xls /\ ~ In sheet_name (map fst xls)
        /\ load_data lib fs
           = inl (KeyError [Txt " Sheet '"; Txt sheet_name;
                            Txt "' not found. Available: ";
                            ReprList (map fst xls)]))
  \/ (exists xls,
        fs path = Some xls /\ In sheet_name (map fst xls)
        /\ f_columns (read_excel xls sheet_name) = []
        /\ load_data lib fs = inl AttributeError)
  \/ (exists xls,
        fs path = Some xls /\ In sheet_name (map fst xls)
        /\ f_columns (read_excel xls sheet_name) <> []
        /\ pick (map strip (f_columns (read_excel xls sheet_name)))
                ["coordinates"] = None
        /\ load_data lib fs
           = inl (KeyError
                    [Txt " Column 'Coordinates' was not found in the 'Plant data' sheet."]))
  \/ (exists xls coord,
        fs path = Some xls /\ In sheet_name (map fst xls)
        /\ f_columns (read_excel xls sheet_name) <> []
        /\ let raw := read_excel xls sheet_name in
           let cols := map strip (f_columns raw) in
           let all_cols := cols ++ ["Latitude"; "Longitude"] in
           let caps := filter is_cap_col all_cols in
           pick cols ["coordinates"] = Some coord
           /\ ((forallb is_text
                  (map (astype_str lib) (getitem cols (f_rows raw) coord))
                = false
                /\ load_data lib fs = inl TypeError)
               \/ (forallb is_text
                     (map (astype_str lib) (getitem cols (f_rows raw) coord))
                   = true
                   /\ ~ NoDup all_cols
                   /\ load_data lib fs = inl ValueError)
               \/ (forallb is_text
                     (map (astype_str lib) (getitem cols (f_rows raw) coord))
                   = true
                   /\ NoDup all_cols
                   /\ load_data lib fs
                      = inr (mkTable cols
                               (map (with_total_capacity lib cols caps)
                                  (map (joined lib cols coord)
                                     (filter (has_coordinates lib cols coord)
                                             (f_rows raw)))),
                             mkMeta (pick all_cols ["owner"])
                                    (py_or (pick all_cols ["country/area"])
                                           (pick all_cols ["country"; "region"]))
                                    sheet_name caps)))).
Proof.
  destruct (fs path) as [xls|] eqn:Hfs.
  2:{ left. split; [reflexivity |]. unfold load_data. now rewrite Hfs. }
  destruct (mem sheet_name (map fst xls)) eqn:Hmem.
  2:{ right; left. exists xls. repeat split.
      - intros H. apply mem_iff in H. congruence.
      - unfold load_data. now rewrite Hfs, Hmem. }
  pose proof (proj1 (mem_iff _ _) Hmem) as Hin.
  destruct (f_columns (read_excel xls sheet_name)) as [|c0 cs] eqn:Hcols.
  { right; right; left. exists xls. repeat split; try assumption.
    unfold load_data. now rewrite Hfs, Hmem, Hcols. }
  assert (Hne : f_columns (read_excel xls sheet_name) <> [])
    by (rewrite Hcols; discriminate).
  destruct (pick (map strip (f_columns (read_excel xls sheet_name)))
                 ["coordinates"]) as [coord|] eqn:Hpick.
  2:{ right; right; right; left. exists xls. repeat split; try assumption.
      unfold load_data. rewrite Hfs, Hmem. cbn [negb].
      rewrite Hcols in Hpick |- *. now rewrite Hpick. }
  right; right; right; right. exists xls, coord.
  split; [reflexivity |]. split; [assumption |]. split; [assumption |].
  cbv zeta. split; [assumption |].
  pose proof (load_data_found fs xls coord Hfs Hmem Hne Hpick) as Hok.
  cbv zeta in Hok. rewrite Hok.
  destruct (forallb is_text _) eqn:Hall; [| now left].
  right. cbn [negb].
  destruct (distinct _) eqn:Hd; cbn [negb].
  - right. repeat split. now apply distinct_iff.
  - left. repeat split. intros Hnd. apply distinct_iff in Hnd. congruence.
Qed.

Lemma load_data_inv (fs : filesystem) (df : table) (m : meta) :
  load_data lib fs = inr (df, m) ->
  exists xls coord,
    fs path = Some xls /\ In sheet_name (map fst xls)
    /\ let raw := read_excel xls sheet_name in
       let cols := map strip (f_columns raw) in
       let all_cols := cols ++ ["Latitude"; "Longitude"] in
       let caps := filter is_cap_col all_cols in
       pick cols ["coordinates"] = Some coord
       /\ df = mkTable cols
                 (map (with_total_capacity lib cols caps)
                      (map (joined lib cols coord)
                           (filter (has_coordinates lib cols coord)
                                   (f_rows raw))))
       /\ m = mkMeta (pick all_cols ["owner"])
                     (py_or (pick all_cols ["country/area"])
                            (pick all_cols ["country"; "region"]))
                     sheet_name caps.
Proof.
  intros H.
  destruct (load_data_cases fs)
    as [[_ He] | [[xls [_ [_ He]]] | [[xls [_ [_ [_ He]]]]
        | [[xls [_ [_ [_ [_ He]]]]]
        | [xls [coord [Hfs [Hin [_ Hrest]]]]]]]]];
    try congruence.
  cbv zeta in Hrest. destruct Hrest as [Hpick Hcase].
  exists xls, coord. split; [assumption |]. split; [assumption |].
  cbv zeta. split; [assumption |].
  destruct Hcase as [[_ He] | [[_ [_ He]] | [_ [_ He]]]]; try congruence.
  rewrite He in H. injection H as <- <-. split; reflexivity.
Qed.

Lemma has_coordinates_entries (cols : list string) (coord : string)
      (r : list cell) :
  has_coordinates lib cols coord r = true ->
  exists v x y,
    coordinate_of lib cols coord r = Some v
    /\ row_entries v = (Some x, Some y)
    /\ is_nan x = false /\ is_nan y = false.
Proof.
  unfold has_coordinates.
  destruct (coordinate_of lib cols coord r) as [v|]; [| discriminate].
  intros H. exists v. unfold row_entries.
  destruct (parse_step v)
    as [[m [a [b [x [y [Hm [H1 [H2 [_ [_ [_ [_ [Hx Hy]]]]]]]]]]]]] | [Hm _]];
    rewrite Hm in H |- *.
  - rewrite H1, H2. exists x, y. auto.
  - discriminate.
Qed.

Lemma has_coordinates_iff (cols : list string) (coord : string)
      (r : list cell) :
  has_coordinates lib cols coord r = true
  <-> exists v a b,
        coordinate_of lib cols coord r = Some v /\ coordinate_text v a b.
Proof.
  unfold has_coordinates.
  destruct (coordinate_of lib cols coord r) as [v|].
  - destruct (re_match pat v) as [m|] eqn:Hm.
    + split; [intros _ | reflexivity].
      destruct (pat_sound _ _ Hm) as [a [b [H _]]]. eauto.
    + split; [discriminate |]. intros [v' [a [b [Hv H]]]].
      injection Hv as <-. apply pat_complete in H. congruence.
  - split; [discriminate | intros [v [a [b [H _]]]]; discriminate].
Qed.

Lemma Forall2_map_left {A B : Type} (P : B -> A -> Prop) (f : A -> B)
      (l : list A) :
  (forall a, In a l -> P (f a) a) -> Forall2 P (map f l) l.
Proof.
  induction l as [|a l IH]; simpl; intros H; constructor; auto.
Qed.

Lemma with_total_capacity_coordinates (cols caps : list string)
      (r : list cell * option spec_float * option spec_float) :
  Latitude (with_total_capacity lib cols caps r) = snd (fst r)
  /\ Longitude (with_total_capacity lib cols caps r) = snd r.
Proof. destruct caps; split; reflexivity. Qed.

End Loader.

Section LoaderClaims.

Import PyStr PyFloat Re Spec Dashboard.

Variable lib : pandas.

Lemma pick_found (cols keys : list string) (c : string) :
  pick cols keys = Some c -> In c cols.
Proof. unfold pick. intros H. now apply find_some in H. Qed.

Lemma pick_sheet_columns (xls : workbook) (keys : list string) (c : string) :
  pick (sheet_columns xls) keys = Some c ->
  f_columns (read_excel xls sheet_name) <> [].
Proof.
  intros H He. apply pick_found in H. unfold sheet_columns in H.
  rewrite He in H. destruct H.
Qed.

(** The outcome of [load_data] once the coordinate column is found. *)
Lemma load_data_outcome (fs : filesystem) (xls : workbook) (coord : string) :
  fs path = Some xls -> In sheet_name (map fst xls) ->
  pick (sheet_columns xls) ["coordinates"] = Some coord ->
  let cols := sheet_columns xls in
  let all_cols := cols ++ ["Latitude"; "Longitude"] in
  let caps := filter is_cap_col all_cols in
  ((keeps_missing lib = true /\ count_occ string_dec cols coord = 1
    /\ has_empty_cell cols (sheet_rows xls) coord)
   /\ load_data lib fs = inl TypeError)
  \/ (~ (keeps_missing lib = true /\ count_occ string_dec cols coord = 1
         /\ has_empty_cell cols (sheet_rows xls) coord)
      /\ ~ NoDup all_cols
      /\ load_data lib fs = inl ValueError)
  \/ (~ (keeps_missing lib = true /\ has_empty_cell cols (sheet_rows xls) coord)
      /\ NoDup all_cols
      /\ load_data lib fs
         = inr (mkTable cols
                  (map (with_total_capacity lib cols caps)
                     (map (joined lib cols coord)
                        (filter (has_coordinates lib cols coord)
                                (sheet_rows xls)))),
                mkMeta (pick all_cols ["owner"])
                       (py_or (pick all_cols ["country/area"])
                              (pick all_cols ["country"; "region"]))
                       sheet_name caps)).
Proof.
  intros Hfs Hin Hpick. cbv zeta.
  pose proof (pick_sheet_columns xls _ _ Hpick) as Hne.
  pose proof (load_data_found lib fs xls coord Hfs
                (proj2 (mem_iff _ _) Hin) Hne Hpick) as Hok.
  cbv zeta in Hok. fold (sheet_columns xls) (sheet_rows xls) in Hok.
  rewrite Hok.
  assert (Hone : 1 <= count_occ string_dec (sheet_columns xls) coord).
  { apply pick_found in Hpick.
    apply (count_occ_In string_dec) in Hpick. lia. }
  pose proof (unreadable_iff lib (sheet_columns xls) (sheet_rows xls) coord)
    as Hu. fold (has_empty_cell (sheet_columns xls) (sheet_rows xls) coord) in Hu.
  destruct (forallb is_text _) eqn:Hall; cbn [negb].
  - right.
    assert (Hno : ~ (keeps_missing lib = true
                     /\ count_occ string_dec (sheet_columns xls) coord = 1
                     /\ has_empty_cell (sheet_columns xls) (sheet_rows xls) coord)).
    { intros [Hk [Hc He]].
      assert (Hf : true = false) by (apply Hu; repeat split; auto; lia).
      discriminate. }
    destruct (distinct _) eqn:Hd; cbn [negb].
    + right. apply distinct_iff in Hd. repeat split; auto.
      intros [Hk He]. apply Hno. repeat split; auto.
      pose proof (proj1 (NoDup_count_occ string_dec _)
                        (NoDup_app_l _ _ Hd) coord). lia.
    + left. repeat split; auto. intros Hnd. apply distinct_iff in Hnd.
      congruence.
  - left. split; [| reflexivity].
    destruct (proj1 Hu eq_refl) as [Hk [Hc He]]. repeat split; auto. lia.
Qed.

(** C5, as amended. [load_data] raises exactly when the file is missing,
    the sheet is missing from the file, the sheet has no column, no column
    resolves for the coordinates, two labels are equal once stripped or one
    of them is [Latitude] or [Longitude], or (when the library keeps
    missing values) a coordinate cell is empty.  The sheet error lists the
    sheets of the file.  In every other case, whatever the owner, region
    and capacity columns, it returns a table: one row, in order, for each
    sheet row whose coordinate text matches the pattern, the other rows
    being left out without an error. *)
Theorem load_data_failures (fs : filesystem) :
  ((exists e, load_data lib fs = inl e) <->
     fs path = None
     \/ exists xls,
          fs path = Some xls
          /\ (~ In sheet_name (map fst xls)
              \/ f_columns (read_excel xls sheet_name) = []
              \/ pick (sheet_columns xls) ["coordinates"] = None
              \/ ~ NoDup (sheet_columns xls ++ ["Latitude"; "Longitude"])
              \/ (keeps_missing lib = true
                  /\ exists coord,
                       pick (sheet_columns xls) ["coordinates"] = Some coord
                       /\ has_empty_cell (sheet_columns xls) (sheet_rows xls)
                                         coord)))
  /\ (fs path = None ->
      load_data lib fs
      = inl (FileNotFoundError
               [Txt " 'dataset_globalsteeltracker.xlsx' not found in this folder."]))
  /\ (forall xls,
        fs path = Some xls -> ~ In sheet_name (map fst xls) ->
        load_data lib fs
        = inl (KeyError [Txt " Sheet '"; Txt sheet_name;
                         Txt "' not found. Available: ";
                         ReprList (map fst xls)]))
  /\ (forall xls,
        fs path = Some xls -> In sheet_name (map fst xls) ->
        (f_columns (read_excel xls sheet_name) = [] ->
         load_data lib fs = inl AttributeError)
        /\ (f_columns (read_excel xls sheet_name) <> [] ->
            pick (sheet_columns xls) ["coordinates"] = None ->
            load_data lib fs
            = inl (KeyError
                     [Txt " Column 'Coordinates' was not found in the 'Plant data' sheet."])))
  /\ (forall xls coord,
        fs path = Some xls -> In sheet_name (map fst xls) ->
        pick (sheet_columns xls) ["coordinates"] = Some coord ->
        let cols := sheet_columns xls in
        let unreadable :=
          keeps_missing lib = true
          /\ count_occ string_dec cols coord = 1
          /\ has_empty_cell cols (sheet_rows xls) coord in
        (unreadable -> load_data lib fs = inl TypeError)
        /\ (~ unreadable -> ~ NoDup (cols ++ ["Latitude"; "Longitude"]) ->
            load_data lib fs = inl ValueError)
        /\ (~ unreadable -> NoDup (cols ++ ["Latitude"; "Longitude"]) ->
            exists df m,
              load_data lib fs = inr (df, m)
              /\ columns df = cols
              /\ Forall2
                   (fun p r =>
                      exists v,
                        coordinate_of lib cols coord r = Some v
                        /\ parsed_row v (Latitude p) (Longitude p))
                   (plants df)
                   (filter (has_coordinates lib cols coord) (sheet_rows xls))
              /\ forall r,
                   has_coordinates lib cols coord r = true
                   <-> exists v a b,
                         coordinate_of lib cols coord r = Some v
                         /\ coordinate_text v a b)).
Proof.
  split; [| split; [| split; [| split]]].
  - destruct (load_data_cases lib fs)
      as [[Hfs He] | [[xls [Hfs [Hin He]]] | [[xls [Hfs [Hin [Hc He]]]]
          | [[xls [Hfs [Hin [Hc [Hp He]]]]]
          | [xls [coord [Hfs [Hin [Hc Hrest]]]]]]]]].
    + split; eauto.
    + split; [| eauto]. intros _. right. exists xls. auto.
    + split; [| eauto]. intros _. right. exists xls. auto.
    + split; [| eauto]. intros _. right. exists xls. auto.
    + cbv zeta in Hrest. destruct Hrest as [Hp _].
      destruct (load_data_outcome fs xls coord Hfs Hin Hp)
        as [[[Hk [Hc1 Hemp]] He] | [[Hno [Hnd He]] | [Hno [Hnd He]]]].
      * split; [| eauto]. intros _. right. exists xls.
        split; [assumption |]. do 4 right. eauto.
      * split; [| eauto]. intros _. right. exists xls.
        split; [assumption |]. do 3 right. now left.
      * split; [intros [e H]; congruence |].
        intros [H | [xls' [Hfs' H]]]; [congruence |].
        assert (xls' = xls) by congruence. subst xls'. exfalso.
        destruct H as [H | [H | [H | [H | [Hk [coord' [Hp' Hemp]]]]]]];
          try contradiction.
        -- unfold sheet_columns in H. congruence.
        -- assert (coord' = coord)
             by (unfold sheet_columns in Hp'; congruence).
           subst coord'. apply Hno. auto.
  - intros Hfs. unfold load_data. now rewrite Hfs.
  - intros xls Hfs Hn. unfold load_data. rewrite Hfs.
    destruct (mem sheet_name (map fst xls)) eqn:Hmem; [| reflexivity].
    apply mem_iff in Hmem. contradiction.
  - intros xls Hfs Hin. apply mem_iff in Hin. split.
    + intros Hc. unfold load_data. now rewrite Hfs, Hin, Hc.
    + intros Hc Hp. unfold load_data. rewrite Hfs, Hin. cbn [negb].
      unfold sheet_columns in Hp.
      destruct (f_columns (read_excel xls sheet_name)) eqn:Hf; [congruence |].
      now rewrite Hp.
  - intros xls coord Hfs Hin Hp. cbv zeta.
    destruct (load_data_outcome fs xls coord Hfs Hin Hp)
      as [[Hun He] | [[Hno [Hnd He]] | [Hno [Hnd He]]]].
    + repeat split; [auto | contradiction | contradiction].
    + split; [contradiction |]. split; [auto | contradiction].
    + split; [| split; [contradiction |]].
      * intros [Hk [_ Hemp]]. exfalso. apply Hno. auto.
      * intros _ _. eexists _, _. split; [exact He |]. cbn [columns plants].
        split; [reflexivity |].
        split; [| intros r; apply has_coordinates_iff].
        rewrite map_map. apply Forall2_map_left. intros r Hr.
        apply filter_In in Hr. destruct Hr as [_ Hr].
        destruct (with_total_capacity_coordinates lib
                    (sheet_columns xls)
                    (filter is_cap_col
                       (sheet_columns xls ++ ["Latitude"; "Longitude"]))
                    (joined lib (sheet_columns xls) coord r))
          as [-> ->].
        destruct (has_coordinates_entries lib _ _ _ Hr) as [v [x [y [Hv _]]]].
        exists v. split; [assumption |]. unfold joined. cbn [fst snd].
        rewrite Hv. apply row_entries_spec.
Qed.

(** C6, as amended. Every row of a loaded table has a latitude and a
    longitude, both present and neither NaN. *)
Theorem loaded_coordinates_present (fs : filesystem) (df : table) (m : meta) :
  load_data lib fs = inr (df, m) ->
  forall p, In p (plants df) ->
    exists x y,
      Latitude p = Some x /\ Longitude p = Some y
      /\ is_nan x = false /\ is_nan y = false.
Proof.
  intros H p Hp.
  destruct (load_data_inv lib fs df m H) as [xls [coord [_ [_ [_ [-> _]]]]]].
  cbn [plants] in Hp. rewrite map_map in Hp. apply in_map_iff in Hp.
  destruct Hp as [r [<- Hr]]. apply filter_In in Hr. destruct Hr as [_ Hr].
  destruct (has_coordinates_entries lib _ _ _ Hr) as [v [x [y [Hv [He [Hx Hy]]]]]].
  exists x, y.
  destruct (with_total_capacity_coordinates lib
              (map strip (f_columns (read_excel xls sheet_name)))
              (filter is_cap_col
                 (map strip (f_columns (read_excel xls sheet_name))
                  ++ ["Latitude"; "Longitude"]))
              (joined lib
                 (map strip (f_columns (read_excel xls sheet_name))) coord r))
    as [-> ->].
  unfold joined. simpl. rewrite Hv. simpl. rewrite He. auto.
Qed.

End LoaderClaims.

(** ** Sums of binary64 numbers *)

Section FloatSums.

Import PyStr PyFloat Re Spec Dashboard.

Lemma notna_iff (x : spec_float) : notna x = true <-> x <> S754_nan.
Proof. unfold notna. destruct x; simpl; split; congruence. Qed.

Lemma notna_false_iff (x : spec_float) : notna x = false <-> x = S754_nan.
Proof. unfold notna. destruct x; simpl; split; congruence. Qed.












End FloatSums.

(** ** Resolved columns and capacity aggregation *)

Section Capacity.

Import PyStr PyFloat Re Spec Dashboard.

Variable lib : pandas.

Lemma find_app {A : Type} (f : A -> bool) (l l' : list A) :
  find f (l ++ l') = match find f l with Some x => Some x | None => find f l' end.
Proof.
  induction l as [|a l IH]; simpl; [reflexivity |].
  destruct (f a); auto.
Qed.

(** The two derived coordinate columns never answer a role that a key of
    theirs does not name. *)
Lemma pick_derived (cols keys : list string) :
  pick ["Latitude"; "Longitude"] keys = None ->
  pick (cols ++ ["Latitude"; "Longitude"]) keys = pick cols keys.
Proof.
  unfold pick. intros H. rewrite find_app, H. now destruct (find _ cols).
Qed.


(** C7. [pick] returns the first column, in source order, whose
    lowercased name contains one of the lowercased candidates, and nothing
    when no column does; the owner of a loaded table is picked with
    ["owner"], and its region is the column picked with ["country/area"]
    when there is one, else the one picked with ["country"] or
    ["region"]. *)
Theorem column_resolution :
  (forall cols keys,
      match pick cols keys with
      | Some c =>
          exists pre post,
            cols = pre ++ c :: post
            /\ key_matches keys c
            /\ forall c', In c' pre -> ~ key_matches keys c'
      | None => forall c, In c cols -> ~ key_matches keys c
      end)
  /\ (forall fs df m,
        load_data lib fs = inr (df, m) ->
        owner m = pick (columns df) ["owner"]
        /\ region m
           = match pick (columns df) ["country/area"] with
             | Some c => Some c
             | None => pick (columns df) ["country"; "region"]
             end).
Proof.
  split; [exact pick_first |].
  intros fs df m H.
  destruct (load_data_inv lib fs df m H)
    as [xls [coord [_ [_ [_ [-> ->]]]]]].
  clear H. cbn [owner region columns].
  rewrite !pick_derived by reflexivity.
  split; [reflexivity |].
  destruct (pick _ ["country/area"]) as [c|] eqn:Hc; [| reflexivity].
  assert (Hne : c <> EmptyString)
    by (eapply pick_truthy; [| exact Hc]; discriminate).
  destruct c; [congruence | reflexivity].
Qed.

Lemma index_of_nth (c : string) (cols : list string) :
  forall i, index_of c cols = Some i -> nth_error cols i = Some c.
Proof.
  induction cols as [|c' cols IH]; intros i H; simpl in H; [discriminate |].
  destruct (String.eqb_spec c' c) as [-> | Hne].
  - injection H as <-. reflexivity.
  - destruct (index_of c cols) as [j|]; [| discriminate].
    injection H as <-. simpl. now apply IH.
Qed.

Lemma index_of_none (c : string) (cols : list string) :
  index_of c cols = None <-> ~ In c cols.
Proof.
  induction cols as [|c' cols IH]; simpl; [tauto |].
  destruct (String.eqb_spec c' c) as [-> | Hne].
  - split; [discriminate | tauto].
  - destruct (index_of c cols) as [j|]; simpl.
    + split; [discriminate |]. intros H. exfalso. apply H. right.
      destruct (in_dec string_dec c cols) as [Hin | Hout]; [assumption |].
      apply IH in Hout. discriminate.
    + split; [| reflexivity]. intros _ [H | H]; [congruence |].
      now apply (proj1 IH).
Qed.

(** Reading a column after an assignment to the columns of the row. *)
Lemma get_assign (f : string -> cell -> cell) (cols : list string)
      (row : list cell) (c : string) :
  get cols (assign f cols row) c
  = if mem c cols then f c (get cols row c) else NaN.
Proof.
  unfold get at 1. destruct (index_of c cols) as [i|] eqn:Hi.
  - pose proof (index_of_nth c cols i Hi) as Hn.
    assert (Hin : In c cols) by (eapply nth_error_In; eassumption).
    rewrite (proj2 (mem_iff c cols) Hin).
    unfold assign.
    rewrite (nth_error_nth _ _ NaN
               (map_nth_error (fun c0 => f c0 (get cols row c0)) i cols Hn)).
    reflexivity.
  - apply index_of_none in Hi.
    destruct (mem c cols) eqn:Hm; [| reflexivity].
    apply mem_iff in Hm. contradiction.
Qed.

Lemma get_outside (cols : list string) (row : list cell) (c : string) :
  mem c cols = false -> get cols row c = NaN.
Proof.
  intros H. unfold get. destruct (index_of c cols) as [i|] eqn:Hi;
    [| reflexivity].
  apply index_of_nth, nth_error_In, mem_iff in Hi. congruence.
Qed.

(** Reading a column of a coerced row: the cell made numeric when the
    column is a capacity column, the cell itself otherwise. *)
Lemma get_coerce_row (cols caps : list string) (row : list cell) (c : string) :
  get cols (coerce_row lib cols caps row) c
  = if mem c caps then to_numeric lib (get cols row c) else get cols row c.
Proof.
  unfold coerce_row. rewrite get_assign.
  destruct (mem c cols) eqn:Hm; [reflexivity |].
  rewrite (get_outside cols row c Hm). now destruct (mem c caps).
Qed.

(** Reading a column after the total is stored: the total in a sheet
    column named [TotalCapacity], the cell itself in any other. *)
Lemma get_store_total (cols : list string) (row : list cell)
      (t : spec_float) (c : string) :
  get cols (store_total cols row t) c
  = if String.eqb c "TotalCapacity" && mem c cols then Num t
    else get cols row c.
Proof.
  unfold store_total. rewrite get_assign.
  destruct (mem c cols) eqn:Hm.
  - now rewrite andb_true_r.
  - rewrite andb_false_r. symmetry. now apply get_outside.
Qed.

Lemma cap_col_not_total (c : string) :
  is_cap_col c = true -> String.eqb c "TotalCapacity" = false.
Proof.
  intros H. destruct (String.eqb_spec c "TotalCapacity") as [-> | Hne];
    [discriminate H | reflexivity].
Qed.

(** The cells of a loaded row, from the sheet row it was built from. *)
Lemma loaded_cell (cols caps : list string)
      (r : list cell * option spec_float * option spec_float) (c : string) :
  let p := with_total_capacity lib cols caps r in
  get cols (cells p) c
  = if String.eqb c "TotalCapacity" && mem c cols then Num (TotalCapacity p)
    else if mem c caps then to_numeric lib (get cols (fst (fst r)) c)
    else get cols (fst (fst r)) c.
Proof.
  cbv zeta. unfold with_total_capacity. destruct caps as [|c0 caps'].
  - cbn [cells TotalCapacity]. apply get_store_total.
  - cbn [cells TotalCapacity]. rewrite get_store_total.
    destruct (_ && _); [reflexivity |]. apply get_coerce_row.
Qed.






Lemma loaded_caps_are_cap_cols (cols : list string) (c : string) :
  In c (filter is_cap_col cols) -> is_cap_col c = true.
Proof. intros H. now apply filter_In in H. Qed.



End Capacity.

(** ** The filter engine *)

Section Filters.

Import PyStr PyFloat Re Spec Dashboard.

Variable lib : pandas.

Lemma table_eta (f : table) : mkTable (columns f) (plants f) = f.
Proof. now destruct f. Qed.

Lemma filter_all {A : Type} (P : A -> bool) (l : list A) :
  (forall x, In x l -> P x = true) -> filter P l = l.
Proof.
  induction l as [|a l IH]; simpl; intros H; [reflexivity |].
  rewrite (H a (or_introl eq_refl)), IH; auto.
Qed.

Lemma filter_none {A : Type} (P : A -> bool) (l : list A) :
  (forall x, In x l -> P x = false) -> filter P l = [].
Proof.
  induction l as [|a l IH]; simpl; intros H; [reflexivity |].
  rewrite (H a (or_introl eq_refl)), IH; auto.
Qed.

Lemma filter_filter {A : Type} (P Q : A -> bool) (l : list A) :
  filter P (filter Q l) = filter (fun x => Q x && P x) l.
Proof.
  induction l as [|a l IH]; simpl; [reflexivity |].
  destruct (Q a); simpl; [destruct (P a) |]; now rewrite IH.
Qed.

Lemma filter_by_columns (col : option string) (sel : option (list string))
      (f : table) :
  columns (filter_by lib col sel f) = columns f.
Proof. unfold filter_by. now destruct (chosen sel && truthy col). Qed.

Lemma filter_by_plants (col : option string) (sel : option (list string))
      (f : table) :
  plants (filter_by lib col sel f)
  = filter (passes_selection lib (columns f) col sel) (plants f).
Proof.
  unfold filter_by, passes_selection.
  destruct (chosen sel && truthy col); [reflexivity |].
  symmetry. now apply filter_all.
Qed.

Lemma filter_by_select (col : option string) (sel : option (list string))
      (f : table) :
  filter_by lib col sel f
  = mkTable (columns f)
            (filter (passes_selection lib (columns f) col sel) (plants f)).
Proof.
  rewrite <- filter_by_plants, <- (filter_by_columns col sel f).
  symmetry. apply table_eta.
Qed.

Lemma filter_capacity_columns (cr : option (Z * Z)) (f : table) :
  columns (filter_capacity cr f) = columns f.
Proof.
  unfold filter_capacity. destruct cr as [[lo hi]|]; [| reflexivity].
  now destruct (any_capacity (plants f)).
Qed.

Lemma filter_capacity_plants (cr : option (Z * Z)) (f : table) :
  plants (filter_capacity cr f)
  = filter (passes_capacity (any_capacity (plants f)) cr) (plants f).
Proof.
  unfold filter_capacity, passes_capacity. destruct cr as [[lo hi]|].
  - destruct (any_capacity (plants f)); [reflexivity |].
    symmetry. now apply filter_all.
  - symmetry. now apply filter_all.
Qed.

Lemma filter_capacity_select (cr : option (Z * Z)) (f : table) :
  filter_capacity cr f
  = mkTable (columns f)
            (filter (passes_capacity (any_capacity (plants f)) cr) (plants f)).
Proof.
  rewrite <- filter_capacity_plants, <- (filter_capacity_columns cr f).
  symmetry. apply table_eta.
Qed.

Lemma any_capacity_iff (l : list plant) :
  any_capacity l = true
  <-> exists p, In p l /\ TotalCapacity p <> S754_nan.
Proof.
  unfold any_capacity. rewrite existsb_exists.
  split; intros [p [Hp H]]; exists p; (split; [assumption |]);
    now apply notna_iff.
Qed.

Lemma any_capacity_false (l : list plant) :
  any_capacity l = false <-> forall p, In p l -> TotalCapacity p = S754_nan.
Proof.
  split.
  - intros H p Hp. apply notna_false_iff.
    destruct (notna (TotalCapacity p)) eqn:Hn; [| reflexivity].
    assert (any_capacity l = true)
      by (apply any_capacity_iff; exists p; split; [| apply notna_iff]; auto).
    congruence.
  - intros H. destruct (any_capacity l) eqn:Hany; [| reflexivity].
    apply any_capacity_iff in Hany. destruct Hany as [p [Hp Hq]].
    now apply H in Hp.
Qed.

Lemma any_capacity_sub (l l' : list plant) :
  (forall p, In p l -> In p l') ->
  any_capacity l' = false -> any_capacity l = false.
Proof.
  rewrite !any_capacity_false. auto.
Qed.

Lemma between_iff (lo hi : Z) (x : spec_float) :
  between lo hi x = true
  <-> is_finite x = true
      /\ (inject_Z lo <= to_Q x)%Q /\ (to_Q x <= inject_Z hi)%Q.
Proof.
  unfold between. rewrite !andb_true_iff, !Qle_bool_iff. tauto.
Qed.

(** Membership in what the capacity step keeps. *)
Lemma filter_capacity_In (lo hi : Z) (f : table) (p : plant) :
  In p (plants (filter_capacity (Some (lo, hi)) f))
  <-> In p (plants f)
      /\ (any_capacity (plants f) = true ->
          is_finite (TotalCapacity p) = true
          /\ (inject_Z lo <= to_Q (TotalCapacity p))%Q
          /\ (to_Q (TotalCapacity p) <= inject_Z hi)%Q).
Proof.
  rewrite filter_capacity_plants, filter_In. unfold passes_capacity.
  destruct (any_capacity (plants f)).
  - rewrite between_iff. tauto.
  - split; [intros [H _]; split; [assumption | discriminate] | tauto].
Qed.

Lemma Qle_bool_inject (a b : Z) :
  Qle_bool (inject_Z a) (inject_Z b) = (a <=? b)%Z.
Proof.
  apply eq_true_iff_eq. rewrite Qle_bool_iff, <- Zle_Qle, Z.leb_le.
  reflexivity.
Qed.

Lemma Qle_bool_eq_l (x y z : Q) : (x == y)%Q -> Qle_bool x z = Qle_bool y z.
Proof.
  intros H. apply eq_true_iff_eq. rewrite !Qle_bool_iff. now rewrite H.
Qed.

Lemma Qle_bool_eq_r (x y z : Q) : (x == y)%Q -> Qle_bool z x = Qle_bool z y.
Proof.
  intros H. apply eq_true_iff_eq. rewrite !Qle_bool_iff. now rewrite H.
Qed.

(** C1, as amended. The capacity test is inclusive on both bounds. When a
    range is set and some row of the table under filter has a capacity,
    the step keeps exactly the rows whose capacity is a finite number
    within the range, so a row without capacity is left out; when no row
    has a capacity, or no range is set, the step is skipped and every row
    passes. *)
Theorem capacity_filter_spec (lo hi : Z) (f : table) :
  (forall p,
      In p (plants (filter_capacity (Some (lo, hi)) f))
      <-> In p (plants f)
          /\ (any_capacity (plants f) = true ->
              is_finite (TotalCapacity p) = true
              /\ (inject_Z lo <= to_Q (TotalCapacity p))%Q
              /\ (to_Q (TotalCapacity p) <= inject_Z hi)%Q))
  /\ (any_capacity (plants f) = false ->
      filter_capacity (Some (lo, hi)) f = f)
  /\ filter_capacity None f = f
  /\ (forall x, is_finite x = true -> (to_Q x == inject_Z lo)%Q ->
                between lo hi x = negb (hi <? lo)%Z)
  /\ (forall x, is_finite x = true -> (to_Q x == inject_Z hi)%Q ->
                between lo hi x = negb (hi <? lo)%Z)
  /\ between lo hi S754_nan = false
  /\ (forall s, between lo hi (S754_infinity s) = false).
Proof.
  split; [intros p; apply filter_capacity_In |].
  split; [intros H; unfold filter_capacity; now rewrite H |].
  split; [reflexivity |].
  split; [| split; [| split; [reflexivity | reflexivity]]].
  - intros x Hx He. unfold between. rewrite Hx. cbn [andb].
    rewrite (Qle_bool_eq_r _ _ _ He), (Qle_bool_eq_l _ _ _ He).
    rewrite !Qle_bool_inject, Z.leb_refl. cbn [andb].
    now rewrite Z.ltb_antisym, negb_involutive.
  - intros x Hx He. unfold between. rewrite Hx. cbn [andb].
    rewrite (Qle_bool_eq_r _ _ _ He), (Qle_bool_eq_l _ _ _ He).
    rewrite !Qle_bool_inject, Z.leb_refl, andb_true_r.
    now rewrite Z.ltb_antisym, negb_involutive.
Qed.

(** The rows the two selections keep, as a table. *)
Lemma selections_select (m : meta) (ps : params) (df : table) :
  filter_by lib (region m) (sel_regions ps)
    (filter_by lib (owner m) (sel_owners ps) df)
  = mkTable (columns df) (selected lib m ps df).
Proof.
  unfold selected, passes_selections.
  rewrite (filter_by_select (region m)), filter_by_plants, filter_by_columns.
  now rewrite filter_filter.
Qed.

(** The output of the filter engine is the reference filter. *)
Lemma apply_filters_reference (m : meta) (ps : params) (df : table) :
  apply_filters lib m ps df
  = mkTable (columns df) (reference_filter lib m ps df).
Proof.
  unfold apply_filters. rewrite selections_select, filter_capacity_select.
  cbn [columns plants]. unfold reference_filter, capacity_active, selected.
  now rewrite filter_filter.
Qed.

Lemma filter_by_fixed (col : option string) (sel : option (list string))
      (f : table) :
  (forall p, In p (plants f) ->
             passes_selection lib (columns f) col sel p = true) ->
  filter_by lib col sel f = f.
Proof.
  intros H. rewrite filter_by_select, filter_all by assumption.
  apply table_eta.
Qed.

Lemma filter_capacity_idempotent (cr : option (Z * Z)) (f : table) :
  filter_capacity cr (filter_capacity cr f) = filter_capacity cr f.
Proof.
  destruct cr as [[lo hi]|]; [| reflexivity].
  unfold filter_capacity.
  destruct (any_capacity (plants f)) eqn:Hany.
  - cbn [plants columns].
    destruct (any_capacity (filter _ (plants f))); [| reflexivity].
    f_equal. apply filter_all. intros p Hp. now apply filter_In in Hp.
  - now rewrite Hany.
Qed.

Lemma apply_filters_idempotent (m : meta) (ps : params) (df : table) :
  apply_filters lib m ps (apply_filters lib m ps df)
  = apply_filters lib m ps df.
Proof.
  unfold apply_filters.
  set (g := filter_by lib (region m) (sel_regions ps)
              (filter_by lib (owner m) (sel_owners ps) df)).
  assert (Hsub : forall p, In p (plants (filter_capacity (cap_range ps) g)) ->
                           In p (plants g)).
  { intros p. rewrite filter_capacity_plants, filter_In. tauto. }
  assert (Hcols : columns (filter_capacity (cap_range ps) g) = columns df).
  { subst g. now rewrite filter_capacity_columns, !filter_by_columns. }
  assert (Hg : forall p, In p (plants g) ->
             passes_selection lib (columns df) (owner m) (sel_owners ps) p
             = true
             /\ passes_selection lib (columns df) (region m)
                                 (sel_regions ps) p = true).
  { intros p. subst g.
    rewrite !filter_by_plants, !filter_by_columns, !filter_In. tauto. }
  rewrite (filter_by_fixed (owner m) (sel_owners ps)
             (filter_capacity (cap_range ps) g)).
  - rewrite (filter_by_fixed (region m) (sel_regions ps)
               (filter_capacity (cap_range ps) g)).
    + apply filter_capacity_idempotent.
    + intros p Hp. rewrite Hcols. now apply Hg, Hsub.
  - intros p Hp. rewrite Hcols. now apply Hg, Hsub.
Qed.

Lemma filter_by_commute (c1 c2 : option string)
      (s1 s2 : option (list string)) (f : table) :
  filter_by lib c1 s1 (filter_by lib c2 s2 f)
  = filter_by lib c2 s2 (filter_by lib c1 s1 f).
Proof.
  rewrite (filter_by_select c1 s1 (filter_by lib c2 s2 f)).
  rewrite (filter_by_select c2 s2 (filter_by lib c1 s1 f)).
  rewrite !filter_by_plants, !filter_by_columns, !filter_filter.
  f_equal. apply filter_ext. intros p. apply andb_comm.
Qed.

(** Where the capacity step stands.  For a selection [G], applying it
    after the capacity step and before it give the same table exactly when
    no range is set, or the table has no capacity, or a selected row has
    one, or no row is selected. *)
Lemma capacity_step_position
      (G : table -> table) (P : list string -> plant -> bool)
      (cr : option (Z * Z)) (T : table) :
  (forall f, G f = mkTable (columns f) (filter (P (columns f)) (plants f))) ->
  G (filter_capacity cr T) = filter_capacity cr (G T)
  <-> cr = None
      \/ any_capacity (plants T) = false
      \/ any_capacity (plants (G T)) = true
      \/ plants (G T) = [].
Proof.
  intros HG.
  assert (Hsub : forall p, In p (plants (G T)) -> In p (plants T)).
  { intros p. rewrite HG. cbn [plants]. rewrite filter_In. tauto. }
  destruct cr as [[lo hi]|]; [| split; auto].
  destruct (any_capacity (plants T)) eqn:HT.
  - assert (Hl : G (filter_capacity (Some (lo, hi)) T)
                 = mkTable (columns T)
                     (filter (fun p => between lo hi (TotalCapacity p))
                             (plants (G T)))).
    { unfold filter_capacity. rewrite HT, !HG. cbn [columns plants].
      rewrite !filter_filter. f_equal. apply filter_ext. intros p.
      apply andb_comm. }
    rewrite Hl. unfold filter_capacity.
    destruct (any_capacity (plants (G T))) eqn:HGT.
    + split; [auto |]. intros _. rewrite HG. reflexivity.
    + assert (He : filter (fun p => between lo hi (TotalCapacity p))
                          (plants (G T)) = []).
      { apply filter_none. intros p Hp.
        rewrite (proj1 (any_capacity_false _) HGT p Hp). reflexivity. }
      rewrite He. split.
      * intros H. do 3 right. rewrite <- H. reflexivity.
      * intros [H | [H | [H | H]]]; try discriminate.
        rewrite <- (table_eta (G T)), H. f_equal.
        rewrite HG. reflexivity.
  - split; [auto |]. intros _.
    unfold filter_capacity. rewrite HT.
    now rewrite (any_capacity_sub _ _ Hsub HT).
Qed.

(** The orders of the three dimensions. *)
Lemma orders_of_three (order : list dimension) :
  Permutation order [ByOwner; ByRegion; ByCapacity] ->
  In order [[ByOwner; ByRegion; ByCapacity]; [ByRegion; ByOwner; ByCapacity];
            [ByOwner; ByCapacity; ByRegion]; [ByRegion; ByCapacity; ByOwner];
            [ByCapacity; ByOwner; ByRegion]; [ByCapacity; ByRegion; ByOwner]].
Proof.
  intros H. pose proof (Permutation_length H) as Hlen.
  destruct order as [|x [|y [|z [|t order]]]]; try discriminate.
  assert (Hd : forall d d' : dimension, {d = d'} + {d <> d'})
    by (decide equality).
  assert (Hc : forall d, count_occ Hd [x; y; z] d
                         = count_occ Hd [ByOwner; ByRegion; ByCapacity] d)
    by (now apply Permutation_count_occ).
  pose proof (Hc ByOwner) as H1. pose proof (Hc ByRegion) as H2.
  pose proof (Hc ByCapacity) as H3. clear Hc.
  destruct x, y, z; simpl in H1, H2, H3;
    repeat match type of H1 with
           | context [Hd ?a ?b] => destruct (Hd a b); try congruence
           end;
    repeat match type of H2 with
           | context [Hd ?a ?b] => destruct (Hd a b); try congruence
           end;
    repeat match type of H3 with
           | context [Hd ?a ?b] => destruct (Hd a b); try congruence
           end;
    try discriminate; simpl; auto 10.
Qed.

Lemma filter_by_as_selection (col : option string) (sel : option (list string)) :
  forall f,
    filter_by lib col sel f
    = mkTable (columns f)
        (filter ((fun cols => passes_selection lib cols col sel) (columns f))
                (plants f)).
Proof. intros f. apply filter_by_select. Qed.

Lemma selections_as_selection (m : meta) (ps : params) :
  forall f,
    filter_by lib (region m) (sel_regions ps)
      (filter_by lib (owner m) (sel_owners ps) f)
    = mkTable (columns f)
        (filter ((fun cols p =>
                    passes_selection lib cols (owner m) (sel_owners ps) p
                    && passes_selection lib cols (region m) (sel_regions ps) p)
                   (columns f))
                (plants f)).
Proof. intros f. apply selections_select. Qed.

Lemma identity_as_selection :
  forall f : table,
    (fun f => f) f
    = mkTable (columns f) (filter ((fun _ _ => true) (columns f)) (plants f)).
Proof.
  intros f. rewrite filter_all by reflexivity. symmetry. apply table_eta.
Qed.

(** Every order of the three steps against the order of the source: the
    results agree exactly when no range is set, or no row has a capacity
    at the point where the capacity step stands, or a row passing the two
    selections has one, or no row passes them. *)
Lemma order_independence (m : meta) (ps : params) (df : table)
      (order : list dimension) :
  Permutation order [ByOwner; ByRegion; ByCapacity] ->
  run lib m ps order df = apply_filters lib m ps df
  <-> cap_range ps = None
      \/ any_capacity (plants (run lib m ps (before_capacity order) df)) = false
      \/ any_capacity (selected lib m ps df) = true
      \/ selected lib m ps df = [].
Proof.
  intros Hperm. apply orders_of_three in Hperm.
  pose proof (selections_select m ps df) as HS.
  assert (HS' : filter_by lib (owner m) (sel_owners ps)
                  (filter_by lib (region m) (sel_regions ps) df)
                = mkTable (columns df) (selected lib m ps df))
    by (rewrite filter_by_commute; exact HS).
  unfold apply_filters.
  destruct Hperm as [<- | [<- | [<- | [<- | [<- | [<- | []]]]]]];
    cbn [run fold_left step before_capacity is_capacity].
  - pose proof (capacity_step_position (fun f => f) _ (cap_range ps)
                  (filter_by lib (region m) (sel_regions ps)
                     (filter_by lib (owner m) (sel_owners ps) df))
                  identity_as_selection) as H.
    cbv beta in H. rewrite ?HS, ?HS' in H. rewrite ?HS, ?HS'. exact H.
  - pose proof (capacity_step_position (fun f => f) _ (cap_range ps)
                  (filter_by lib (owner m) (sel_owners ps)
                     (filter_by lib (region m) (sel_regions ps) df))
                  identity_as_selection) as H.
    cbv beta in H. rewrite ?HS, ?HS' in H. rewrite ?HS, ?HS'. exact H.
  - pose proof (capacity_step_position _ _ (cap_range ps)
                  (filter_by lib (owner m) (sel_owners ps) df)
                  (filter_by_as_selection (region m) (sel_regions ps))) as H.
    rewrite ?HS, ?HS' in H. rewrite ?HS, ?HS'. exact H.
  - pose proof (capacity_step_position _ _ (cap_range ps)
                  (filter_by lib (region m) (sel_regions ps) df)
                  (filter_by_as_selection (owner m) (sel_owners ps))) as H.
    rewrite ?HS, ?HS' in H. rewrite ?HS, ?HS'. exact H.
  - pose proof (capacity_step_position _ _ (cap_range ps) df
                  (selections_as_selection m ps)) as H.
    cbv beta in H. rewrite ?HS, ?HS' in H. rewrite ?HS, ?HS'. exact H.
  - pose proof (capacity_step_position
                  (fun f => filter_by lib (owner m) (sel_owners ps)
                              (filter_by lib (region m) (sel_regions ps) f))
                  (fun cols p =>
                     passes_selection lib cols (owner m) (sel_owners ps) p
                     && passes_selection lib cols (region m) (sel_regions ps) p)
                  (cap_range ps) df) as H.
    cbv beta in H. rewrite ?HS, ?HS' in H. rewrite ?HS, ?HS'. apply H.
    intros f. rewrite filter_by_commute. apply selections_select.
Qed.

Lemma run_sub (m : meta) (ps : params) (order : list dimension) :
  forall f p, In p (plants (run lib m ps order f)) -> In p (plants f).
Proof.
  induction order as [|d order IH]; intros f p Hp; [exact Hp |].
  change (run lib m ps (d :: order) f)
    with (run lib m ps order (step lib m ps d f)) in Hp.
  apply IH in Hp. destruct d; cbn [step] in Hp.
  - rewrite filter_by_plants in Hp. now apply filter_In in Hp.
  - rewrite filter_by_plants in Hp. now apply filter_In in Hp.
  - rewrite filter_capacity_plants in Hp. now apply filter_In in Hp.
Qed.

(** C4, as amended. The output of the filter engine is exactly the rows
    that satisfy the owner predicate, the region predicate and the
    capacity predicate, the last one being active when a range is given
    and a row passing the two selections has a capacity; filtering is
    idempotent; exchanging the owner and region steps changes nothing.
    Another order of the three steps gives the same result exactly when no
    range is set, or no row has a capacity at the point where the capacity
    step stands, or a row passing the two selections has a capacity, or no
    row passes them: so whenever no range is set, or no row of the table
    has a capacity, or every row has one. *)
Theorem filter_engine_spec (m : meta) (ps : params) (df : table) :
  apply_filters lib m ps df
  = mkTable (columns df) (reference_filter lib m ps df)
  /\ apply_filters lib m ps (apply_filters lib m ps df)
     = apply_filters lib m ps df
  /\ run lib m ps [ByRegion; ByOwner; ByCapacity] df
     = apply_filters lib m ps df
  /\ (forall order,
        Permutation order [ByOwner; ByRegion; ByCapacity] ->
        (run lib m ps order df = apply_filters lib m ps df
         <-> cap_range ps = None
             \/ any_capacity
                  (plants (run lib m ps (before_capacity order) df)) = false
             \/ any_capacity (selected lib m ps df) = true
             \/ selected lib m ps df = [])
        /\ (cap_range ps = None ->
            run lib m ps order df = apply_filters lib m ps df)
        /\ (any_capacity (plants df) = false ->
            run lib m ps order df = apply_filters lib m ps df)
        /\ ((forall p, In p (plants df) -> TotalCapacity p <> S754_nan) ->
            run lib m ps order df = apply_filters lib m ps df)).
Proof.
  split; [apply apply_filters_reference |].
  split; [apply apply_filters_idempotent |].
  split.
  - unfold run, apply_filters. cbn [fold_left step].
    now rewrite filter_by_commute.
  - intros order Hperm.
    pose proof (order_independence m ps df order Hperm) as Hiff.
    split; [exact Hiff |]. split; [| split].
    + intros H. apply Hiff. now left.
    + intros H. apply Hiff. right; left.
      eapply any_capacity_sub; [| exact H]. apply run_sub.
    + intros Hall. apply Hiff. do 2 right.
      destruct (selected lib m ps df) as [|p l] eqn:Hs; [now right |].
      left. apply any_capacity_iff. exists p. split; [now left |].
      apply Hall. assert (Hin : In p (selected lib m ps df))
        by (rewrite Hs; now left).
      unfold selected in Hin. now apply filter_In in Hin.
Qed.

(** C9. An empty selection skips its filter: the step returns the table
    unchanged, as with no selection at all, although no row would pass
    the membership test against the empty selection. *)
Theorem empty_selection_skips (col : option string) (f : table) :
  filter_by lib col (Some []) f = f
  /\ filter_by lib col (Some []) f = filter_by lib col None f
  /\ (forall m sel cr,
         apply_filters lib m (mkParams (Some []) sel cr) f
         = apply_filters lib m (mkParams None sel cr) f)
  /\ (forall m sel cr,
         apply_filters lib m (mkParams sel (Some []) cr) f
         = apply_filters lib m (mkParams sel None cr) f)
  /\ (forall p, isin_row lib (columns f) col (Some []) p = false).
Proof.
  repeat split. intros p. unfold isin_row.
  now destruct (astype_str lib _).
Qed.

End Filters.

(** ** The order of binary64 numbers, extremes and truncation *)

Section FloatOrder.

Import PyStr PyFloat Re Spec Dashboard.

Lemma Qle_bool_refl (q : Q) : Qle_bool q q = true.
Proof. apply Qle_bool_iff, Qle_refl. Qed.

Lemma Qle_bool_total (a b : Q) : Qle_bool a b = false -> Qle_bool b a = true.
Proof.
  intros H. apply Qle_bool_iff. apply Qlt_le_weak, Qnot_le_lt.
  intros Hle. apply Qle_bool_iff in Hle. congruence.
Qed.

Lemma Qle_bool_trans (a b c : Q) :
  Qle_bool a b = true -> Qle_bool b c = true -> Qle_bool a c = true.
Proof. rewrite !Qle_bool_iff. apply Qle_trans. Qed.

Lemma leb_refl (x : spec_float) : is_nan x = false -> leb x x = true.
Proof.
  destruct x as [s | s | | s m e]; simpl; try discriminate; intros _;
    try apply Qle_bool_refl.
  now destruct s.
Qed.

Lemma leb_total (x y : spec_float) :
  is_nan x = false -> is_nan y = false -> leb x y = false -> leb y x = true.
Proof.
  destruct x as [sx | sx | | sx mx ex]; try discriminate;
    destruct y as [sy | sy | | sy my ey]; try discriminate;
    intros _ _; simpl;
    try (apply Qle_bool_total);
    try (destruct sx; simpl; congruence);
    try (destruct sy; simpl; congruence).
  destruct sx, sy; simpl; congruence.
Qed.

Lemma leb_trans (x y z : spec_float) :
  leb x y = true -> leb y z = true -> leb x z = true.
Proof.
  destruct x as [sx | sx | | sx mx ex]; try discriminate;
    destruct y as [sy | sy | | sy my ey]; try discriminate;
    destruct z as [sz | sz | | sz mz ez]; try discriminate;
    simpl;
    try (apply Qle_bool_trans);
    try (destruct sx; simpl; try discriminate; try reflexivity);
    try (destruct sy; simpl; try discriminate; try reflexivity);
    try (destruct sz; simpl; try discriminate; try reflexivity);
    auto.
Qed.

(** Between finite numbers the order is that of the exact values. *)
Lemma leb_finite (x y : spec_float) :
  is_finite x = true -> is_finite y = true ->
  (leb x y = true <-> (to_Q x <= to_Q y)%Q).
Proof.
  destruct x as [sx | sx | | sx mx ex]; try discriminate;
    destruct y as [sy | sy | | sy my ey]; try discriminate;
    intros _ _; simpl; apply Qle_bool_iff.
Qed.

(** A number between two finite numbers is finite. *)
Lemma leb_between_finite (a x b : spec_float) :
  is_finite a = true -> is_finite b = true ->
  leb a x = true -> leb x b = true -> is_finite x = true.
Proof.
  destruct a as [sa | sa | | sa ma ea]; try discriminate;
    destruct b as [sb | sb | | sb mb eb]; try discriminate;
    destruct x as [sx | sx | | sx mx ex]; try reflexivity;
    simpl; try discriminate; destruct sx; simpl; discriminate.
Qed.

(** Nothing lies below minus infinity nor above plus infinity. *)
Lemma leb_minus_infinity (x : spec_float) :
  leb x (S754_infinity true) = true -> x = S754_infinity true.
Proof.
  destruct x as [sx | sx | | sx mx ex]; simpl; try discriminate.
  now destruct sx.
Qed.

Lemma leb_plus_infinity (x : spec_float) :
  leb (S754_infinity false) x = true -> x = S754_infinity false.
Proof.
  destruct x as [sx | sx | | sx mx ex]; simpl; try discriminate.
  now destruct sx.
Qed.

Lemma fmin_cases (a b : spec_float) :
  is_nan a = false -> is_nan b = false ->
  (fmin a b = a \/ fmin a b = b)
  /\ leb (fmin a b) a = true /\ leb (fmin a b) b = true.
Proof.
  intros Ha Hb. unfold fmin. destruct (leb a b) eqn:H.
  - repeat split; auto using leb_refl.
  - repeat split; auto using leb_refl, leb_total.
Qed.

Lemma fmax_cases (a b : spec_float) :
  is_nan a = false -> is_nan b = false ->
  (fmax a b = a \/ fmax a b = b)
  /\ leb a (fmax a b) = true /\ leb b (fmax a b) = true.
Proof.
  intros Ha Hb. unfold fmax. destruct (leb a b) eqn:H.
  - repeat split; auto using leb_refl.
  - repeat split; auto using leb_refl, leb_total.
Qed.

Lemma fold_fmin_spec (xs : list spec_float) :
  forall x,
    (forall y, In y (x :: xs) -> is_nan y = false) ->
    In (fold_left fmin xs x) (x :: xs)
    /\ forall y, In y (x :: xs) -> leb (fold_left fmin xs x) y = true.
Proof.
  induction xs as [|a xs IH]; intros x Hn.
  - simpl. split; [now left |]. intros y [<- | []].
    apply leb_refl, Hn. now left.
  - cbn [fold_left].
    assert (Hx : is_nan x = false) by (apply Hn; now left).
    assert (Ha : is_nan a = false) by (apply Hn; right; now left).
    destruct (fmin_cases x a Hx Ha) as [Hc [H1 H2]].
    destruct (IH (fmin x a)) as [Hin Hle].
    { intros y [<- | Hy]; [destruct Hc as [-> | ->]; assumption |].
      apply Hn. right. now right. }
    split.
    + destruct Hin as [Hin | Hin].
      * rewrite <- Hin. destruct Hc as [-> | ->]; simpl; auto.
      * simpl. auto.
    + intros y [<- | [<- | Hy]].
      * eapply leb_trans; [apply Hle; now left | exact H1].
      * eapply leb_trans; [apply Hle; now left | exact H2].
      * apply Hle. now right.
Qed.

Lemma fold_fmax_spec (xs : list spec_float) :
  forall x,
    (forall y, In y (x :: xs) -> is_nan y = false) ->
    In (fold_left fmax xs x) (x :: xs)
    /\ forall y, In y (x :: xs) -> leb y (fold_left fmax xs x) = true.
Proof.
  induction xs as [|a xs IH]; intros x Hn.
  - simpl. split; [now left |]. intros y [<- | []].
    apply leb_refl, Hn. now left.
  - cbn [fold_left].
    assert (Hx : is_nan x = false) by (apply Hn; now left).
    assert (Ha : is_nan a = false) by (apply Hn; right; now left).
    destruct (fmax_cases x a Hx Ha) as [Hc [H1 H2]].
    destruct (IH (fmax x a)) as [Hin Hle].
    { intros y [<- | Hy]; [destruct Hc as [-> | ->]; assumption |].
      apply Hn. right. now right. }
    split.
    + destruct Hin as [Hin | Hin].
      * rewrite <- Hin. destruct Hc as [-> | ->]; simpl; auto.
      * simpl. auto.
    + intros y [<- | [<- | Hy]].
      * eapply leb_trans; [exact H1 | apply Hle; now left].
      * eapply leb_trans; [exact H2 | apply Hle; now left].
      * apply Hle. now right.
Qed.

Lemma filter_notna_not_nan (l : list spec_float) (y : spec_float) :
  In y (filter notna l) -> is_nan y = false.
Proof.
  intros H. apply filter_In in H. destruct H as [_ H].
  unfold notna in H. now destruct (is_nan y).
Qed.

(** The smallest and the largest value of a series are attained and
    bound the others; a series without value has NaN for both. *)
Lemma series_extremes (l : list spec_float) :
  (filter notna l = []
   /\ series_min l = S754_nan /\ series_max l = S754_nan)
  \/ (In (series_min l) (filter notna l)
      /\ In (series_max l) (filter notna l)
      /\ forall x, In x (filter notna l) ->
           leb (series_min l) x = true /\ leb x (series_max l) = true).
Proof.
  unfold series_min, series_max.
  pose proof (filter_notna_not_nan l) as Hn.
  destruct (filter notna l) as [|x xs]; [left; auto |].
  right.
  destruct (fold_fmin_spec xs x Hn) as [H1 H2].
  destruct (fold_fmax_spec xs x Hn) as [H3 H4]. auto.
Qed.

Lemma Qnum_sign (x : Q) : (0 <= Qnum x)%Z <-> (0 <= x)%Q.
Proof. unfold Qle. simpl. lia. Qed.

Lemma truncate_floor (x : Q) : (0 <= x)%Q -> truncate x = Qfloor x.
Proof.
  intros H. apply Qnum_sign in H. destruct x as [n d].
  unfold truncate. simpl in *.
  apply Z.quot_div_nonneg; lia.
Qed.

Lemma truncate_ceiling (x : Q) : (x <= 0)%Q -> truncate x = Qceiling x.
Proof.
  intros H. assert (Hn : (Qnum x <= 0)%Z) by (unfold Qle in H; simpl in H; lia).
  destruct x as [n d]. unfold truncate, Qceiling, Qfloor. simpl in *.
  rewrite <- (Z.opp_involutive n) at 1.
  rewrite Z.quot_opp_l by discriminate.
  f_equal. apply Z.quot_div_nonneg; lia.
Qed.

Lemma Q_sign_cases (x : Q) : (0 <= x)%Q \/ (x <= 0)%Q.
Proof.
  destruct (Qlt_le_dec x 0) as [H | H]; [right; now apply Qlt_le_weak | now left].
Qed.

(** [truncate] gives the integer next to its argument on the side of
    zero. *)
Lemma truncate_toward_zero (x : Q) : toward_zero x (truncate x).
Proof.
  split; intros H.
  - rewrite (truncate_floor x H). split; [apply Qfloor_le | apply Qlt_floor].
  - rewrite (truncate_ceiling x H). split; [| apply Qle_ceiling].
    apply Qceiling_lt.
Qed.

(** [truncate] moves a number by less than one. *)
Lemma truncate_within_one (x : Q) :
  (inject_Z (truncate x - 1) < x)%Q /\ (x < inject_Z (truncate x + 1))%Q.
Proof.
  destruct (truncate_toward_zero x) as [Hp Hn].
  destruct (Q_sign_cases x) as [H | H].
  - destruct (Hp H) as [H1 H2]. split; [| assumption].
    eapply Qlt_le_trans; [| exact H1]. rewrite <- Zlt_Qlt. lia.
  - destruct (Hn H) as [H1 H2]. split; [assumption |].
    eapply Qle_lt_trans; [exact H2 |]. rewrite <- Zlt_Qlt. lia.
Qed.

Lemma truncate_monotone (x y : Q) : (x <= y)%Q -> (truncate x <= truncate y)%Z.
Proof.
  intros Hxy. destruct (Q_sign_cases x) as [Hx | Hx].
  - rewrite (truncate_floor x Hx), (truncate_floor y (Qle_trans _ _ _ Hx Hxy)).
    now apply Qfloor_resp_le.
  - destruct (Q_sign_cases y) as [Hy | Hy].
    + rewrite (truncate_ceiling x Hx), (truncate_floor y Hy).
      apply Z.le_trans with 0%Z.
      * change 0%Z with (Qceiling 0). now apply Qceiling_resp_le.
      * change 0%Z with (Qfloor 0). now apply Qfloor_resp_le.
    + rewrite (truncate_ceiling x Hx), (truncate_ceiling y Hy).
      now apply Qceiling_resp_le.
Qed.

(** The upper bound falls below a number exactly when the number is
    positive and not whole; the lower bound rises above it exactly when
    it is negative and not whole. *)
Lemma truncate_below (x : Q) :
  (inject_Z (truncate x) < x)%Q
  <-> (0 < x)%Q /\ ~ (inject_Z (truncate x) == x)%Q.
Proof.
  destruct (truncate_toward_zero x) as [Hp Hn]. split.
  - intros H. split.
    + apply Qnot_le_lt. intros Hx. destruct (Hn Hx) as [_ H2].
      apply (Qlt_not_le _ _ H H2).
    + intros He. rewrite He in H. apply (Qlt_irrefl _ H).
  - intros [Hx Hne]. destruct (Hp (Qlt_le_weak _ _ Hx)) as [H1 _].
    apply Qle_lteq in H1. destruct H1 as [H1 | H1]; [assumption |].
    contradiction.
Qed.

Lemma truncate_above (x : Q) :
  (x < inject_Z (truncate x))%Q
  <-> (x < 0)%Q /\ ~ (inject_Z (truncate x) == x)%Q.
Proof.
  destruct (truncate_toward_zero x) as [Hp Hn]. split.
  - intros H. split.
    + apply Qnot_le_lt. intros Hx. destruct (Hp Hx) as [H1 _].
      apply (Qlt_not_le _ _ H H1).
    + intros He. rewrite He in H. apply (Qlt_irrefl _ H).
  - intros [Hx Hne]. destruct (Hn (Qlt_le_weak _ _ Hx)) as [_ H2].
    apply Qle_lteq in H2. destruct H2 as [H2 | H2]; [assumption |].
    exfalso. apply Hne. now symmetry.
Qed.

Lemma py_int_finite (x : spec_float) :
  is_finite x = true -> py_int x = inr (truncate (to_Q x)).
Proof. destruct x; try discriminate; reflexivity. Qed.

Lemma py_int_infinite (x : spec_float) :
  is_nan x = false -> is_finite x = false -> py_int x = inl OverflowError.
Proof. destruct x; try discriminate; reflexivity. Qed.

End FloatOrder.

(** ** The sidebar and the filtered table of the page *)

Section PageView.

Import PyStr PyFloat Re Spec Dashboard Page.

Variable lib : pandas.

Lemma In_unique (x : string) (l : list string) : In x (unique l) <-> In x l.
Proof.
  induction l as [|y l IH]; simpl; [reflexivity |].
  rewrite filter_In, IH, negb_true_iff, String.eqb_neq.
  destruct (String.eqb_spec y x) as [-> | Hne]; [tauto |].
  split; [tauto |]. intros [H | H]; [tauto |]. right. split; congruence.
Qed.

Lemma In_insert (x y : string) (l : list string) :
  In x (insert y l) <-> x = y \/ In x l.
Proof.
  induction l as [|z l IH]; simpl; [intuition congruence |].
  destruct (String.leb y z); simpl; rewrite ?IH; intuition congruence.
Qed.

Lemma In_sorted (x : string) (l : list string) : In x (sorted l) <-> In x l.
Proof.
  unfold sorted. induction l as [|y l IH]; simpl; [reflexivity |].
  rewrite In_insert, IH. intuition congruence.
Qed.

(** The options of a column are the texts of its cells that are present. *)
Lemma options_In (df : table) (col s : string) :
  In s (options lib df col)
  <-> exists p, In p (plants df)
                /\ get (columns df) (cells p) col <> NaN
                /\ str lib (get (columns df) (cells p) col) = s.
Proof.
  unfold options. rewrite In_sorted, In_unique, in_map_iff. split.
  - intros [c [Hs Hc]]. apply filter_In in Hc. destruct Hc as [Hc Hn].
    apply in_map_iff in Hc. destruct Hc as [p [<- Hp]].
    exists p. repeat split; auto. now apply notna_cell_true.
  - intros [p [Hp [Hn Hs]]]. exists (get (columns df) (cells p) col).
    split; [assumption |]. apply filter_In. split.
    + apply in_map_iff. eauto.
    + now apply notna_cell_true.
Qed.

Lemma capacities_In (f : table) (x : spec_float) :
  In x (capacities f)
  <-> exists p, In p (plants f) /\ TotalCapacity p = x /\ x <> S754_nan.
Proof.
  unfold capacities. rewrite filter_In, in_map_iff, notna_iff.
  split.
  - intros [[p [H1 H2]] H3]. eauto.
  - intros [p [H1 [H2 H3]]]. eauto.
Qed.

Lemma capacities_nil (f : table) :
  capacities f = [] <-> any_capacity (plants f) = false.
Proof.
  rewrite any_capacity_false. split.
  - intros H p Hp. destruct (TotalCapacity p) eqn:Hc; try reflexivity;
      exfalso;
      (assert (Hin : In (TotalCapacity p) (capacities f))
         by (apply capacities_In; exists p; rewrite Hc;
             repeat split; [assumption | discriminate]));
      rewrite H in Hin; destruct Hin.
  - intros H. destruct (capacities f) as [|x l] eqn:Hc; [reflexivity |].
    assert (Hin : In x (capacities f)) by (rewrite Hc; now left).
    apply capacities_In in Hin. destruct Hin as [p [Hp [Hx Hn]]].
    rewrite (H p Hp) in Hx. congruence.
Qed.

(** The extremes of the capacities of a table that has some. *)
Lemma capacity_extremes (df : table) :
  any_capacity (plants df) = true ->
  let mn := series_min (map TotalCapacity (plants df)) in
  let mx := series_max (map TotalCapacity (plants df)) in
  In mn (capacities df) /\ In mx (capacities df)
  /\ forall x, In x (capacities df) -> leb mn x = true /\ leb x mx = true.
Proof.
  intros Hany. cbv zeta.
  destruct (series_extremes (map TotalCapacity (plants df)))
    as [[He _] | H]; [| exact H].
  apply capacities_nil in He. congruence.
Qed.

(** The possible outcomes of the sidebar. *)
Lemma sidebar_cases (w : widgets) (df : table) (m : meta) :
  let so :=
    if truthy (owner m)
    then Some (multiselect w "Owner" (options lib df (col_name (owner m)))
                           (options lib df (col_name (owner m))))
    else None in
  let sr :=
    if truthy (region m)
    then Some (multiselect w "Country/Area"
                           (options lib df (col_name (region m)))
                           (options lib df (col_name (region m))))
    else None in
  let mn := series_min (map TotalCapacity (plants df)) in
  let mx := series_max (map TotalCapacity (plants df)) in
  let lo := truncate (to_Q mn) in
  let hi := truncate (to_Q mx) in
  (any_capacity (plants df) = false
   /\ sidebar lib w df m = inr (mkParams so sr None))
  \/ (any_capacity (plants df) = true
      /\ (is_finite mn = false \/ is_finite mx = false)
      /\ sidebar lib w df m = inl OverflowError)
  \/ (any_capacity (plants df) = true
      /\ is_finite mn = true /\ is_finite mx = true
      /\ (lo <? hi)%Z && js_safe lo && js_safe hi = false
      /\ sidebar lib w df m = inl StreamlitAPIException)
  \/ (any_capacity (plants df) = true
      /\ is_finite mn = true /\ is_finite mx = true
      /\ (lo <? hi)%Z && js_safe lo && js_safe hi = true
      /\ sidebar lib w df m
         = inr (mkParams so sr
                  (Some (slider w "Capacity Range (ttpa)" lo hi (lo, hi))))).
Proof.
  cbv zeta. unfold sidebar, slider_bounds.
  destruct (any_capacity (plants df)) eqn:Hany; [| left; auto].
  right.
  destruct (capacity_extremes df Hany) as [Hmn [Hmx _]].
  apply filter_notna_not_nan in Hmn, Hmx.
  destruct (is_finite (series_min (map TotalCapacity (plants df)))) eqn:Fmn.
  - rewrite (py_int_finite _ Fmn). cbn [bind].
    destruct (is_finite (series_max (map TotalCapacity (plants df)))) eqn:Fmx.
    + rewrite (py_int_finite _ Fmx). cbn [bind ret].
      right. unfold st_slider.
      destruct ((_ <? _)%Z && _ && _) eqn:Hok.
      * right. repeat split; reflexivity.
      * left. repeat split; reflexivity.
    + rewrite (py_int_infinite _ Hmx Fmx). left. repeat split. now right.
  - rewrite (py_int_infinite _ Hmn Fmn). left. repeat split. now left.
Qed.

(** Once the sidebar is through, a table with capacities has a range,
    and a table without has none. *)
Lemma sidebar_range (w : widgets) (df : table) (m : meta) (ps : params) :
  sidebar lib w df m = inr ps ->
  (any_capacity (plants df) = true -> exists a b, cap_range ps = Some (a, b))
  /\ (any_capacity (plants df) = false -> cap_range ps = None).
Proof.
  intros H.
  destruct (sidebar_cases w df m)
    as [[Hany He] | [[Hany [_ He]] | [[Hany [_ [_ [_ He]]]]
        | [Hany [_ [_ [_ He]]]]]]]; rewrite He in H; try discriminate;
    injection H as <-; cbn [cap_range].
  - split; [congruence | reflexivity].
  - split; [| congruence]. intros _.
    destruct (slider w _ _ _ _) as [a b]. eauto.
Qed.

Lemma selected_rows_sub (m : meta) (ps : params) (df : table) (p : plant) :
  In p (plants (filter_by lib (region m) (sel_regions ps)
                  (filter_by lib (owner m) (sel_owners ps) df))) ->
  In p (plants df).
Proof.
  rewrite !filter_by_plants, !filter_In. tauto.
Qed.

(** As soon as a table with capacities is filtered with a range, either
    no row of the result has a capacity or every row has one. *)
Lemma filtered_capacity_uniform (m : meta) (ps : params) (df : table) :
  (any_capacity (plants df) = true -> cap_range ps <> None) ->
  (any_capacity (plants (apply_filters lib m ps df)) = false)
  \/ (forall p, In p (plants (apply_filters lib m ps df)) ->
                TotalCapacity p <> S754_nan).
Proof.
  intros Hr. unfold apply_filters.
  set (g := filter_by lib (region m) _ _).
  destruct (any_capacity (plants g)) eqn:Hg.
  - right.
    assert (Hdf : any_capacity (plants df) = true).
    { apply any_capacity_iff in Hg. destruct Hg as [p [Hp Hq]].
      apply any_capacity_iff. exists p. split; [| assumption].
      revert Hp. apply selected_rows_sub. }
    destruct (cap_range ps) as [[a b]|]; [| now apply Hr in Hdf].
    intros p Hp. apply filter_capacity_In in Hp. destruct Hp as [_ Hp].
    destruct (Hp Hg) as [Hf _]. intros He. rewrite He in Hf. discriminate.
  - left. unfold filter_capacity.
    destruct (cap_range _) as [[a b]|]; [rewrite Hg |]; exact Hg.
Qed.

Lemma view_inv (w : widgets) (df : table) (m : meta) (f : table) :
  view lib w df m = inr f ->
  exists ps, sidebar lib w df m = inr ps /\ f = apply_filters lib m ps df.
Proof.
  unfold view. destruct (sidebar lib w df m) as [e | ps]; [discriminate |].
  intros H. injection H as <-. eauto.
Qed.

(** X6. When the map is given bubble sizes, none of them is missing, and
    when it is given none, no row of the filtered table has a capacity:
    the filtered table of the page never mixes rows with and without
    capacity, whatever the reader chose in the sidebar. *)
Theorem size_arg_complete (w : widgets) (df : table) (m : meta) (f : table) :
  view lib w df m = inr f ->
  match size_arg f with
  | Some sizes => forall s, In s sizes -> s <> S754_nan
  | None => forall p, In p (plants f) -> TotalCapacity p = S754_nan
  end.
Proof.
  intros Hv. destruct (view_inv w df m f Hv) as [ps [Hs ->]].
  unfold size_arg.
  destruct (filtered_capacity_uniform m ps df) as [H | H].
  - intros Hany. destruct (proj1 (sidebar_range w df m ps Hs) Hany)
      as [a [b ->]]. discriminate.
  - rewrite H. now apply any_capacity_false.
  - destruct (any_capacity (plants (apply_filters lib m ps df))) eqn:Hany.
    + intros s Hs'. apply in_map_iff in Hs'. destruct Hs' as [p [<- Hp]].
      now apply H.
    + now apply any_capacity_false.
Qed.

Lemma inject_Z_le (a b : Z) : (a <= b)%Z -> (inject_Z a <= inject_Z b)%Q.
Proof. intros H. now rewrite <- Zle_Qle. Qed.

(** X8. Widening the capacity range, with the same selections, never
    removes a row from the output of the filter engine. *)
Theorem widening_keeps_rows
        (m : meta) (ps ps' : params) (df : table) (lo hi lo' hi' : Z) :
  sel_owners ps' = sel_owners ps ->
  sel_regions ps' = sel_regions ps ->
  cap_range ps = Some (lo, hi) ->
  cap_range ps' = Some (lo', hi') ->
  (lo' <= lo)%Z -> (hi <= hi')%Z ->
  forall p,
    In p (plants (apply_filters lib m ps df)) ->
    In p (plants (apply_filters lib m ps' df)).
Proof.
  intros Ho Hr Hc Hc' Hlo Hhi p. unfold apply_filters.
  rewrite Ho, Hr, Hc, Hc', !filter_capacity_In.
  intros [Hp Hin]. split; [assumption |].
  intros Hany. destruct (Hin Hany) as [Hf [H1 H2]].
  split; [assumption |].
  apply inject_Z_le in Hlo, Hhi.
  split; eapply Qle_trans; eassumption.
Qed.

(** A row whose cell is present passes the default selection on its
    column. *)
Lemma default_selection_passes (df : table) (col : option string) (p : plant) :
  In p (plants df) -> cell_of df col p <> NaN ->
  passes_selection lib (columns df) col
    (Some (options lib df (col_name col))) p = true.
Proof.
  intros Hp Hc. unfold passes_selection.
  destruct (chosen _ && truthy col); [| reflexivity].
  unfold isin_row, astype_str. fold (cell_of df col p).
  rewrite (proj2 (notna_cell_true _) Hc).
  cbn [selection]. apply mem_iff, options_In.
  exists p. auto.
Qed.

(** C10. The slider runs from [int] of the smallest capacity to [int] of
    the largest, truncated toward zero, and this is also its default
    value.  Whatever range within these bounds the reader sets, a row
    whose capacity lies above the upper bound, or below the lower one, is
    not in the output of the filter engine; the rows of largest capacity
    are among them exactly when that capacity is positive and not whole,
    those of smallest capacity exactly when it is negative and not
    whole. *)
Theorem truncated_slider_bounds
        (w : widgets) (df : table) (m : meta) (ps : params) :
  sidebar lib w df m = inr ps ->
  (exists p, In p (plants df) /\ TotalCapacity p <> S754_nan) ->
  let mn := series_min (map TotalCapacity (plants df)) in
  let mx := series_max (map TotalCapacity (plants df)) in
  let lo := truncate (to_Q mn) in
  let hi := truncate (to_Q mx) in
  (In mn (capacities df) /\ In mx (capacities df)
   /\ forall x, In x (capacities df) ->
        is_finite x = true
        /\ (to_Q mn <= to_Q x)%Q /\ (to_Q x <= to_Q mx)%Q)
  /\ (cap_range ps = Some (slider w "Capacity Range (ttpa)" lo hi (lo, hi))
      /\ (lo < hi)%Z
      /\ toward_zero (to_Q mn) lo /\ toward_zero (to_Q mx) hi)
  /\ (forall a b p,
        cap_range ps = Some (a, b) -> (lo <= a)%Z -> (b <= hi)%Z ->
        TotalCapacity p <> S754_nan ->
        (inject_Z hi < to_Q (TotalCapacity p))%Q
        \/ (to_Q (TotalCapacity p) < inject_Z lo)%Q ->
        ~ In p (plants (apply_filters lib m ps df)))
  /\ ((inject_Z hi < to_Q mx)%Q <-> (0 < to_Q mx)%Q /\ ~ whole mx)
  /\ ((to_Q mn < inject_Z lo)%Q <-> (to_Q mn < 0)%Q /\ ~ whole mn).
Proof.
  intros Hs Hex. cbv zeta.
  assert (Hany : any_capacity (plants df) = true)
    by now apply any_capacity_iff.
  destruct (capacity_extremes df Hany) as [Hmn [Hmx Hb]].
  destruct (sidebar_cases w df m)
    as [[Hn He] | [[_ [_ He]] | [[_ [_ [_ [_ He]]]]
        | [_ [Fmn [Fmx [Hok He]]]]]]]; rewrite He in Hs; try discriminate;
    [congruence |].
  injection Hs as <-. cbn [cap_range].
  apply andb_true_iff in Hok. destruct Hok as [Hok _].
  apply andb_true_iff in Hok. destruct Hok as [Hlt _].
  apply Z.ltb_lt in Hlt.
  split; [| split; [| split; [| split]]].
  - repeat split; try assumption.
    + destruct (Hb x H) as [H1 H2].
      exact (leb_between_finite _ _ _ Fmn Fmx H1 H2).
    + destruct (Hb x H) as [H1 H2].
      apply (leb_finite _ _ Fmn) in H1; [assumption |].
      exact (leb_between_finite _ _ _ Fmn Fmx H1 H2).
    + destruct (Hb x H) as [H1 H2].
      apply leb_finite in H2; [assumption | | assumption].
      exact (leb_between_finite _ _ _ Fmn Fmx H1 H2).
  - split; [reflexivity |]. split; [assumption |].
    split; apply truncate_toward_zero.
  - intros a b p Hr Hlo Hhi Hp Hout Hin. unfold apply_filters in Hin.
    cbn [cap_range] in Hin. rewrite Hr in Hin.
    apply filter_capacity_In in Hin. destruct Hin as [Hsel Hin].
    destruct Hin as [_ [H1 H2]].
    { apply any_capacity_iff. eauto. }
    apply inject_Z_le in Hlo, Hhi.
    destruct Hout as [Hout | Hout].
    + apply (Qlt_not_le _ _ Hout). eapply Qle_trans; eassumption.
    + apply (Qlt_not_le _ _ Hout). eapply Qle_trans; eassumption.
  - rewrite truncate_below. unfold whole. rewrite Fmx. tauto.
  - rewrite truncate_above. unfold whole. rewrite Fmn. tauto.
Qed.

(** X5. The capacity slider is made exactly when some row has a capacity.
    The sidebar then stops with [OverflowError] when a capacity is
    infinite, and with the exception of [st.slider] unless the two bounds
    are safe integers, the lower one strictly below the upper one;
    otherwise the slider runs between bounds that every capacity of the
    table exceeds by less than one. *)
Theorem slider_bounds_enclose (w : widgets) (df : table) (m : meta) :
  let mn := series_min (map TotalCapacity (plants df)) in
  let mx := series_max (map TotalCapacity (plants df)) in
  let lo := truncate (to_Q mn) in
  let hi := truncate (to_Q mx) in
  ((forall p, In p (plants df) -> TotalCapacity p = S754_nan) ->
   exists ps, sidebar lib w df m = inr ps /\ cap_range ps = None)
  /\ ((exists p s, In p (plants df) /\ TotalCapacity p = S754_infinity s) ->
      sidebar lib w df m = inl OverflowError)
  /\ ((exists p, In p (plants df) /\ TotalCapacity p <> S754_nan) ->
      (forall p, In p (plants df) -> TotalCapacity p <> S754_nan ->
                 is_finite (TotalCapacity p) = true) ->
      (lo <= hi)%Z
      /\ (forall p, In p (plants df) -> TotalCapacity p <> S754_nan ->
            (inject_Z (lo - 1) < to_Q (TotalCapacity p))%Q
            /\ (to_Q (TotalCapacity p) < inject_Z (hi + 1))%Q)
      /\ ((lo < hi)%Z /\ js_safe lo = true /\ js_safe hi = true ->
          exists ps,
            sidebar lib w df m = inr ps
            /\ cap_range ps
               = Some (slider w "Capacity Range (ttpa)" lo hi (lo, hi)))
      /\ (~ ((lo < hi)%Z /\ js_safe lo = true /\ js_safe hi = true) ->
          sidebar lib w df m = inl StreamlitAPIException)).
Proof.
  cbv zeta. split; [| split].
  - intros Hnone. apply any_capacity_false in Hnone.
    destruct (sidebar_cases w df m)
      as [[_ He] | [[Hany _] | [[Hany _] | [Hany _]]]]; try congruence.
    eexists. split; [exact He | reflexivity].
  - intros [p [s [Hp Hc]]].
    assert (Hin : In (S754_infinity s) (capacities df)).
    { apply capacities_In. exists p. repeat split; auto. discriminate. }
    assert (Hany : any_capacity (plants df) = true).
    { apply any_capacity_iff. exists p. split; [assumption |].
      rewrite Hc. discriminate. }
    destruct (capacity_extremes df Hany) as [_ [_ Hb]].
    destruct (Hb _ Hin) as [H1 H2].
    destruct (sidebar_cases w df m)
      as [[Hn _] | [[_ [_ He]] | [[_ [Fmn [Fmx _]]] | [_ [Fmn [Fmx _]]]]]];
      try congruence; exfalso; destruct s.
    + apply leb_minus_infinity in H1. rewrite H1 in Fmn. discriminate.
    + apply leb_plus_infinity in H2. rewrite H2 in Fmx. discriminate.
    + apply leb_minus_infinity in H1. rewrite H1 in Fmn. discriminate.
    + apply leb_plus_infinity in H2. rewrite H2 in Fmx. discriminate.
  - intros Hex Hfin.
    assert (Hany : any_capacity (plants df) = true)
      by now apply any_capacity_iff.
    destruct (capacity_extremes df Hany) as [Hmn [Hmx Hb]].
    assert (Fin : forall x, In x (capacities df) -> is_finite x = true).
    { intros x Hx. apply capacities_In in Hx.
      destruct Hx as [p [Hp [<- Hn]]]. now apply Hfin. }
    pose proof (Fin _ Hmn) as Fmn. pose proof (Fin _ Hmx) as Fmx.
    assert (Hq : forall x, In x (capacities df) ->
                 (to_Q (series_min (map TotalCapacity (plants df))) <= to_Q x)%Q
                 /\ (to_Q x
                     <= to_Q (series_max (map TotalCapacity (plants df))))%Q).
    { intros x Hx. destruct (Hb x Hx) as [H1 H2].
      apply leb_finite in H1, H2; auto. }
    split; [| split; [| split]].
    + apply truncate_monotone. now apply Hq.
    + intros p Hp Hn.
      assert (Hin : In (TotalCapacity p) (capacities df))
        by (apply capacities_In; eauto).
      destruct (Hq _ Hin) as [H1 H2].
      destruct (truncate_within_one
                  (to_Q (series_min (map TotalCapacity (plants df)))))
        as [Hlo _].
      destruct (truncate_within_one
                  (to_Q (series_max (map TotalCapacity (plants df)))))
        as [_ Hhi].
      split; [eapply Qlt_le_trans | eapply Qle_lt_trans]; eassumption.
    + intros [Hlt [Hs1 Hs2]].
      destruct (sidebar_cases w df m)
        as [[Hn _] | [[_ [[F | F] _]] | [[_ [_ [_ [Hok _]]]]
            | [_ [_ [_ [_ He]]]]]]]; try congruence.
      * apply Z.ltb_lt in Hlt. rewrite Hlt, Hs1, Hs2 in Hok. discriminate.
      * eexists. split; [exact He | reflexivity].
    + intros Hno.
      destruct (sidebar_cases w df m)
        as [[Hn _] | [[_ [[F | F] _]] | [[_ [_ [_ [_ He]]]]
            | [_ [_ [_ [Hok _]]]]]]]; try congruence.
      exfalso. apply Hno.
      apply andb_true_iff in Hok. destruct Hok as [Hok Hs2].
      apply andb_true_iff in Hok. destruct Hok as [Hlt Hs1].
      apply Z.ltb_lt in Hlt. auto.
Qed.

(** X9. With the sidebar untouched and its slider accepted, the filtered
    table is the whole loaded table as soon as no owner and no region
    cell is missing and the capacities are either all missing or all
    whole numbers. *)
Theorem untouched_view_complete (df : table) (m : meta) (ps : params) :
  sidebar lib untouched df m = inr ps ->
  column_complete df (owner m) ->
  column_complete df (region m) ->
  (forall p, In p (plants df) -> TotalCapacity p = S754_nan)
  \/ (forall p, In p (plants df) -> whole (TotalCapacity p)) ->
  apply_filters lib m ps df = df
  /\ view lib untouched df m = inr df.
Proof.
  intros Hs Ho Hr Hcap.
  assert (Hf : apply_filters lib m ps df = df);
    [| split; [exact Hf | unfold view; rewrite Hs; cbn [bind ret]; now rewrite Hf]].
  assert (Hstep : forall col,
    column_complete df col ->
    filter_by lib col
      (if truthy col then Some (options lib df (col_name col)) else None)
      df = df).
  { intros col Hcol. destruct (truthy col) eqn:Ht; [| now destruct col].
    apply filter_by_fixed. intros p Hp.
    apply default_selection_passes; [assumption |]. now apply Hcol. }
  destruct (sidebar_cases untouched df m)
    as [[Hany He] | [[_ [_ He]] | [[_ [_ [_ [_ He]]]]
        | [Hany [Fmn [Fmx [_ He]]]]]]]; rewrite He in Hs; try discriminate;
    injection Hs as <-; unfold apply_filters, untouched;
    cbn [sel_owners sel_regions cap_range multiselect slider];
    rewrite (Hstep _ Ho), (Hstep _ Hr); [reflexivity |].
  destruct Hcap as [Hnone | Hall].
  { apply any_capacity_false in Hnone. congruence. }
  destruct (capacity_extremes df Hany) as [Hmn [Hmx Hb]].
  unfold filter_capacity. rewrite Hany.
  rewrite filter_all; [apply table_eta |].
  intros p Hp. destruct (Hall p Hp) as [Fp Wp].
  assert (Hin : In (TotalCapacity p) (capacities df)).
  { apply capacities_In. exists p. repeat split; auto.
    intros He'. rewrite He' in Fp. discriminate. }
  destruct (Hb _ Hin) as [H1 H2].
  apply leb_finite in H1, H2; auto.
  apply capacities_In in Hmn, Hmx.
  destruct Hmn as [pn [Hpn [Hcn _]]]. destruct Hmx as [px [Hpx [Hcx _]]].
  destruct (Hall pn Hpn) as [_ Wmn]. destruct (Hall px Hpx) as [_ Wmx].
  rewrite Hcn in Wmn. rewrite Hcx in Wmx.
  apply between_iff. split; [assumption |].
  rewrite Wmn, Wmx. auto.
Qed.

(** X10. With the sidebar untouched, as soon as some row has an owner and
    no owner is printed as ["nan"], the owner step keeps exactly the rows
    that have an owner: a row whose owner cell is missing is not shown. *)
Theorem untouched_view_drops_ownerless
        (df : table) (m : meta) (ps : params) :
  sidebar lib untouched df m = inr ps ->
  truthy (owner m) = true ->
  options lib df (col_name (owner m)) <> [] ->
  ~ In "nan" (options lib df (col_name (owner m))) ->
  forall p,
    In p (plants df) ->
    (In p (plants (filter_by lib (owner m) (sel_owners ps) df))
     <-> cell_of df (owner m) p <> NaN)
    /\ (cell_of df (owner m) p = NaN ->
        ~ In p (plants (apply_filters lib m ps df))
        /\ forall f, view lib untouched df m = inr f -> ~ In p (plants f)).
Proof.
  intros Hs Ht Hne Hnan p Hp.
  assert (Hso : sel_owners ps = Some (options lib df (col_name (owner m)))).
  { destruct (sidebar_cases untouched df m)
      as [[_ He] | [[_ [_ He]] | [[_ [_ [_ [_ He]]]]
          | [_ [_ [_ [_ He]]]]]]]; rewrite He in Hs; try discriminate;
      injection Hs as <-; cbn [sel_owners untouched multiselect];
      now rewrite Ht. }
  rewrite Hso.
  assert (Hiff :
    In p (plants (filter_by lib (owner m)
                    (Some (options lib df (col_name (owner m)))) df))
    <-> cell_of df (owner m) p <> NaN).
  { rewrite filter_by_plants, filter_In. split.
    - intros [_ Hpass] Hc.
      unfold passes_selection in Hpass. rewrite Ht in Hpass.
      destruct (options lib df (col_name (owner m))) eqn:Hopts;
        [congruence |].
      cbn [chosen andb] in Hpass. unfold isin_row, astype_str in Hpass.
      fold (cell_of df (owner m) p) in Hpass. rewrite Hc in Hpass.
      cbn [notna_cell notna is_nan negb] in Hpass.
      destruct (keeps_missing lib); [discriminate |].
      apply mem_iff in Hpass. cbn [selection] in Hpass. now apply Hnan.
    - intros Hc. split; [assumption |].
      now apply default_selection_passes. }
  split; [exact Hiff |].
  intros Hc.
  assert (Hout : ~ In p (plants (apply_filters lib m ps df))).
  { intros Hin. unfold apply_filters in Hin. rewrite Hso in Hin.
    rewrite filter_capacity_plants, filter_In in Hin. destruct Hin as [Hin _].
    rewrite filter_by_plants, filter_In in Hin. destruct Hin as [Hin _].
    apply Hiff in Hin. contradiction. }
  split; [exact Hout |].
  intros f Hv. unfold view in Hv. rewrite Hs in Hv. cbn [bind ret] in Hv.
  injection Hv as <-. exact Hout.
Qed.

End PageView.

(** ** The loaded table, further invariants *)

Section LoadedInvariants.

Import PyStr PyFloat Re Spec Dashboard Page.

Variable lib : pandas.

Lemma lstrip_head (s : string) : head_not is_space (lstrip s).
Proof.
  induction s as [|c s IH]; simpl; [exact I |].
  destruct (is_space c) eqn:Hc; [exact IH | exact Hc].
Qed.

Lemma lstrip_fixed (s : string) : head_not is_space s -> lstrip s = s.
Proof. destruct s as [|c s]; simpl; intros H; [| rewrite H]; reflexivity. Qed.

Lemma rstrip_head (s : string) :
  head_not is_space s -> head_not is_space (rstrip s).
Proof.
  destruct s as [|c s]; simpl; intros H; [exact I |].
  destruct (rstrip s); [rewrite H |]; exact H.
Qed.

Lemma rstrip_idempotent (s : string) : rstrip (rstrip s) = rstrip s.
Proof.
  induction s as [|c s IH]; [reflexivity |].
  cbn [rstrip]. destruct (rstrip s) as [|d t] eqn:Ht.
  - destruct (is_space c) eqn:Hc; [reflexivity |].
    cbn [rstrip]. now rewrite Hc.
  - cbn [rstrip]. cbn [rstrip] in IH. now rewrite IH.
Qed.

Lemma strip_clean (s : string) :
  lstrip (strip s) = strip s /\ rstrip (strip s) = strip s.
Proof.
  unfold strip. split.
  - apply lstrip_fixed, rstrip_head, lstrip_head.
  - apply rstrip_idempotent.
Qed.

(** X1. Every column name of a loaded table is free of leading and of
    trailing whitespace. *)
Theorem loaded_columns_stripped (fs : filesystem) (df : table) (m : meta) :
  load_data lib fs = inr (df, m) ->
  forall c, In c (columns df) ->
    lstrip c = c /\ rstrip c = c /\ strip c = c.
Proof.
  intros H c Hc.
  destruct (load_data_inv lib fs df m H)
    as [xls [coord [_ [_ [_ [-> _]]]]]].
  cbn [columns] in Hc. apply in_map_iff in Hc. destruct Hc as [c0 [<- _]].
  destruct (strip_clean c0) as [Hl Hr].
  repeat split; try assumption.
  unfold strip at 1. now rewrite Hl, Hr.
Qed.

Lemma to_numeric_not_text (c : cell) (s : string) :
  to_numeric lib c <> Text s.
Proof. destruct c; discriminate. Qed.

(** X2. Loading makes the capacity columns numeric, stores the total in
    a sheet column named [TotalCapacity] when there is one, and touches
    no other column: in each loaded row, a cell of a capacity column is
    the sheet's cell made numeric, hence never text, the cell of a column
    [TotalCapacity] is the total of the row, and every other cell is the
    sheet's cell. *)
Theorem loaded_cells_coerced (fs : filesystem) (df : table) (m : meta) :
  load_data lib fs = inr (df, m) ->
  (forall p c s,
      In p (plants df) -> In c (cap_cols m) ->
      get (columns df) (cells p) c <> Text s)
  /\ (forall p,
        In p (plants df) -> In "TotalCapacity" (columns df) ->
        get (columns df) (cells p) "TotalCapacity" = Num (TotalCapacity p))
  /\ exists xls coord,
       fs path = Some xls
       /\ Forall2
            (fun p r =>
               forall c,
                 (In c (cap_cols m) ->
                  get (columns df) (cells p) c
                  = to_numeric lib (get (columns df) r c))
                 /\ (~ In c (cap_cols m) -> c <> "TotalCapacity" ->
                     get (columns df) (cells p) c = get (columns df) r c))
            (plants df)
            (filter (has_coordinates lib (columns df) coord)
                    (sheet_rows xls)).
Proof.
  intros H.
  destruct (load_data_inv lib fs df m H)
    as [xls [coord [Hfs [_ [_ [-> ->]]]]]].
  clear H. cbn [columns plants cap_cols].
  set (cols := map strip (f_columns (read_excel xls sheet_name))).
  set (caps := filter is_cap_col (cols ++ ["Latitude"; "Longitude"])).
  assert (Hcap : forall r c,
    In c caps ->
    get cols (cells (with_total_capacity lib cols caps
                       (joined lib cols coord r))) c
    = to_numeric lib (get cols r c)).
  { intros r c Hc.
    pose proof (loaded_cell lib cols caps (joined lib cols coord r) c) as Hg.
    cbv zeta in Hg. rewrite Hg.
    rewrite (cap_col_not_total c (loaded_caps_are_cap_cols _ c Hc)).
    cbn [andb]. now rewrite (proj2 (mem_iff c caps) Hc). }
  split; [| split].
  - intros p c s Hp Hc. rewrite map_map in Hp. apply in_map_iff in Hp.
    destruct Hp as [r [<- _]]. rewrite (Hcap r c Hc).
    apply to_numeric_not_text.
  - intros p Hp Hin. rewrite map_map in Hp. apply in_map_iff in Hp.
    destruct Hp as [r [<- _]].
    pose proof (loaded_cell lib cols caps (joined lib cols coord r)
                  "TotalCapacity") as Hg.
    cbv zeta in Hg. rewrite Hg.
    now rewrite String.eqb_refl, (proj2 (mem_iff _ cols) Hin).
  - exists xls, coord. split; [assumption |].
    rewrite map_map. apply Forall2_map_left. intros r _ c.
    split; [apply Hcap |]. intros Hout Hne.
    pose proof (loaded_cell lib cols caps (joined lib cols coord r) c) as Hg.
    cbv zeta in Hg. rewrite Hg.
    rewrite (proj2 (String.eqb_neq c "TotalCapacity") Hne). cbn [andb].
    destruct (mem c caps) eqn:Hm; [| reflexivity].
    apply mem_iff in Hm. contradiction.
Qed.

End LoadedInvariants.

(** ** The map arguments *)

Section MapArguments.

Import PyStr PyFloat Re Spec Dashboard Page.

Variable lib : pandas.

Lemma substring_of_trans (a b c : string) :
  substring_of a b -> substring_of b c -> substring_of a c.
Proof.
  intros [u [v ->]] [u' [v' ->]].
  exists (u' ++ u)%string, (v ++ v')%string.
  now rewrite !append_assoc.
Qed.

Lemma find_ext_all {A : Type} (f g : A -> bool) (l : list A) :
  (forall a, f a = g a) -> find f l = find g l.
Proof.
  intros H. induction l as [|a l IH]; simpl; [reflexivity |].
  now rewrite H, IH.
Qed.

(** A candidate that contains another candidate adds nothing to it. *)
Lemma pick_redundant_key (cols : list string) (k1 k2 : string) :
  substring_of (lower k1) (lower k2) ->
  pick cols [k1; k2] = pick cols [k1].
Proof.
  intros H. unfold pick. apply find_ext_all. intros c. simpl.
  rewrite !orb_false_r.
  destruct (contains (lower k1) (lower c)) eqn:H1; [reflexivity |].
  destruct (contains (lower k2) (lower c)) eqn:H2; [| reflexivity].
  apply contains_iff in H2.
  apply (substring_of_trans _ _ _ H), contains_iff in H2. congruence.
Qed.

Lemma pick_all_columns (f : table) (keys : list string) :
  pick ["Latitude"; "Longitude"; "TotalCapacity"] keys = None ->
  pick (all_columns f) keys = pick (columns f) keys.
Proof.
  unfold pick, all_columns. intros H. rewrite find_app.
  destruct (find _ (columns f)); [reflexivity |].
  destruct (mem "TotalCapacity" (columns f)); [| exact H].
  change ["Latitude"; "Longitude"; "TotalCapacity"]
    with (["Latitude"; "Longitude"] ++ ["TotalCapacity"]) in H.
  rewrite find_app in H. rewrite app_nil_r.
  now destruct (find _ ["Latitude"; "Longitude"]).
Qed.

(** X3. The hover name of the map is the first column containing
    ["plant name"], else the owner column: the second candidate,
    ["plant name (english)"], never changes the answer, and neither do
    the derived columns. *)
Theorem hover_name_resolution (f : table) (m : meta) :
  hover_name f m = py_or (pick (columns f) ["plant name"]) (owner m)
  /\ forall cols k1 k2,
       substring_of (lower k1) (lower k2) ->
       pick cols [k1; k2] = pick cols [k1].
Proof.
  split; [| exact pick_redundant_key].
  unfold hover_name. rewrite pick_all_columns by reflexivity.
  rewrite pick_redundant_key; [reflexivity |].
  exists EmptyString, " (english)". reflexivity.
Qed.

Lemma pick_nonempty (cols keys : list string) (c : string) :
  (forall k, In k keys -> lower k <> EmptyString) ->
  pick cols keys = Some c -> c <> EmptyString.
Proof.
  intros Hk H. unfold pick in H. apply find_some in H. destruct H as [_ H].
  apply existsb_exists in H. destruct H as [k' [Hin H]].
  apply in_map_iff in Hin. destruct Hin as [k [<- Hin]].
  apply lower_nonempty. eapply contains_nonempty; [| exact H]. now apply Hk.
Qed.

Lemma or_default_resolved (c : string) (d : string) :
  c <> EmptyString -> or_default (Some c) d = c.
Proof. intros H. destruct c; [congruence | reflexivity]. Qed.

Lemma pick_none_not_in (cols keys : list string) (c : string) :
  pick cols keys = None ->
  existsb (fun k => contains k (lower c)) (map lower keys) = true ->
  ~ In c cols.
Proof.
  unfold pick. intros H Hc Hin.
  apply (find_none _ _ H) in Hin. congruence.
Qed.

(** X4. The first two keys of the hover data name a column of the loaded
    table exactly when the owner, respectively the region, resolved: the
    stand-in names ["Owner"] and ["Country/Area"] used otherwise are never
    columns of the table.  The region is unresolved exactly when no column
    contains ["country"] or ["region"]. *)
Theorem hover_data_fallback_keys (fs : filesystem) (df : table) (m : meta) :
  load_data lib fs = inr (df, m) ->
  (In (or_default (owner m) "Owner") (columns df) <-> owner m <> None)
  /\ (In (or_default (region m) "Country/Area") (columns df)
      <-> region m <> None)
  /\ (region m = None
      <-> forall c, In c (columns df) -> ~ key_matches ["country"; "region"] c).
Proof.
  intros H.
  destruct (load_data_inv lib fs df m H)
    as [xls [coord [_ [_ [_ [-> ->]]]]]].
  clear H. cbn [owner region columns].
  set (cols := map strip (f_columns (read_excel xls sheet_name))).
  rewrite !pick_derived by reflexivity.
  assert (Hkeys1 : forall k, In k ["owner"] -> lower k <> EmptyString)
    by (intros k [<- | []]; discriminate).
  assert (Hkeys2 : forall k, In k ["country/area"] -> lower k <> EmptyString)
    by (intros k [<- | []]; discriminate).
  assert (Hkeys3 : forall k, In k ["country"; "region"] ->
                             lower k <> EmptyString)
    by (intros k [<- | [<- | []]]; discriminate).
  split; [| split].
  - destruct (pick cols ["owner"]) as [c|] eqn:Hc.
    + rewrite (or_default_resolved c _ (pick_nonempty _ _ _ Hkeys1 Hc)).
      split; [discriminate | intros _; eapply pick_found; eassumption].
    + split; [| congruence]. intros Hin. exfalso.
      revert Hin. now apply (pick_none_not_in cols ["owner"]).
  - destruct (pick cols ["country/area"]) as [c|] eqn:Hc.
    + pose proof (pick_nonempty _ _ _ Hkeys2 Hc) as Hne.
      assert (Hor : py_or (Some c) (pick cols ["country"; "region"]) = Some c)
        by (destruct c; [congruence | reflexivity]).
      rewrite Hor, (or_default_resolved c _ Hne).
      split; [discriminate | intros _; eapply pick_found; eassumption].
    + cbn [py_or]. destruct (pick cols ["country"; "region"]) as [c|] eqn:Hc2.
      * rewrite (or_default_resolved c _ (pick_nonempty _ _ _ Hkeys3 Hc2)).
        split; [discriminate | intros _; eapply pick_found; eassumption].
      * split; [| congruence]. intros Hin. exfalso.
        revert Hin. now apply (pick_none_not_in cols ["country"; "region"]).
  - pose proof (pick_first cols ["country"; "region"]) as Hfb.
    destruct (pick cols ["country/area"]) as [c|] eqn:Hc.
    + pose proof (pick_nonempty _ _ _ Hkeys2 Hc) as Hne.
      assert (Hor : py_or (Some c) (pick cols ["country"; "region"]) = Some c)
        by (destruct c; [congruence | reflexivity]).
      rewrite Hor. split; [discriminate |]. intros Hall. exfalso.
      apply (Hall c (pick_found _ _ _ Hc)).
      pose proof (pick_first cols ["country/area"]) as Hf. rewrite Hc in Hf.
      destruct Hf as [_ [_ [_ [[k [[<- | []] Hk]] _]]]].
      exists "country". split; [now left |].
      eapply substring_of_trans; [| exact Hk].
      exists EmptyString, "/area". reflexivity.
    + cbn [py_or]. destruct (pick cols ["country"; "region"]) as [c|] eqn:Hc2.
      * split; [discriminate |]. intros Hall. exfalso.
        destruct Hfb as [pre [post [Hcols [Hm _]]]].
        apply (Hall c); [| exact Hm].
        eapply pick_found; eassumption.
      * split; [intros _; exact Hfb | reflexivity].
Qed.

End MapArguments.

(** ** Signs of coordinates *)

Section Signs.

Import PyStr PyFloat Re Spec Dashboard Page.

Variable lib : pandas.

Lemma binary_round_aux_opp (s : bool) (m e : Z) (l : location) :
  binary_round_aux prec emax (negb s) m e l
  = SFopp (binary_round_aux prec emax s m e l).
Proof.
  unfold binary_round_aux.
  destruct (shr_fexp prec emax m e l) as [mrs' e'].
  destruct (shr_fexp prec emax _ e' loc_Exact) as [mrs'' e''].
  destruct (shr_m mrs''); try reflexivity.
  destruct (e'' <=? emax - prec)%Z; reflexivity.
Qed.

Lemma of_decimal_opp (n : Z) (k : nat) :
  of_decimal true n k = SFopp (of_decimal false n k).
Proof.
  unfold of_decimal. destruct n as [|m|m]; try reflexivity.
  unfold SFdiv. destruct (SFdiv_core_binary _ _ _ _ _ _) as [[mz ez] lz].
  apply (binary_round_aux_opp false).
Qed.

Lemma unsigned_is_decimal (a : string) :
  unsigned_decimal a -> decimal a /\ decimal (String "-" a).
Proof.
  intros [ip [frac [-> [Hip Hf]]]]. split.
  - exists EmptyString, ip, frac. auto.
  - exists "-", ip, frac. auto.
Qed.

Lemma py_float_negated (a : string) (x : spec_float) :
  unsigned_decimal a -> py_float a = Some x ->
  py_float (String "-" a) = Some (SFopp x).
Proof.
  intros [ip [frac [-> [[Hne Hip] _]]]].
  destruct ip as [|c ip]; [congruence |].
  simpl in Hip. apply andb_true_iff in Hip. destruct Hip as [Hc _].
  unfold py_float.
  change (strip_sign (String "-" (String c ip ++ frac)))
    with (true, (String c ip ++ frac)%string).
  change (String c ip ++ frac)%string with (String c (ip ++ frac)).
  rewrite (strip_sign_digit c _ Hc).
  destruct (split_dot (String c (ip ++ frac))) as [ip' fp].
  destruct (_ && _); [| discriminate].
  intros H. injection H as <-. now rewrite of_decimal_opp.
Qed.

Lemma row_entries_of_text (v a b : string) (x y : spec_float) :
  coordinate_text v a b -> py_float a = Some x -> py_float b = Some y ->
  row_entries v = (Some x, Some y).
Proof.
  intros Hv Hx Hy. unfold row_entries, float_group.
  rewrite (pat_complete v a b Hv). simpl. now rewrite Hx, Hy.
Qed.

(** X11. A minus sign in front of the first number of a coordinate text
    negates the latitude and leaves the longitude: the parser gives
    opposite latitudes, and the same longitude, to the two texts. *)
Theorem negated_latitude (a b w1 w2 w3 w4 : string) :
  unsigned_decimal a -> decimal b ->
  blank w1 -> blank w2 -> blank w3 -> blank w4 ->
  exists x y,
    parse_coordinates lib
      [Text (w1 ++ a ++ w2 ++ "," ++ w3 ++ b ++ w4)%string;
       Text (w1 ++ String "-" a ++ w2 ++ "," ++ w3 ++ b ++ w4)%string]
    = inr ([Some x; Some (SFopp x)], [Some y; Some y]).
Proof.
  intros Ha Hb H1 H2 H3 H4.
  destruct (unsigned_is_decimal a Ha) as [Hda Hdn].
  destruct (py_float_decimal a Hda) as [x [Hx _]].
  destruct (py_float_decimal b Hb) as [y [Hy _]].
  exists x, y. unfold parse_coordinates. rewrite parse_loop_eq.
  cbn [map astype_str notna_cell str forallb is_text andb entries fst snd app].
  rewrite (row_entries_of_text _ a b x y); auto.
  - rewrite (row_entries_of_text _ (String "-" a) b (SFopp x) y); auto.
    + exists w1, w2, w3, w4. auto 10.
    + now apply py_float_negated.
  - exists w1, w2, w3, w4. auto 10.
Qed.

End Signs.

(** ** Whitespace around a coordinate text *)

Section Trimming.

Import PyStr PyFloat Re Spec Dashboard Page.

Variable lib : pandas.

Lemma all_chars_app (p : ascii -> bool) (s t : string) :
  all_chars p (s ++ t) = all_chars p s && all_chars p t.
Proof.
  induction s as [|c s IH]; simpl; [reflexivity |].
  now rewrite IH, andb_assoc.
Qed.

Lemma lstrip_split (s : string) :
  exists w, blank w /\ s = (w ++ lstrip s)%string.
Proof.
  induction s as [|c s [w [Hw Hs]]]; simpl.
  - exists EmptyString. split; reflexivity.
  - destruct (is_space c) eqn:Hc.
    + exists (String c w). split.
      * unfold blank in *. simpl. now rewrite Hc, Hw.
      * simpl. now rewrite <- Hs.
    + exists EmptyString. split; reflexivity.
Qed.

Lemma rstrip_split (s : string) :
  exists w, blank w /\ s = (rstrip s ++ w)%string.
Proof.
  induction s as [|c s [w [Hw Hs]]]; cbn [rstrip].
  - exists EmptyString. split; reflexivity.
  - destruct (rstrip s) as [|d t] eqn:Ht.
    + destruct (is_space c) eqn:Hc.
      * exists (String c w). split.
        -- unfold blank in *. simpl. now rewrite Hc, Hw.
        -- simpl in *. now rewrite <- Hs.
      * exists w. split; [assumption |]. simpl in *. now rewrite <- Hs.
    + exists w. split; [assumption |].
      change (String c (String d t) ++ w)%string
        with (String c (String d t ++ w)). now rewrite <- Hs.
Qed.

(** A blank prefix in front of a text that starts with a visible
    character is part of its leading whitespace. *)
Lemma blank_prefix_split (w : string) :
  forall w1 X c Y,
    blank w -> is_space c = false ->
    (w ++ X)%string = (w1 ++ String c Y)%string ->
    exists t, w1 = (w ++ t)%string /\ X = (t ++ String c Y)%string.
Proof.
  induction w as [|d w IH]; intros w1 X c Y Hw Hc H.
  - exists w1. split; [reflexivity | exact H].
  - unfold blank in Hw. simpl in Hw. apply andb_true_iff in Hw.
    destruct Hw as [Hd Hw].
    destruct w1 as [|d' w1]; simpl in H; injection H as Hdd H.
    + congruence.
    + subst d'. destruct (IH w1 X c Y Hw Hc H) as [t [-> ->]].
      exists t. split; reflexivity.
Qed.

(** A blank suffix behind a text that ends with a visible character is
    part of its trailing whitespace. *)
Lemma blank_suffix_split (Z0 : string) :
  forall X c w' w4,
    blank w' -> is_space c = false ->
    (X ++ w')%string = (Z0 ++ String c w4)%string ->
    exists t, w4 = (t ++ w')%string /\ X = (Z0 ++ String c t)%string.
Proof.
  induction Z0 as [|d Z0 IH]; intros X c w' w4 Hw Hc H.
  - destruct X as [|x X]; simpl in H.
    + exfalso. unfold blank in Hw. rewrite H in Hw. simpl in Hw.
      rewrite Hc in Hw. discriminate.
    + injection H as -> H. exists X. split; [now symmetry | reflexivity].
  - destruct X as [|x X]; simpl in H.
    + exfalso. unfold blank in Hw. rewrite H in Hw.
      change (String d (Z0 ++ String c w4))
        with (String d Z0 ++ String c w4)%string in Hw.
      rewrite all_chars_app in Hw. simpl in Hw. rewrite Hc in Hw.
      rewrite andb_false_r in Hw. discriminate.
    + injection H as -> H. destruct (IH X c w' w4 Hw Hc H) as [t [-> ->]].
      exists t. split; reflexivity.
Qed.

Lemma digits_last (d : string) :
  digits d -> exists d0 c, d = (d0 ++ String c "")%string /\ is_digit c = true.
Proof.
  intros [Hne Hd]. induction d as [|c d IH]; [congruence |].
  simpl in Hd. apply andb_true_iff in Hd. destruct Hd as [Hc Hd].
  destruct d as [|c' d'].
  - exists EmptyString, c. split; [reflexivity | assumption].
  - destruct IH as [d0 [c0 [-> H0]]]; [discriminate | assumption |].
    exists (String c d0), c0. split; [reflexivity | assumption].
Qed.

Lemma decimal_first (a : string) :
  decimal a -> exists c a', a = String c a' /\ is_space c = false.
Proof.
  intros [sign [ip [frac [-> [Hs [[Hne Hip] _]]]]]].
  destruct Hs as [-> | ->]; simpl; [| eexists _, _; split; reflexivity].
  destruct ip as [|c ip]; [congruence |]. simpl in *.
  apply andb_true_iff in Hip. destruct Hip as [Hc _].
  eexists _, _. split; [reflexivity | now apply digit_not_space].
Qed.

Lemma decimal_last (b : string) :
  decimal b -> exists b0 c, b = (b0 ++ String c "")%string /\ is_space c = false.
Proof.
  intros [sign [ip [frac [-> [_ [Hip Hf]]]]]].
  destruct Hf as [-> | [fp [-> Hfp]]].
  - destruct (digits_last ip Hip) as [d0 [c [-> Hc]]].
    exists (sign ++ d0)%string, c. split; [| now apply digit_not_space].
    now rewrite append_nil_r, append_assoc.
  - destruct (digits_last fp Hfp) as [d0 [c [-> Hc]]].
    exists (sign ++ ip ++ String "." d0)%string, c.
    split; [| now apply digit_not_space].
    rewrite !append_assoc. reflexivity.
Qed.

Ltac normalize_append :=
  repeat first [ progress cbn [append] | rewrite append_assoc ].

Lemma blank_app (w w' : string) : blank w -> blank w' -> blank (w ++ w').
Proof. unfold blank. intros H H'. now rewrite all_chars_app, H, H'. Qed.

Lemma blank_app_inv (w w' : string) : blank (w ++ w') -> blank w /\ blank w'.
Proof. unfold blank. rewrite all_chars_app. apply andb_true_iff. Qed.

(** Whitespace added at both ends keeps the shape and the numbers. *)
Lemma coordinate_text_padded (v a b w w' : string) :
  blank w -> blank w' ->
  (coordinate_text (w ++ v ++ w') a b <-> coordinate_text v a b).
Proof.
  intros Hw Hw'. split.
  - intros [w1 [w2 [w3 [w4 [H1 [H2 [H3 [H4 [Ha [Hb H]]]]]]]]]].
    destruct (decimal_first a Ha) as [c [a' [Hac Hc]]].
    destruct (decimal_last b Hb) as [b0 [d [Hbd Hd]]].
    rewrite Hac in H. simpl in H.
    destruct (blank_prefix_split w w1 _ c _ Hw Hc H) as [t [-> Hv]].
    apply blank_app_inv in H1. destruct H1 as [_ Ht].
    assert (Hv' : (v ++ w')%string
                  = ((t ++ a ++ w2 ++ "," ++ w3 ++ b0) ++ String d w4)%string).
    { rewrite Hv, Hac, Hbd. normalize_append. reflexivity. }
    destruct (blank_suffix_split _ v d w' w4 Hw' Hd Hv') as [t' [-> Hvv]].
    apply blank_app_inv in H4. destruct H4 as [Ht' _].
    exists t, w2, w3, t'. repeat split; auto.
    rewrite Hvv, Hbd. normalize_append. reflexivity.
  - intros [w1 [w2 [w3 [w4 [H1 [H2 [H3 [H4 [Ha [Hb ->]]]]]]]]]].
    exists (w ++ w1)%string, w2, w3, (w4 ++ w')%string.
    repeat split; auto using blank_app.
    normalize_append. reflexivity.
Qed.

Lemma row_entries_padded (v w w' : string) :
  blank w -> blank w' -> row_entries (w ++ v ++ w') = row_entries v.
Proof.
  intros Hw Hw'. unfold row_entries.
  destruct (re_match pat v) as [m|] eqn:Hm.
  - destruct (pat_sound v m Hm) as [a [b [Hab ->]]].
    apply (coordinate_text_padded v a b w w' Hw Hw') in Hab.
    now rewrite (pat_complete _ a b Hab).
  - destruct (re_match pat (w ++ v ++ w')) as [m'|] eqn:Hm'; [| reflexivity].
    destruct (pat_sound _ m' Hm') as [a [b [Hab _]]].
    apply (coordinate_text_padded v a b w w' Hw Hw') in Hab.
    apply pat_complete in Hab. congruence.
Qed.

(** X12. The parser reads a text as it reads the text stripped of its
    leading and trailing whitespace, and whitespace added at either end
    changes nothing. *)
Theorem parse_ignores_outer_whitespace (v : string) :
  parse_coordinates lib [Text v]
  = parse_coordinates lib [Text (strip v)]
  /\ forall w w',
       blank w -> blank w' ->
       parse_coordinates lib [Text (w ++ v ++ w')%string]
       = parse_coordinates lib [Text v].
Proof.
  unfold parse_coordinates. split.
  - rewrite !parse_loop_eq. cbn [map astype_str notna_cell str forallb is_text andb entries app].
    destruct (lstrip_split v) as [w [Hw Hv]].
    destruct (rstrip_split (lstrip v)) as [w' [Hw' Hl]].
    assert (He : row_entries v = row_entries (strip v)).
    { rewrite Hv at 1. rewrite Hl at 1. fold (strip v).
      now apply row_entries_padded. }
    now rewrite He.
  - intros w w' Hw Hw'. rewrite !parse_loop_eq. cbn [map astype_str notna_cell str forallb is_text andb entries app].
    now rewrite row_entries_padded.
Qed.

End Trimming.

(** ** The claims on the sample workbooks *)

Section Samples.

Import PyStr PyFloat Re Spec Dashboard Page Examples.

Lemma spec_sheet_loads :
  load_data pandas2 (on_disk spec_sheet) = inr spec_loaded.
Proof. vm_compute. reflexivity. Qed.


Lemma ranged_sheet_loads :
  load_data pandas2 (on_disk ranged_sheet) = inr ranged_loaded.
Proof. vm_compute. reflexivity. Qed.

Lemma signed_sheet_loads :
  load_data pandas2 (on_disk signed_sheet) = inr signed_loaded.
Proof. vm_compute. reflexivity. Qed.


Lemma far_sheet_loads :
  load_data pandas2 (on_disk far_sheet)
  = inr (mkTable ["Coordinates"] [far_plant], mkMeta None None sheet_name []).
Proof. vm_compute. reflexivity. Qed.

(** The sheets load alike under the two libraries, but for the sheet
    with an empty coordinate cell. *)
Example versions_agree :
  map (fun sh => load_data pandas3 (on_disk sh))
      [spec_sheet; mixed_sheet; ranged_sheet; signed_sheet; sum_sheet;
       total_sheet; padded_sheet; clash_sheet; twin_sheet; empty_sheet]
  = map (fun sh => load_data pandas2 (on_disk sh))
        [spec_sheet; mixed_sheet; ranged_sheet; signed_sheet; sum_sheet;
         total_sheet; padded_sheet; clash_sheet; twin_sheet; empty_sheet].
Proof. vm_compute. reflexivity. Qed.

(** C1, counterexample. With the sidebar untouched, the slider of the
    sheet with capacities 100 and 200 returns its default range, and the
    loaded row that has no capacity is not in the output. *)
Lemma absent_capacity_row_excluded :
  exists fs df m ps p,
    load_data pandas2 fs = inr (df, m)
    /\ sidebar pandas2 untouched df m = inr ps
    /\ cap_range ps = Some (100, 200)%Z
    /\ In p (plants df) /\ TotalCapacity p = S754_nan
    /\ ~ In p (plants (apply_filters pandas2 m ps df)).
Proof.
  exists (on_disk ranged_sheet), (fst ranged_loaded), mixed_meta,
         (mkParams (Some ["A"; "B"]) None (Some (100, 200)%Z)),
         plant_without_capacity.
  split; [exact ranged_sheet_loads |].
  split; [vm_compute; reflexivity |].
  split; [reflexivity |].
  split; [now left |]. split; [reflexivity |].
  vm_compute. intros [H | [H | []]]; discriminate H.
Qed.

(** C1, on the same sheet: capacities equal to a bound are within the
    range, the row of capacity 100.5 is within (100, 200) and outside
    (100, 100). *)
Lemma capacity_filter_spec_witness :
  between 100 200 f_100 = true
  /\ between 100 200 f_200 = true
  /\ between 100 200 f_100_5 = true
  /\ between 100 100 f_100_5 = false
  /\ (In plant_without_capacity
         (plants (filter_capacity (Some (100, 200)%Z) (fst ranged_loaded)))
      <-> In plant_without_capacity (plants (fst ranged_loaded))
          /\ (any_capacity (plants (fst ranged_loaded)) = true ->
              is_finite (TotalCapacity plant_without_capacity) = true
              /\ (inject_Z 100 <= to_Q (TotalCapacity plant_without_capacity))%Q
              /\ (to_Q (TotalCapacity plant_without_capacity)
                  <= inject_Z 200)%Q)).
Proof.
  destruct (capacity_filter_spec 100 200 (fst ranged_loaded))
    as [Hin [_ [_ [Hlo [Hhi _]]]]].
  split; [exact (Hlo f_100 eq_refl eq_refl) |].
  split; [exact (Hhi f_200 eq_refl eq_refl) |].
  split; [reflexivity |]. split; [reflexivity |].
  exact (Hin plant_without_capacity).
Defined.

(** C2, on the texts the specification lists: the floats are those of
    the decimal numbers, and a missing value raises only where the
    library keeps it missing. *)
Lemma parse_coordinates_spec_witness :
  (exists lat lon,
      parse_coordinates pandas3
        [Text "40.1, -83.2"; Text "  -7 ,12  "; Text "bad";
         Text "40.1, -83.2 N"; Text "40.1 -83.2"; Text ""]
      = inr (lat, lon)
      /\ lat = [Some f_40_1; Some (S754_finite true 7881299347898368 (-50));
                None; None; None; None]
      /\ lon = [Some f_minus_83_2;
                Some (S754_finite false 6755399441055744 (-49));
                None; None; None; None])
  /\ parse_coordinates pandas3 [Text "1, 2"; NaN] = inl TypeError
  /\ parse_coordinates pandas2 [Text "1, 2"; NaN]
     = inr ([Some f_1; None], [Some f_2; None]).
Proof.
  split; [| split].
  - destruct (parse_coordinates_spec pandas3
                [Text "40.1, -83.2"; Text "  -7 ,12  "; Text "bad";
                 Text "40.1, -83.2 N"; Text "40.1 -83.2"; Text ""])
      as [_ [_ [_ Hret]]].
    destruct Hret as [lat [lon [Hp _]]].
    { intros c Hc.
      repeat (destruct Hc as [<- | Hc]; [discriminate |]). destruct Hc. }
    exists lat, lon. split; [exact Hp |].
    vm_compute in Hp. injection Hp as <- <-. split; reflexivity.
  - destruct (parse_coordinates_spec pandas3 [Text "1, 2"; NaN])
      as [_ [_ [Hraise _]]].
    apply Hraise. exists NaN. split; [right; now left | reflexivity].
  - vm_compute. reflexivity.
Defined.



(** C4, counterexample. The reader keeps owner A only and leaves the
    slider at its default range (100, 200).  The engine keeps the row of
    owner A, which has no capacity; with the capacity step first, that row
    is dropped and nothing is kept. *)
Lemma capacity_step_order_matters :
  exists fs df m ps,
    load_data pandas2 fs = inr (df, m)
    /\ sidebar pandas2 owner_A_only df m = inr ps
    /\ Permutation [ByCapacity; ByOwner; ByRegion]
                   [ByOwner; ByRegion; ByCapacity]
    /\ plants (apply_filters pandas2 m ps df) = [plant_without_capacity]
    /\ plants (run pandas2 m ps [ByCapacity; ByOwner; ByRegion] df) = []
    /\ run pandas2 m ps [ByCapacity; ByOwner; ByRegion] df
       <> apply_filters pandas2 m ps df.
Proof.
  exists (on_disk ranged_sheet), (fst ranged_loaded), mixed_meta,
         (mkParams (Some ["A"]) None (Some (100, 200)%Z)).
  split; [exact ranged_sheet_loads |].
  split; [vm_compute; reflexivity |].
  split.
  { apply perm_trans with [ByOwner; ByCapacity; ByRegion].
    - apply perm_swap.
    - apply perm_skip, perm_swap. }
  split; [vm_compute; reflexivity |].
  split; [vm_compute; reflexivity |].
  vm_compute. discriminate.
Qed.

Lemma capacity_first_is_an_order :
  Permutation [ByCapacity; ByOwner; ByRegion] [ByOwner; ByRegion; ByCapacity].
Proof.
  apply perm_trans with [ByOwner; ByCapacity; ByRegion].
  - apply perm_swap.
  - apply perm_skip, perm_swap.
Defined.

(** C4, on the two sheets with one capacity column.  Where every row has
    a capacity the capacity step can come first; where one row has none
    and the reader keeps its owner only, it cannot. *)
Lemma filter_engine_spec_witness :
  run pandas2 mixed_meta (mkParams (Some ["B"]) None (Some (0, 100)%Z))
      [ByCapacity; ByOwner; ByRegion] (fst signed_loaded)
  = apply_filters pandas2 mixed_meta
      (mkParams (Some ["B"]) None (Some (0, 100)%Z)) (fst signed_loaded)
  /\ plants (apply_filters pandas2 mixed_meta
               (mkParams (Some ["B"]) None (Some (0, 100)%Z))
               (fst signed_loaded))
     = [plant_50]
  /\ ~ (cap_range (mkParams (Some ["A"]) None (Some (100, 200)%Z)) = None
        \/ any_capacity
             (plants (run pandas2 mixed_meta
                        (mkParams (Some ["A"]) None (Some (100, 200)%Z))
                        (before_capacity [ByCapacity; ByOwner; ByRegion])
                        (fst ranged_loaded))) = false
        \/ any_capacity
             (selected pandas2 mixed_meta
                (mkParams (Some ["A"]) None (Some (100, 200)%Z))
                (fst ranged_loaded)) = true
        \/ selected pandas2 mixed_meta
             (mkParams (Some ["A"]) None (Some (100, 200)%Z))
             (fst ranged_loaded) = [])
  /\ run pandas2 mixed_meta (mkParams (Some ["A"]) None (Some (100, 200)%Z))
         [ByCapacity; ByOwner; ByRegion] (fst ranged_loaded)
     <> apply_filters pandas2 mixed_meta
          (mkParams (Some ["A"]) None (Some (100, 200)%Z))
          (fst ranged_loaded).
Proof.
  destruct (filter_engine_spec pandas2 mixed_meta
              (mkParams (Some ["B"]) None (Some (0, 100)%Z))
              (fst signed_loaded)) as [_ [_ [_ Hord]]].
  destruct (Hord _ capacity_first_is_an_order) as [_ [_ [_ Hall]]].
  destruct (filter_engine_spec pandas2 mixed_meta
              (mkParams (Some ["A"]) None (Some (100, 200)%Z))
              (fst ranged_loaded)) as [_ [_ [_ Hord']]].
  destruct (Hord' _ capacity_first_is_an_order) as [Hiff _].
  assert (Hno :
    ~ (cap_range (mkParams (Some ["A"]) None (Some (100, 200)%Z)) = None
       \/ any_capacity
            (plants (run pandas2 mixed_meta
                       (mkParams (Some ["A"]) None (Some (100, 200)%Z))
                       (before_capacity [ByCapacity; ByOwner; ByRegion])
                       (fst ranged_loaded))) = false
       \/ any_capacity
            (selected pandas2 mixed_meta
               (mkParams (Some ["A"]) None (Some (100, 200)%Z))
               (fst ranged_loaded)) = true
       \/ selected pandas2 mixed_meta
            (mkParams (Some ["A"]) None (Some (100, 200)%Z))
            (fst ranged_loaded) = [])).
  { vm_compute. intros [H | [H | [H | H]]]; discriminate H. }
  split.
  - apply Hall. intros p [<- | [<- | [<- | []]]]; discriminate.
  - split; [vm_compute; reflexivity |]. split; [exact Hno |].
    intros He. apply Hno. now apply Hiff.
Defined.

(** C5, counterexample. The file is there, so is the sheet, and its
    column [Coordinates] resolves; the load fails all the same, because
    the sheet has a column [Latitude], and, on another sheet, because two
    headers are equal once stripped. *)
Lemma clashing_label_raises :
  exists fs xls coord,
    fs path = Some xls
    /\ In sheet_name (map fst xls)
    /\ pick (sheet_columns xls) ["coordinates"] = Some coord
    /\ load_data pandas2 fs = inl ValueError
    /\ load_data pandas3 fs = inl ValueError
    /\ load_data pandas2 (on_disk twin_sheet) = inl ValueError.
Proof.
  exists (on_disk clash_sheet), [(sheet_name, clash_sheet)], "Coordinates".
  split; [reflexivity |]. split; [now left |].
  repeat split; vm_compute; reflexivity.
Qed.

(** C5, on sample files: each way of failing, and a load that succeeds
    where the other library fails. *)
Lemma load_data_failures_witness :
  load_data pandas2 (fun _ => None)
  = inl (FileNotFoundError
           [Txt " 'dataset_globalsteeltracker.xlsx' not found in this folder."])
  /\ load_data pandas2 (fun _ => Some [("Sheet1", spec_sheet)])
     = inl (KeyError [Txt " Sheet '"; Txt sheet_name;
                      Txt "' not found. Available: "; ReprList ["Sheet1"]])
  /\ load_data pandas2 (on_disk empty_sheet) = inl AttributeError
  /\ load_data pandas2 (on_disk (mkFrame ["Owner"] [[Text "A"]]))
     = inl (KeyError
              [Txt " Column 'Coordinates' was not found in the 'Plant data' sheet."])
  /\ load_data pandas3 (on_disk blank_sheet) = inl TypeError
  /\ load_data pandas2 (on_disk clash_sheet) = inl ValueError
  /\ (exists df m,
        load_data pandas2 (on_disk blank_sheet) = inr (df, m)
        /\ df = fst padded_loaded
        /\ Forall2
             (fun p r =>
                exists v,
                  coordinate_of pandas2 ["Coordinates"; "Owner"]
                                "Coordinates" r = Some v
                  /\ parsed_row v (Latitude p) (Longitude p))
             (plants df) [[Text "1, 2"; Text "A"]]).
Proof.
  destruct (load_data_failures pandas2 (fun _ => None))
    as [_ [Hfile _]].
  destruct (load_data_failures pandas2 (fun _ => Some [("Sheet1", spec_sheet)]))
    as [_ [_ [Hsheet _]]].
  destruct (load_data_failures pandas2 (on_disk empty_sheet))
    as [_ [_ [_ [Hempty _]]]].
  destruct (load_data_failures pandas2
              (on_disk (mkFrame ["Owner"] [[Text "A"]])))
    as [_ [_ [_ [Hcoord _]]]].
  destruct (load_data_failures pandas3 (on_disk blank_sheet))
    as [_ [_ [_ [_ Hblank3]]]].
  destruct (load_data_failures pandas2 (on_disk clash_sheet))
    as [_ [_ [_ [_ Hclash]]]].
  destruct (load_data_failures pandas2 (on_disk blank_sheet))
    as [_ [_ [_ [_ Hblank2]]]].
  assert (Hin : forall sh : frame,
                  In sheet_name (map fst [(sheet_name, sh)]))
    by (intros sh; now left).
  split; [exact (Hfile eq_refl) |].
  split.
  { apply (Hsheet [("Sheet1", spec_sheet)] eq_refl).
    intros [H | []]. discriminate H. }
  split; [exact (proj1 (Hempty _ eq_refl (Hin _)) eq_refl) |].
  split.
  { apply (proj2 (Hcoord _ eq_refl (Hin _))); [discriminate | reflexivity]. }
  split.
  { apply (proj1 (Hblank3 _ "Coordinates" eq_refl (Hin _) eq_refl)).
    split; [reflexivity |]. split; [reflexivity |].
    exists [NaN; Text "B"]. split; [right; now left | reflexivity]. }
  split.
  { apply (proj1 (proj2 (Hclash _ "Coordinates" eq_refl (Hin _) eq_refl))).
    - intros [H _]. discriminate H.
    - intros H. inversion H as [| c l Hc Hl]; subst.
      inversion Hl as [| c' l' Hc' Hl']; subst.
      apply Hc'. now left. }
  destruct (proj2 (proj2 (Hblank2 _ "Coordinates" eq_refl (Hin _) eq_refl)))
    as [df [m [Hload [_ [HF _]]]]].
  { intros [H _]. discriminate H. }
  { repeat constructor; simpl; intuition discriminate. }
  exists df, m. split; [exact Hload |].
  assert (Hdf : df = fst padded_loaded)
    by (vm_compute in Hload; now injection Hload as <- _).
  split; [exact Hdf |]. exact HF.
Defined.

(** C6, counterexample. A latitude of 310 digits is read as infinity,
    and the row is kept. *)
Lemma infinite_latitude_loaded :
  exists fs df m p x,
    load_data pandas2 fs = inr (df, m)
    /\ In p (plants df)
    /\ Latitude p = Some x /\ is_finite x = false.
Proof.
  exists (on_disk far_sheet), (mkTable ["Coordinates"] [far_plant]),
         (mkMeta None None sheet_name []), far_plant, (S754_infinity false).
  split; [exact far_sheet_loads |].
  repeat split. now left.
Qed.

(** C6, on the example of the specification. *)
Lemma loaded_coordinates_present_witness :
  load_data pandas2 (on_disk spec_sheet) = inr spec_loaded
  /\ forall p, In p (plants (fst spec_loaded)) ->
       exists x y,
         Latitude p = Some x /\ Longitude p = Some y
         /\ is_nan x = false /\ is_nan y = false.
Proof.
  assert (H : load_data pandas2 (on_disk spec_sheet)
              = inr (fst spec_loaded, snd spec_loaded))
    by (vm_compute; reflexivity).
  split; [exact H |].
  exact (loaded_coordinates_present pandas2
           (on_disk spec_sheet) (fst spec_loaded) (snd spec_loaded) H).
Defined.



(** C10, on the sheet with capacities -2.5, 50 and 100.5: the slider
    runs from -2 to 100, and under this default range the rows of
    capacity -2.5 and 100.5 are not in the output. *)
Lemma truncated_slider_bounds_witness :
  sidebar pandas2 untouched (fst signed_loaded) mixed_meta
  = inr (mkParams (Some ["A"; "B"]) None (Some (-2, 100)%Z))
  /\ series_min (map TotalCapacity (plants (fst signed_loaded))) = f_minus_2_5
  /\ series_max (map TotalCapacity (plants (fst signed_loaded))) = f_100_5
  /\ toward_zero (to_Q f_minus_2_5) (-2)
  /\ toward_zero (to_Q f_100_5) 100
  /\ ~ In plant_minus_2_5
        (plants (apply_filters pandas2 mixed_meta
                   (mkParams (Some ["A"; "B"]) None (Some (-2, 100)%Z))
                   (fst signed_loaded)))
  /\ ~ In plant_100_5
        (plants (apply_filters pandas2 mixed_meta
                   (mkParams (Some ["A"; "B"]) None (Some (-2, 100)%Z))
                   (fst signed_loaded)))
  /\ view pandas2 untouched (fst signed_loaded) mixed_meta
     = inr (mkTable (columns (fst signed_loaded)) [plant_50]).
Proof.
  assert (Hs : sidebar pandas2 untouched (fst signed_loaded) mixed_meta
               = inr (mkParams (Some ["A"; "B"]) None (Some (-2, 100)%Z)))
    by (vm_compute; reflexivity).
  assert (Hex : exists p, In p (plants (fst signed_loaded))
                          /\ TotalCapacity p <> S754_nan).
  { exists plant_50. split; [right; now left | discriminate]. }
  destruct (truncated_slider_bounds pandas2 untouched (fst signed_loaded)
              mixed_meta _ Hs Hex)
    as [_ [[_ [_ [Hlo Hhi]]] [Hout _]]].
  split; [exact Hs |].
  split; [vm_compute; reflexivity |]. split; [vm_compute; reflexivity |].
  split; [exact Hlo |]. split; [exact Hhi |].
  split; [| split].
  - apply (Hout (-2)%Z 100%Z plant_minus_2_5 eq_refl);
      [vm_compute; discriminate | vm_compute; discriminate | discriminate |].
    right. reflexivity.
  - apply (Hout (-2)%Z 100%Z plant_100_5 eq_refl);
      [vm_compute; discriminate | vm_compute; discriminate | discriminate |].
    left. reflexivity.
  - vm_compute. reflexivity.
Defined.

(** The parser on the edge cases the specification lists. *)
Example parse_signed_pair :
  parse_loop [Some "40.1, -83.2"] [] []
  = inr ([Some (S754_finite false 5643573283048653 (-47))],
         [Some (S754_finite true 5854679515581645 (-46))]).
Proof. vm_compute. reflexivity. Qed.

Example parse_integers_and_blanks :
  row_entries "  -7 ,12  "
  = (Some (S754_finite true 7881299347898368 (-50)),
     Some (S754_finite false 6755399441055744 (-49))).
Proof. vm_compute. reflexivity. Qed.

Example parse_rejects :
  map row_entries [""; "bad"; "40.1 -83.2"; "40.1, -83.2 N"; "x 1, 2";
                   "1., 2"; ".5, 2"; "1,2,3"; "nan"]
  = repeat (None, None) 9.
Proof. vm_compute. reflexivity. Qed.

(** A name that contains the capacity suffix without ending with it is
    no capacity column. *)
Example suffix_not_containment :
  is_cap_col "Nominal Capacity (TTPA)" = true
  /\ is_cap_col "capacity (ttpa) note" = false
  /\ contains "capacity (ttpa)" (lower "capacity (ttpa) note") = true.
Proof. repeat split. Qed.

(** The region falls back to a country or region column only when no
    column is labelled country/area. *)
Example region_preference :
  py_or (pick ["Region"; "Country/Area"] ["country/area"])
        (pick ["Region"; "Country/Area"] ["country"; "region"])
  = Some "Country/Area"
  /\ py_or (pick ["Owner"; "Region"; "Country"] ["country/area"])
           (pick ["Owner"; "Region"; "Country"] ["country"; "region"])
     = Some "Region".
Proof. split; reflexivity. Qed.

(** The slider is refused on the sheet whose capacities 100 and 100.5
    truncate to the same bound. *)
Example equal_bounds_refused :
  sidebar pandas2 untouched (fst mixed_loaded) mixed_meta
  = inl StreamlitAPIException.
Proof. vm_compute. reflexivity. Qed.

End Samples.

(** ** The further properties on the samples *)

Section MoreSamples.

Import PyStr PyFloat Re Spec Dashboard Page Examples.

(** X1, on a sheet whose headers carry whitespace. *)
Lemma loaded_columns_stripped_witness :
  load_data pandas2 (on_disk padded_sheet) = inr padded_loaded
  /\ forall c, In c (columns (fst padded_loaded)) ->
       lstrip c = c /\ rstrip c = c /\ strip c = c.
Proof.
  assert (H : load_data pandas2 (on_disk padded_sheet)
              = inr (fst padded_loaded, snd padded_loaded))
    by (vm_compute; reflexivity).
  split; [exact H |].
  exact (loaded_columns_stripped pandas2
           (on_disk padded_sheet) (fst padded_loaded) (snd padded_loaded) H).
Defined.

(** X2, on the sheet that has a column [TotalCapacity]: its text is
    replaced by the total, 50, read in the capacity column. *)
Lemma loaded_cells_coerced_witness :
  load_data pandas2 (on_disk total_sheet) = inr total_loaded
  /\ get (f_columns total_sheet) [Text "1, 2"; Text "old"; Text "50"]
         "TotalCapacity" = Text "old"
  /\ (forall p, In p (plants (fst total_loaded)) ->
                get (columns (fst total_loaded)) (cells p) "TotalCapacity"
                = Num f_50)
  /\ forall p c s,
       In p (plants (fst total_loaded)) -> In c (cap_cols (snd total_loaded)) ->
       get (columns (fst total_loaded)) (cells p) c <> Text s.
Proof.
  assert (H : load_data pandas2 (on_disk total_sheet)
              = inr (fst total_loaded, snd total_loaded))
    by (vm_compute; reflexivity).
  destruct (loaded_cells_coerced pandas2 (on_disk total_sheet)
              (fst total_loaded) (snd total_loaded) H)
    as [Hnum [Htot _]].
  split; [exact H |]. split; [reflexivity |]. split; [| exact Hnum].
  intros p Hp. rewrite (Htot p Hp); [| right; now left].
  destruct Hp as [<- | []]. reflexivity.
Defined.

(** X4, on the example of the specification: the owner resolved, the
    region did not. *)
Lemma hover_data_fallback_keys_witness :
  load_data pandas2 (on_disk spec_sheet) = inr spec_loaded
  /\ (In (or_default (owner (snd spec_loaded)) "Owner")
         (columns (fst spec_loaded))
      <-> owner (snd spec_loaded) <> None)
  /\ (In (or_default (region (snd spec_loaded)) "Country/Area")
         (columns (fst spec_loaded))
      <-> region (snd spec_loaded) <> None)
  /\ (region (snd spec_loaded) = None
      <-> forall c, In c (columns (fst spec_loaded)) ->
                    ~ key_matches ["country"; "region"] c).
Proof.
  assert (H : load_data pandas2 (on_disk spec_sheet)
              = inr (fst spec_loaded, snd spec_loaded))
    by (vm_compute; reflexivity).
  split; [exact H |].
  exact (hover_data_fallback_keys pandas2
           (on_disk spec_sheet) (fst spec_loaded) (snd spec_loaded) H).
Defined.

(** X5, on three sheets: bounds that differ, bounds that are equal, and
    a capacity that is infinite. *)
Lemma slider_bounds_enclose_witness :
  (exists ps,
      sidebar pandas2 untouched (fst signed_loaded) mixed_meta = inr ps
      /\ cap_range ps = Some (-2, 100)%Z)
  /\ sidebar pandas2 untouched (fst mixed_loaded) mixed_meta
     = inl StreamlitAPIException
  /\ load_data pandas2 (on_disk unbounded_sheet) = inr unbounded_loaded
  /\ sidebar pandas2 untouched (fst unbounded_loaded) mixed_meta
     = inl OverflowError.
Proof.
  destruct (slider_bounds_enclose pandas2 untouched (fst signed_loaded)
              mixed_meta) as [_ [_ Hsigned]].
  destruct (slider_bounds_enclose pandas2 untouched (fst mixed_loaded)
              mixed_meta) as [_ [_ Hmixed]].
  destruct (slider_bounds_enclose pandas2 untouched (fst unbounded_loaded)
              mixed_meta) as [_ [Hinf _]].
  split; [| split; [| split]].
  - destruct Hsigned as [_ [_ [Hok _]]].
    + exists plant_50. split; [right; now left | discriminate].
    + intros p [<- | [<- | [<- | []]]] _; reflexivity.
    + apply Hok. repeat split.
  - destruct Hmixed as [_ [_ [_ Hno]]].
    + exists plant_100. split; [right; now left | discriminate].
    + intros p [<- | [<- | [<- | []]]] H; [now elim H | |]; reflexivity.
    + apply Hno. intros [Hlt _]. vm_compute in Hlt. discriminate Hlt.
  - vm_compute. reflexivity.
  - apply Hinf. exists plant_unbounded, false.
    split; [right; now left | reflexivity].
Defined.

(** X6, on the sheet with capacities 100 and 200: untouched, the page
    sizes the bubbles of the two rows that have a capacity; with owner A
    alone, it shows the row without capacity and sizes nothing. *)
Lemma size_arg_complete_witness :
  view pandas2 untouched (fst ranged_loaded) mixed_meta
  = inr (mkTable (columns (fst ranged_loaded)) [plant_100; plant_200])
  /\ (forall s, In s [f_100; f_200] -> s <> S754_nan)
  /\ view pandas2 owner_A_only (fst ranged_loaded) mixed_meta
     = inr (mkTable (columns (fst ranged_loaded)) [plant_without_capacity])
  /\ (forall p, In p [plant_without_capacity] -> TotalCapacity p = S754_nan).
Proof.
  assert (Hv : view pandas2 untouched (fst ranged_loaded) mixed_meta
               = inr (mkTable (columns (fst ranged_loaded))
                              [plant_100; plant_200]))
    by (vm_compute; reflexivity).
  assert (Hv' : view pandas2 owner_A_only (fst ranged_loaded) mixed_meta
                = inr (mkTable (columns (fst ranged_loaded))
                               [plant_without_capacity]))
    by (vm_compute; reflexivity).
  split; [exact Hv |].
  split; [exact (size_arg_complete pandas2 untouched _ _ _ Hv) |].
  split; [exact Hv' |].
  exact (size_arg_complete pandas2 owner_A_only _ _ _ Hv').
Defined.

(** X8, on the sheet with capacities 100 and 200: from the range
    (100, 150) to the range (100, 200). *)
Lemma widening_keeps_rows_witness :
  (100 <= 100)%Z /\ (150 <= 200)%Z
  /\ plants (apply_filters pandas2 mixed_meta
               (mkParams None None (Some (100, 150)%Z)) (fst ranged_loaded))
     = [plant_100]
  /\ forall p,
       In p (plants (apply_filters pandas2 mixed_meta
                       (mkParams None None (Some (100, 150)%Z))
                       (fst ranged_loaded))) ->
       In p (plants (apply_filters pandas2 mixed_meta
                       (mkParams None None (Some (100, 200)%Z))
                       (fst ranged_loaded))).
Proof.
  assert (H1 : (100 <= 100)%Z) by lia.
  assert (H2 : (150 <= 200)%Z) by lia.
  split; [exact H1 |]. split; [exact H2 |].
  split; [vm_compute; reflexivity |].
  exact (widening_keeps_rows pandas2 mixed_meta
           (mkParams None None (Some (100, 150)%Z))
           (mkParams None None (Some (100, 200)%Z))
           (fst ranged_loaded) 100 150 100 200
           eq_refl eq_refl eq_refl eq_refl H1 H2).
Defined.

(** X9, on the sheet where every row has an owner and a whole
    capacity. *)
Lemma untouched_view_complete_witness :
  load_data pandas2 (on_disk whole_sheet) = inr whole_loaded
  /\ sidebar pandas2 untouched (fst whole_loaded) (snd whole_loaded)
     = inr (mkParams (Some ["B"]) None (Some (100, 200)%Z))
  /\ view pandas2 untouched (fst whole_loaded) (snd whole_loaded)
     = inr (fst whole_loaded).
Proof.
  assert (Hs : sidebar pandas2 untouched (fst whole_loaded) (snd whole_loaded)
               = inr (mkParams (Some ["B"]) None (Some (100, 200)%Z)))
    by (vm_compute; reflexivity).
  assert (Ho : column_complete (fst whole_loaded) (owner (snd whole_loaded))).
  { intros _ p [<- | [<- | []]]; discriminate. }
  assert (Hr : column_complete (fst whole_loaded) (region (snd whole_loaded))).
  { intros H. discriminate H. }
  assert (Hc : forall p, In p (plants (fst whole_loaded)) ->
                         whole (TotalCapacity p)).
  { intros p [<- | [<- | []]]; split; reflexivity. }
  split; [vm_compute; reflexivity |]. split; [exact Hs |].
  exact (proj2 (untouched_view_complete pandas2 (fst whole_loaded)
                  (snd whole_loaded) _ Hs Ho Hr (or_intror Hc))).
Defined.

(** X10, on the table where one row has no owner. *)
Lemma untouched_view_drops_ownerless_witness :
  options pandas2 ownerless_table (col_name (owner owner_meta)) = ["A"]
  /\ In ownerless_plant (plants ownerless_table)
  /\ cell_of ownerless_table (owner owner_meta) ownerless_plant = NaN
  /\ ~ In ownerless_plant
        (plants (apply_filters pandas2 owner_meta
                   (mkParams (Some ["A"]) None None) ownerless_table))
  /\ forall f, view pandas2 untouched ownerless_table owner_meta = inr f ->
               ~ In ownerless_plant (plants f).
Proof.
  assert (Hs : sidebar pandas2 untouched ownerless_table owner_meta
               = inr (mkParams (Some ["A"]) None None))
    by (vm_compute; reflexivity).
  assert (Hopt : options pandas2 ownerless_table
                   (col_name (owner owner_meta)) = ["A"]) by reflexivity.
  assert (Hne : options pandas2 ownerless_table
                  (col_name (owner owner_meta)) <> [])
    by (rewrite Hopt; discriminate).
  assert (Hnan : ~ In "nan" (options pandas2 ownerless_table
                               (col_name (owner owner_meta))))
    by (rewrite Hopt; intros [H | []]; discriminate H).
  assert (Hin : In ownerless_plant (plants ownerless_table))
    by (right; left; reflexivity).
  split; [exact Hopt |]. split; [exact Hin |]. split; [reflexivity |].
  exact (proj2 (untouched_view_drops_ownerless pandas2 ownerless_table
                  owner_meta _ Hs eq_refl Hne Hnan ownerless_plant Hin)
               eq_refl).
Defined.

(** X11, on the coordinates of the example of the specification. *)
Lemma negated_latitude_witness :
  unsigned_decimal "40.1" /\ decimal "-83.2"
  /\ exists x y,
       parse_coordinates pandas2
         [Text "40.1, -83.2"; Text "-40.1, -83.2"]
       = inr ([Some x; Some (SFopp x)], [Some y; Some y]).
Proof.
  assert (Ha : unsigned_decimal "40.1").
  { exists "40", ".1". repeat split; try discriminate.
    right. exists "1". repeat split. discriminate. }
  assert (Hb : decimal "-83.2").
  { exists "-", "83", ".2". repeat split; auto; try discriminate.
    right. exists "2". repeat split. discriminate. }
  split; [exact Ha |]. split; [exact Hb |].
  exact (negated_latitude pandas2 "40.1" "-83.2" "" "" " " ""
           Ha Hb eq_refl eq_refl eq_refl eq_refl).
Defined.

End MoreSamples.
